(** * MongoMemoryServer: lifecycle, startup protocol and credential bootstrap

    A shallow embedding of
    [packages/mongodb-memory-server-core/src/MongoMemoryServer.ts].

    The class is a record of its fields; its [async] methods are programs in
    a state-and-exception monad over a [World] that holds the object, the
    chronological trace of calls made to collaborators (port allocator,
    [tmp], [fs], [MongoInstance], [MongoClient], [console]) and the promise
    cells handed out to waiting callers.  What the collaborators answer is
    given by an [Env] of oracles that see the trace so far. *)

From Stdlib Require Import ZArith String Ascii Bool Lia Permutation.
From stdpp Require Import base list strings pretty.

Open Scope string_scope.
Open Scope Z_scope.
Open Scope list_scope.

(** ** Data model *)

(** [MongoMemoryServerStateEnum]: the four lifecycle states. *)
Inductive MongoMemoryServerStateEnum : Type :=
| new
| starting
| running
| stopped.

(** The string value of each enum member. *)
Definition state_name (s : MongoMemoryServerStateEnum) : string :=
  match s with
  | new => "new"
  | starting => "starting"
  | running => "running"
  | stopped => "stopped"
  end.

Definition state_eqb (a b : MongoMemoryServerStateEnum) : bool :=
  match a, b with
  | new, new | starting, starting | running, running | stopped, stopped => true
  | _, _ => false
  end.

(** [new Error(message)]. *)
Record Error : Type := mkError { message : string }.

Inductive Exn (A : Type) : Type :=
| Ok (a : A)
| Throw (e : Error).
Arguments Ok {A} a.
Arguments Throw {A} e.

(** An element of [CreateUserMongoDB.roles]. *)
Inductive Role : Type :=
| RoleName (role : string)
| RoleDb (role db : string).

(** [CreateUserMongoDB]: the document of a [createUser] command. *)
Record CreateUserMongoDB : Type := mkDoc {
  createUser : string;
  pwd : string;
  customData : option (list (string * string));
  roles : list Role;
  mechanisms : option (list string);
  authenticationRestrictions : option (list (option string * option string));
  digestPassword : option bool
}.

(** [CreateUser extends CreateUserMongoDB] with the optional [database]. *)
Record CreateUser : Type := mkUser {
  user_doc : CreateUserMongoDB;
  database : option string
}.

(** [Required<AutomaticAuth>], the type of [this.auth]. *)
Record AutomaticAuth : Type := mkAuth {
  disable : bool;
  extraUsers : list CreateUser;
  customRootName : string;
  customRootPwd : string;
  force : bool
}.

(** [AutomaticAuth] as the caller writes it: every field optional. *)
Record AutomaticAuthOpts : Type := mkAuthOpts {
  o_disable : option bool;
  o_extraUsers : option (list CreateUser);
  o_customRootName : option string;
  o_customRootPwd : option string;
  o_force : option bool
}.

(** [MongoMemoryInstanceProp], the type of [opts.instance].  It is declared
    in [util/MongoInstance], which is not among the sources; the fields are
    the ones [_startUpInstance] reads, each optional.  A [StorageEngine] is
    the string that names it. *)
Record MongoMemoryInstanceProp : Type := mkInstOpts {
  io_port : option Z;
  io_dbName : option string;
  io_ip : option string;
  io_storageEngine : option string;
  io_replSet : option string;
  io_dbPath : option string;
  io_args : option (list string);
  io_auth : option bool
}.

(** [tmp.DirResult]: the directory name; [removeCallback] is an effect. *)
Record DirResult : Type := mkDir { dir_name : string }.

(** [StartupInstanceData], the [data] variable of [_startUpInstance]. *)
Record StartupInstanceData : Type := mkData {
  port : Z;
  dbPath : option string;
  dbName : string;
  ip : string;
  storageEngine : string;
  replSet : option string;
  tmpDir : option DirResult
}.

(** A live [MongoInstance] of [util/MongoInstance], known by its process
    id; [MongoInstance.run] and [kill] are calls to the host. *)
Record MongoInstance : Type := mkInstance { getPid : nat }.

(** [MongoInstanceData]: the startup data and the instance.  The interface
    only re-declares [dbPath] as not optional. *)
Record MongoInstanceData : Type := mkInfo {
  info_data : StartupInstanceData;
  instance : MongoInstance
}.

(** The [instance] part of [MongodOpts], as [_startUpInstance] fills it. *)
Record MongodInstanceOpts : Type := mkMongodInst {
  mi_dbPath : option string;
  mi_ip : string;
  mi_port : Z;
  mi_storageEngine : string;
  mi_replSet : option string;
  mi_args : option (list string);
  mi_auth : option bool
}.

(** [Partial<MongodOpts>]; [binary] and [spawn] are passed through. *)
Record MongodOpts : Type := mkMongodOpts {
  mo_instance : MongodInstanceOpts;
  mo_binary : option string;
  mo_spawn : option string
}.

(** [MongoMemoryServerOpts]. *)
Record MongoMemoryServerOpts : Type := mkOpts {
  opt_instance : option MongoMemoryInstanceProp;
  opt_binary : option string;
  opt_spawn : option string;
  opt_auth : option AutomaticAuthOpts
}.

(** The fields of the class.  [listeners] are the once-listeners of
    [stateChange] that [ensureInstance] registers, each named by the promise
    it settles, in registration order. *)
Record MongoMemoryServer : Type := mkServer {
  _instanceInfo : option MongoInstanceData;
  opts : MongoMemoryServerOpts;
  _state : MongoMemoryServerStateEnum;
  auth : option AutomaticAuth;
  listeners : list nat
}.

(** ** Decidable equality, for [decide] and [bool_decide] *)

#[global] Instance state_eq_dec : EqDecision MongoMemoryServerStateEnum.
Proof. solve_decision. Defined.
#[global] Instance Error_eq_dec : EqDecision Error.
Proof. solve_decision. Defined.
#[global] Instance Role_eq_dec : EqDecision Role.
Proof. solve_decision. Defined.
#[global] Instance Doc_eq_dec : EqDecision CreateUserMongoDB.
Proof. solve_decision. Defined.
#[global] Instance User_eq_dec : EqDecision CreateUser.
Proof. solve_decision. Defined.
#[global] Instance Auth_eq_dec : EqDecision AutomaticAuth.
Proof. solve_decision. Defined.
#[global] Instance Dir_eq_dec : EqDecision DirResult.
Proof. solve_decision. Defined.
#[global] Instance Data_eq_dec : EqDecision StartupInstanceData.
Proof. solve_decision. Defined.
#[global] Instance Instance_eq_dec : EqDecision MongoInstance.
Proof. solve_decision. Defined.
#[global] Instance Info_eq_dec : EqDecision MongoInstanceData.
Proof. solve_decision. Defined.
#[global] Instance MongodInst_eq_dec : EqDecision MongodInstanceOpts.
Proof. solve_decision. Defined.
#[global] Instance MongodOpts_eq_dec : EqDecision MongodOpts.
Proof. solve_decision. Defined.

(** ** Effects *)

(** One call to a collaborator, or one emission. *)
Inductive Event : Type :=
| EGetPort (preferred : option Z)
| EGenerateDbName (given : option string)
| EDirSync
| EReaddir (path : string)
| ERun (o : MongodOpts)
| EKill (i : MongoInstance)
| EConnect (uri : string)
| ECommand (db : string) (doc : CreateUserMongoDB)
| EClose
| ERemoveCallback (d : DirResult)
| EEmit (s : MongoMemoryServerStateEnum)
| EWarn (msg : string).

#[global] Instance Event_eq_dec : EqDecision Event.
Proof. solve_decision. Defined.

(** A promise returned to a caller: pending, or settled once. *)
Inductive Settled : Type :=
| Fulfilled (v : option MongoInstanceData)
| Rejected (e : Error).

Definition Cell : Type := option Settled.

Record World : Type := mkWorld {
  server : MongoMemoryServer;
  trace : list Event;
  promises : list Cell
}.

(** What the collaborators and the host answer, given the trace so far.
    [uriTemplate] and [generateDbName] belong to [util/utils], which is not
    among the sources, and are taken as given; [env_sort] is the host's
    [Array.prototype.sort]; [env_debug_enabled] says whether the debug
    namespace of this class is enabled. *)
Record Env : Type := mkEnv {
  env_getPort : list Event -> option Z -> Exn Z;
  env_generateDbName : list Event -> option string -> string;
  env_dirSync : list Event -> Exn DirResult;
  env_readdir : list Event -> string -> Exn (list string);
  env_run : list Event -> MongodOpts -> Exn MongoInstance;
  env_kill : list Event -> MongoInstance -> Exn unit;
  env_connect : list Event -> string -> Exn unit;
  env_command : list Event -> string -> CreateUserMongoDB -> Exn unit;
  env_close : list Event -> Exn unit;
  env_sort : (CreateUser -> CreateUser -> Z) -> list CreateUser -> list CreateUser;
  env_debug_enabled : bool;
  uriTemplate : string -> Z -> string -> string
}.

(** The state-and-exception monad of the methods.  A thrown error keeps the
    writes made before it. *)
Definition M (A : Type) : Type := World -> Exn A * World.

Definition ret {A} (a : A) : M A := fun w => (Ok a, w).

Definition throw {A} (e : Error) : M A := fun w => (Throw e, w).

Definition bind {A B} (m : M A) (k : A -> M B) : M B :=
  fun w =>
    match m w with
    | (Ok a, w') => k a w'
    | (Throw e, w') => (Throw e, w')
    end.

Notation "x <- m ;; k" := (bind m (fun x => k))
  (at level 100, m at next level, right associativity).
Notation "m ;; k" := (bind m (fun _ => k))
  (at level 100, right associativity).

(** [m.catch(...)] seen from the awaiting code: the outcome as a value. *)
Definition try {A} (m : M A) : M (Exn A) :=
  fun w => let '(r, w') := m w in (Ok r, w').

Definition get_server : M MongoMemoryServer := fun w => (Ok (server w), w).

Definition modify_server (f : MongoMemoryServer -> MongoMemoryServer) : M unit :=
  fun w => (Ok tt, mkWorld (f (server w)) (trace w) (promises w)).

Definition emit_event (e : Event) : M unit :=
  fun w => (Ok tt, mkWorld (server w) (trace w ++ [e]) (promises w)).

(** A call to a collaborator: recorded, then answered by the oracle. *)
Definition call {A} (e : Event) (answer : list Event -> Exn A) : M A :=
  fun w =>
    (answer (trace w), mkWorld (server w) (trace w ++ [e]) (promises w)).

Definition set_instanceInfo (i : option MongoInstanceData)
    (s : MongoMemoryServer) : MongoMemoryServer :=
  mkServer i (opts s) (_state s) (auth s) (listeners s).

Definition set_state (st : MongoMemoryServerStateEnum)
    (s : MongoMemoryServer) : MongoMemoryServer :=
  mkServer (_instanceInfo s) (opts s) st (auth s) (listeners s).

Definition set_listeners (l : list nat)
    (s : MongoMemoryServer) : MongoMemoryServer :=
  mkServer (_instanceInfo s) (opts s) (_state s) (auth s) l.

(** The array [this.auth.extraUsers] is the array the caller gave as
    [opts.auth.extraUsers], when one was given: the constructor copies the
    options object and the resolved AuthConfig takes over the fields, and
    neither copies the array or the users in it.  The same array is thus
    read as [this.opts.auth.extraUsers].  The record keeps the array under
    both fields; this is [this.opts] once the array holds [l]. *)
Definition share_extraUsers (l : list CreateUser)
    (o : MongoMemoryServerOpts) : MongoMemoryServerOpts :=
  mkOpts (opt_instance o) (opt_binary o) (opt_spawn o)
         (match opt_auth o with
          | Some ao =>
              Some (mkAuthOpts (o_disable ao)
                               (match o_extraUsers ao with
                                | Some _ => Some l
                                | None => None
                                end)
                               (o_customRootName ao) (o_customRootPwd ao)
                               (o_force ao))
          | None => None
          end).

(** A write to the array [this.auth.extraUsers], which then holds [l]: it
    is seen through [this.auth] and through [this.opts.auth]. *)
Definition set_extraUsers (l : list CreateUser)
    (s : MongoMemoryServer) : MongoMemoryServer :=
  match auth s with
  | Some a =>
      mkServer (_instanceInfo s) (share_extraUsers l (opts s)) (_state s)
               (Some (mkAuth (disable a) l (customRootName a) (customRootPwd a)
                             (force a)))
               (listeners s)
  | None => s
  end.

(** ** JavaScript helpers *)

Definition dq : string := String "034"%char EmptyString.
Definition nl : string := String "010"%char EmptyString.

(** [!!b] for [b?: boolean]. *)
Definition truthy_bool (o : option bool) : bool :=
  match o with
  | Some true => true
  | _ => false
  end.

(** [!!s] for [s?: string]: the empty string is falsy. *)
Definition truthy_string (o : option string) : bool :=
  match o with
  | Some s => negb (String.eqb s "")
  | None => false
  end.

(** Modelled from the spec: [isNullOrUndefined] of [util/utils] is not among
    the sources.  This is [!isNullOrUndefined(x)]: the value is neither
    [null] nor [undefined]. *)
Definition defined {A} (o : option A) : bool :=
  match o with
  | Some _ => true
  | None => false
  end.

(** Modelled from the spec: [assertion] of [util/utils] is not among the
    sources.  [assertion(cond, error)] throws [error] unless [cond] holds. *)
Definition assertion (cond : bool) (e : Error) : M unit :=
  if cond then ret tt else throw e.

(** ** Promises and the [stateChange] event *)

(** Settling a promise: only a pending one changes. *)
Definition settle_cell (p : nat) (x : Settled) (cells : list Cell) : list Cell :=
  match cells !! p with
  | Some None => <[p := Some x]> cells
  | _ => cells
  end.

Definition settle (p : nat) (x : Settled) : M unit :=
  fun w => (Ok tt, mkWorld (server w) (trace w) (settle_cell p x (promises w))).

(** [new Promise(...)]: a fresh pending cell. *)
Definition new_promise : M nat :=
  fun w =>
    (Ok (length (promises w)),
     mkWorld (server w) (trace w) (promises w ++ [None])).

(** The error of a waiter that is notified of another state. *)
Definition unexpected_state (state : MongoMemoryServerStateEnum) : Error :=
  mkError (dq ++ "ensureInstance" ++ dq ++ " waited for " ++ dq ++ "running"
           ++ dq ++ " but got an different state: " ++ dq ++ state_name state
           ++ dq).

(** The listener that [ensureInstance] passes to [this.once]: [rej] when the
    state is not [running], then [res(this._instanceInfo)] in every case. *)
Definition waiter (p : nat) (state : MongoMemoryServerStateEnum) : M unit :=
  (if negb (state_eqb state running)
   then settle p (Rejected (unexpected_state state))
   else ret tt) ;;
  s <- get_server ;;
  settle p (Fulfilled (_instanceInfo s)).

(** The listeners of [ls] called in turn. *)
Fixpoint fire (state : MongoMemoryServerStateEnum) (ls : list nat) : M unit :=
  match ls with
  | [] => ret tt
  | p :: ls' => waiter p state ;; fire state ls'
  end.

(** [this.emit(stateChange, newState)]: every once-listener is removed and
    called with the new state, in registration order. *)
Definition emit (newState : MongoMemoryServerStateEnum) : M unit :=
  s <- get_server ;;
  emit_event (EEmit newState) ;;
  modify_server (set_listeners []) ;;
  fire newState (listeners s).

Definition stateChange (newState : MongoMemoryServerStateEnum) : M unit :=
  modify_server (set_state newState) ;;
  emit newState.

(** ** [createAuth] *)

(** The comparator given to [extraUsers.sort]. *)
Definition compare_users (a b : CreateUser) : Z :=
  if bool_decide (database a = Some "admin") then -1
  else if bool_decide (database a = database b) then 0 else 1.

(** The command document of the root user. *)
Definition root_command (a : AutomaticAuth) : CreateUserMongoDB :=
  mkDoc (customRootName a) "rootuser"
        (Some [("createBy", "mongodb-memory-server"); ("as", "ROOTUSER")])
        [RoleName "root"] (Some ["SCRAM-SHA-256"]) None None.

(** The command document of an extra user. *)
Definition user_command (user : CreateUser) : CreateUserMongoDB :=
  let d := user_doc user in
  mkDoc (createUser d) (pwd d)
        (Some (default [] (customData d)))
        (roles d)
        (Some (default ["SCRAM-SHA-256"] (mechanisms d)))
        (Some (default [] (authenticationRestrictions d)))
        (Some (default true (digestPassword d))).

(** [user.database = isNullOrUndefined(user.database) ? 'admin' : user.database]. *)
Definition with_default_database (user : CreateUser) : CreateUser :=
  mkUser (user_doc user) (Some (default "admin" (database user))).

(** The write above, on the element of [this.auth.extraUsers] at index [i]:
    the user is the caller's own object in the caller's array, so the write
    is seen through [this.opts.auth.extraUsers] as well. *)
Definition write_user (i : nat) (user : CreateUser)
    (s : MongoMemoryServer) : MongoMemoryServer :=
  match auth s with
  | Some a => set_extraUsers (<[i := user]> (extraUsers a)) s
  | None => s
  end.

(** The [for (const user of this.auth.extraUsers)] loop from index [i] on;
    [db] is [db.databaseName]. *)
Fixpoint createUsers (env : Env) (db : string) (i : nat)
    (rest : list CreateUser) : M unit :=
  match rest with
  | [] => ret tt
  | user :: rest' =>
      let user' := with_default_database user in
      modify_server (write_user i user') ;;
      let name := default "admin" (database user) in
      let db' := if bool_decide (name <> db) then name else db in
      call (ECommand db' (user_command user'))
           (fun tr => env_command env tr db' (user_command user')) ;;
      createUsers env db' (S i) rest'
  end.

Definition createAuth (env : Env) (data : StartupInstanceData) : M unit :=
  s <- get_server ;;
  assertion (defined (auth s))
    (mkError (dq ++ "createAuth" ++ dq ++ " got called, but " ++ dq
              ++ "this.auth" ++ dq ++ " is undefined!")) ;;
  match auth s with
  | None => ret tt
  | Some a =>
      let uri := uriTemplate env (ip data) (port data) "admin" in
      call (EConnect uri) (fun tr => env_connect env tr uri) ;;
      let db := "admin" in
      call (ECommand db (root_command a))
           (fun tr => env_command env tr db (root_command a)) ;;
      (if Nat.ltb 0 (length (extraUsers a))
       then
         let sorted := env_sort env compare_users (extraUsers a) in
         modify_server (set_extraUsers sorted) ;;
         createUsers env db 0 sorted
       else ret tt) ;;
      call EClose (env_close env)
  end.

(** ** [_startUpInstance] *)

(** [this.opts.instance ?? {}]. *)
Definition no_instance_opts : MongoMemoryInstanceProp :=
  mkInstOpts None None None None None None None None.

Definition not_restarting_warning : string :=
  "Not Restarting MongoInstance for Auth" ++ nl
  ++ "Storage engine is ephemeralForTest, which does not write data on shutdown, and mongodb does not allow changeing "
  ++ dq ++ "auth" ++ dq ++ " runtime".

(** The [createAuth] constant, computed where the source computes it: from
    the options, [this.auth] and the value [isNew] has at that point. *)
Definition createAuth_flag (s : MongoMemoryServer) (isNew : bool) : bool :=
  let instOpts := default no_instance_opts (opt_instance (opts s)) in
  truthy_bool (io_auth instOpts)
  && defined (auth s)
  && match auth s with
     | Some a => negb (disable a) && (force a || isNew)
     | None => false
     end
  && negb (truthy_string (io_replSet instOpts)).

(** The calls to [log] are left out.  [isNew] is assigned again once the
    data directory is known, as in the source, where nothing reads it after
    that. *)
Definition _startUpInstance (env : Env) : M MongoInstanceData :=
  s <- get_server ;;
  let instOpts := default no_instance_opts (opt_instance (opts s)) in
  let isNew := true in
  let createAuth_ := createAuth_flag s isNew in
  port_ <- call (EGetPort (io_port instOpts))
                (fun tr => env_getPort env tr (io_port instOpts)) ;;
  dbName_ <- call (EGenerateDbName (io_dbName instOpts))
                  (fun tr => Ok (env_generateDbName env tr (io_dbName instOpts))) ;;
  let data :=
    mkData port_ (io_dbPath instOpts) dbName_
           (default "127.0.0.1" (io_ip instOpts))
           (default "ephemeralForTest" (io_storageEngine instOpts))
           (io_replSet instOpts) None in
  r <- (if negb (truthy_string (dbPath data))
        then
          t <- call EDirSync (env_dirSync env) ;;
          ret (mkData (port data) (Some (dir_name t)) (dbName data) (ip data)
                      (storageEngine data) (replSet data) (Some t),
               true)
        else
          files <- call (EReaddir (default "" (dbPath data)))
                        (fun tr => env_readdir env tr (default "" (dbPath data))) ;;
          ret (data, Nat.ltb 0 (length files))) ;;
  let '(data, isNew) := r in
  let mongodOpts :=
    mkMongodOpts
      (mkMongodInst (dbPath data) (ip data) (port data) (storageEngine data)
                    (replSet data) (io_args instOpts)
                    (if createAuth_ then Some false else io_auth instOpts))
      (opt_binary (opts s)) (opt_spawn (opts s)) in
  instance_ <- call (ERun mongodOpts) (fun tr => env_run env tr mongodOpts) ;;
  s' <- get_server ;;
  instance_ <-
    (if defined (auth s') && createAuth_
     then
       createAuth env data ;;
       (if negb (String.eqb (storageEngine data) "ephemeralForTest")
        then
          call (EKill instance_) (fun tr => env_kill env tr instance_) ;;
          let relaunch :=
            mkMongodOpts
              (let i := mo_instance mongodOpts in
               mkMongodInst (mi_dbPath i) (mi_ip i) (mi_port i)
                            (mi_storageEngine i) (mi_replSet i) (mi_args i)
                            (io_auth instOpts))
              (mo_binary mongodOpts) (mo_spawn mongodOpts) in
          call (ERun relaunch) (fun tr => env_run env tr relaunch)
        else
          emit_event (EWarn not_restarting_warning) ;;
          ret instance_)
     else ret instance_) ;;
  ret (mkInfo data instance_).

(** ** [start] *)

Definition already_running : Error :=
  mkError "MongoDB instance already in status startup/running/error. Use debug for more info.".

(** [start] up to its [await]: the guard and the change to [starting]. *)
Definition start_begin : M unit :=
  s <- get_server ;;
  (if defined (_instanceInfo s) then throw already_running else ret tt) ;;
  stateChange starting.

(** [start] from the moment [_startUpInstance] has settled with [r]. *)
Definition start_finish (env : Env) (r : Exn MongoInstanceData) : M bool :=
  match r with
  | Throw err =>
      (if env_debug_enabled env then ret tt
       else emit_event
              (EWarn "Starting the instance failed, enable debug for more infomation")) ;;
      throw err
  | Ok info =>
      modify_server (set_instanceInfo (Some info)) ;;
      stateChange running ;;
      ret true
  end.

(** [start], when nothing else runs while it waits. *)
Definition start (env : Env) : M bool :=
  start_begin ;;
  r <- try (_startUpInstance env) ;;
  start_finish env r.

(** ** [stop] *)

(** What reading [tmpDir] of an undefined [this._instanceInfo] throws. *)
Definition tmpDir_of_undefined : Error :=
  mkError "Cannot read property 'tmpDir' of undefined".

(** [stop] from the moment the kill has settled with [r]: a failed kill is
    thrown on; otherwise [this._instanceInfo] is read again, the temporary
    directory is removed, the data is cleared and the state changes. *)
Definition stop_finish (r : Exn unit) : M bool :=
  match r with
  | Throw err => throw err
  | Ok _ =>
      s <- get_server ;;
      (match _instanceInfo s with
       | Some info =>
           match tmpDir (info_data info) with
           | Some d => emit_event (ERemoveCallback d)
           | None => ret tt
           end
       | None => throw tmpDir_of_undefined
       end) ;;
      modify_server (set_instanceInfo None) ;;
      stateChange stopped ;;
      ret true
  end.

(** [stop], when nothing else runs while it waits.  The assertion on
    [instanceInfo.instance] cannot fail, the field not being optional. *)
Definition stop (env : Env) : M bool :=
  s <- get_server ;;
  match _instanceInfo s with
  | None => ret true
  | Some info =>
      r <- try (call (EKill (instance info))
                     (fun tr => env_kill env tr (instance info))) ;;
      stop_finish r
  end.

(** ** [ensureInstance] *)

Definition running_without_info : Error :=
  mkError ("MongoMemoryServer " ++ dq ++ "_state" ++ dq ++ " is " ++ dq
           ++ "running" ++ dq ++ " but " ++ dq ++ "instanceInfo" ++ dq
           ++ " is undefined!").

Definition failed_to_start : Error :=
  mkError "Ensure-Instance failed to start an instance!".

(** What the caller of [ensureInstance] holds: the data, or the pending
    promise of the [starting] case. *)
Inductive Ensured : Type :=
| Now (info : MongoInstanceData)
| Later (p : nat).

(** [this.once(stateChange, listener)] inside a new promise. *)
Definition wait_for_stateChange : M nat :=
  p <- new_promise ;;
  s <- get_server ;;
  modify_server (set_listeners (listeners s ++ [p])) ;;
  ret p.

(** The check made after [await this.start()]. *)
Definition ensure_finish : M MongoInstanceData :=
  s <- get_server ;;
  match _instanceInfo s with
  | None => throw failed_to_start
  | Some info => ret info
  end.

(** The [default] case of the switch has no state left to match. *)
Definition ensureInstance (env : Env) : M Ensured :=
  s <- get_server ;;
  match _instanceInfo s with
  | Some info => ret (Now info)
  | None =>
      match _state s with
      | running => throw running_without_info
      | starting =>
          p <- wait_for_stateChange ;;
          ret (Later p)
      | new | stopped =>
          start env ;;
          info <- ensure_finish ;;
          ret (Now info)
      end
  end.

(** ** The constructor *)

(** Modelled from the spec: [authDefault] of [util/utils] is not among the
    sources.  The resolved AuthConfig takes the caller's value of each field
    if present, else the default documented on [AutomaticAuth]. *)
Definition authDefault (o : AutomaticAuthOpts) : AutomaticAuth :=
  mkAuth (default false (o_disable o))
         (default [] (o_extraUsers o))
         (default "mongodb-memory-server-root" (o_customRootName o))
         (default "rootuser" (o_customRootPwd o))
         (default false (o_force o)).

Definition no_opts : MongoMemoryServerOpts := mkOpts None None None None.

(** [new MongoMemoryServer(opts)].  [this.opts] is a copy of the options
    object and [this.auth] the resolved AuthConfig; the array of extra users
    is the caller's in both, see [share_extraUsers]. *)
Definition constructor (o : option MongoMemoryServerOpts) : MongoMemoryServer :=
  let opts_ := default no_opts o in
  mkServer None opts_ new
           (match opt_auth opts_ with
            | Some a => Some (authDefault a)
            | None => None
            end)
           [].

Definition initial_world (o : option MongoMemoryServerOpts) : World :=
  mkWorld (constructor o) [] [].

(** The outcome of a program, and the world it leaves. *)
Definition outcome {A} (m : M A) (w : World) : Exn A := fst (m w).
Definition after {A} (m : M A) (w : World) : World := snd (m w).

(** ** The host's [Array.prototype.sort]

    The comparator of [createAuth] is not a consistent one, so the result of
    the sort is the engine's.  This is V8's procedure for an array that fits
    one run (fewer than 64 elements): count the run at the front, reverse it
    when it descends, then insert each later element at the place a binary
    search finds.  The merging of several runs is not modelled; a longer
    array is sorted by the same procedure. *)
Section ArraySort.
Context {A : Type} (comparefn : A -> A -> Z).

(** Elements after the first two that continue the run. *)
Fixpoint run_tail (descending : bool) (previous : A) (l : list A) : nat :=
  match l with
  | [] => 0%nat
  | current :: l' =>
      let order := comparefn current previous in
      if descending
      then (if Z.leb 0 order then 0%nat else S (run_tail descending current l'))
      else (if Z.ltb order 0 then 0%nat else S (run_tail descending current l'))
  end.

(** The length of the run at the front and the array once that run
    ascends. *)
Definition countAndMakeRun (l : list A) : nat * list A :=
  match l with
  | [] => (0%nat, l)
  | [_] => (1%nat, l)
  | low :: high :: rest =>
      let descending := Z.ltb (comparefn high low) 0 in
      let n := (2 + run_tail descending high rest)%nat in
      (n, if descending then (rev (take n l) ++ drop n l)%list else l)
  end.

(** Where [pivot] belongs in the sorted prefix [work]. *)
Fixpoint find_insertion (fuel : nat) (pivot : A) (work : list A)
    (left right : nat) : nat :=
  match fuel with
  | O => left
  | S fuel' =>
      if Nat.ltb left right
      then
        let mid := (left + Nat.div2 (right - left))%nat in
        match work !! mid with
        | Some m =>
            if Z.ltb (comparefn pivot m) 0
            then find_insertion fuel' pivot work left mid
            else find_insertion fuel' pivot work (S mid) right
        | None => left
        end
      else left
  end.

Fixpoint binaryInsertionSort (work rest : list A) : list A :=
  match rest with
  | [] => work
  | pivot :: rest' =>
      let left := find_insertion (S (length work)) pivot work 0 (length work) in
      binaryInsertionSort (take left work ++ pivot :: drop left work) rest'
  end.

Definition array_sort (l : list A) : list A :=
  if Nat.ltb (length l) 2 then l
  else
    let '(n, l') := countAndMakeRun l in
    binaryInsertionSort (take n l') (drop n l').
End ArraySort.

(** ** Interleaving of concurrent callers

    The methods run on one thread and yield only at an [await].  A caller of
    [start] runs [start_begin] and then waits for [_startUpInstance]; when
    that settles, [start_finish] runs.  A caller of [ensureInstance] either
    returns, or becomes a waiter, or goes through [start] in the same way.
    A caller of [stop] returns at once or asks for the kill and waits; when
    the kill settles, [stop_finish] runs.  A configuration holds the world,
    the executions of the startup protocol that have begun and not yet
    settled, and the number of kills asked by [stop] and not yet settled.
    What settles settles with any outcome, in any order. *)

(** An execution of the startup protocol in flight: begun by a caller of
    [start], or by a caller of [ensureInstance] who holds the promise [p]. *)
Inductive Task : Type :=
| StartTask
| EnsureTask (p : nat).

Record Config : Type := mkConfig {
  world : World;
  in_flight : list Task;
  stopping : nat
}.

(** What may happen next: a new call, the [k]-th execution in flight
    settling with [r], or a kill asked by [stop] settling with [r]. *)
Inductive Action : Type :=
| CallStart
| CallEnsure
| CallStop
| Settles (k : nat) (r : Exn MongoInstanceData)
| KillSettles (r : Exn unit).

(** [ensureInstance] reaches [await this.start()]. *)
Definition goes_through_start (s : MongoMemoryServer) : bool :=
  negb (defined (_instanceInfo s))
  && (state_eqb (_state s) new || state_eqb (_state s) stopped).

Definition as_settled (r : Exn MongoInstanceData) : Settled :=
  match r with
  | Ok info => Fulfilled (Some info)
  | Throw e => Rejected e
  end.

(** One segment of one caller, run to its next [await] or to its end. *)
Definition step (env : Env) (a : Action) (c : Config) : Config :=
  match a with
  | CallStart =>
      match start_begin (world c) with
      | (Ok _, w') => mkConfig w' (in_flight c ++ [StartTask]) (stopping c)
      | (Throw _, w') => mkConfig w' (in_flight c) (stopping c)
      end
  | CallEnsure =>
      if goes_through_start (server (world c))
      then
        match (p <- new_promise ;; start_begin ;; ret p) (world c) with
        | (Ok p, w') => mkConfig w' (in_flight c ++ [EnsureTask p]) (stopping c)
        | (Throw _, w') => mkConfig w' (in_flight c) (stopping c)
        end
      else mkConfig (after (ensureInstance env) (world c)) (in_flight c) (stopping c)
  | CallStop =>
      match _instanceInfo (server (world c)) with
      | None => c
      | Some info =>
          mkConfig (after (emit_event (EKill (instance info))) (world c))
                   (in_flight c) (S (stopping c))
      end
  | Settles k r =>
      match in_flight c !! k with
      | None => c
      | Some StartTask =>
          mkConfig (after (start_finish env r) (world c))
                   (delete k (in_flight c)) (stopping c)
      | Some (EnsureTask p) =>
          mkConfig
            (after (r' <- try (start_finish env r ;; ensure_finish) ;;
                    settle p (as_settled r'))
                   (world c))
            (delete k (in_flight c)) (stopping c)
      end
  | KillSettles r =>
      match stopping c with
      | O => c
      | S n => mkConfig (after (stop_finish r) (world c)) (in_flight c) n
      end
  end.

(** The configuration after the actions of [schedule], in order. *)
Definition run (env : Env) (schedule : list Action) (c : Config) : Config :=
  foldl (fun c a => step env a c) c schedule.

Definition initial_config (o : option MongoMemoryServerOpts) : Config :=
  mkConfig (initial_world o) [] 0.

(** Every direct call of [start] in the schedule, run from [c], is made
    while no execution of the startup protocol is in flight. *)
Fixpoint starts_when_idle (env : Env) (schedule : list Action) (c : Config)
  : bool :=
  match schedule with
  | [] => true
  | a :: schedule' =>
      match a, in_flight c with
      | CallStart, _ :: _ => false
      | _, _ => starts_when_idle env schedule' (step env a c)
      end
  end.

(** At most one execution of the startup protocol is in flight, and while
    one is, the state is [starting] and there is no RunningInstanceData. *)
Definition serialized (c : Config) : Prop :=
  (length (in_flight c) <= 1)%nat
  /\ (in_flight c <> [] ->
      _instanceInfo (server (world c)) = None
      /\ _state (server (world c)) = starting).

(** ** What the specification words *)

(** A user targets the administrative database when its database is
    ['admin'] or unset. *)
Definition targets_admin (user : CreateUser) : bool :=
  String.eqb (default "admin" (database user)) "admin".

(** Stable: the users targeting ['admin'] first, each group in its original
    order. *)
Definition admin_first (l : list CreateUser) : list CreateUser :=
  (List.filter targets_admin l ++ List.filter (fun u => negb (targets_admin u)) l)%list.

(** The freshness the specification words: a new temporary directory, or a
    given directory whose listing is empty. *)
Definition fresh_directory (given : option string) (files : list string) : bool :=
  if truthy_string given then Nat.eqb (length files) 0 else true.

(** The reading of "at most one execution of the startup protocol is in
    flight at any time, for all interleavings". *)
Definition at_most_one_in_flight (env : Env) (c : Config) : Prop :=
  forall schedule, (length (in_flight (run env schedule c)) <= 1)%nat.

(** ** Reading a trace *)

Definition is_run (e : Event) : bool :=
  match e with
  | ERun _ => true
  | _ => false
  end.

(** A call that [_startUpInstance] makes before it launches anything. *)
Definition is_preparation (e : Event) : bool :=
  match e with
  | EGetPort _ | EGenerateDbName _ | EDirSync | EReaddir _ => true
  | _ => false
  end.

Definition is_connect (e : Event) : bool :=
  match e with
  | EConnect _ => true
  | _ => false
  end.

Definition is_close (e : Event) : bool :=
  match e with
  | EClose => true
  | _ => false
  end.

Definition is_command (e : Event) : bool :=
  match e with
  | ECommand _ _ => true
  | _ => false
  end.

Definition is_release (e : Event) : bool :=
  match e with
  | ERemoveCallback _ => true
  | _ => false
  end.

(** The [createUser] commands of a trace, in order: database and document. *)
Fixpoint commands (tr : list Event) : list (string * CreateUserMongoDB) :=
  match tr with
  | [] => []
  | ECommand db doc :: tr' => (db, doc) :: commands tr'
  | _ :: tr' => commands tr'
  end.

(** The user names of the [createUser] commands of a trace, in order. *)
Definition created (tr : list Event) : list string :=
  map (fun c => createUser (snd c)) (commands tr).

(** The bootstrap ran: a connection was opened. *)
Definition bootstrapped (tr : list Event) : bool := existsb is_connect tr.

Definition count_released (tr : list Event) : nat :=
  length (List.filter is_release tr).

(** The events of [stop] that release the temporary directory. *)
Definition released (info : MongoInstanceData) : list Event :=
  match tmpDir (info_data info) with
  | Some d => [ERemoveCallback d]
  | None => []
  end.

(** ** Replaying the answers of the host *)

Definition is_ok {A} (r : Exn A) : bool :=
  match r with
  | Ok _ => true
  | Throw _ => false
  end.

(** The host answered the call [e], made after the trace [tr], without
    throwing. *)
Definition ok_call (env : Env) (tr : list Event) (e : Event) : bool :=
  match e with
  | EGetPort preferred => is_ok (env_getPort env tr preferred)
  | EDirSync => is_ok (env_dirSync env tr)
  | EReaddir path => is_ok (env_readdir env tr path)
  | ERun o => is_ok (env_run env tr o)
  | EKill i => is_ok (env_kill env tr i)
  | EConnect uri => is_ok (env_connect env tr uri)
  | ECommand db doc => is_ok (env_command env tr db doc)
  | EClose => is_ok (env_close env tr)
  | EGenerateDbName _ | ERemoveCallback _ | EEmit _ | EWarn _ => true
  end.

(** Every call of [evs], made in this order after [tr], was answered
    without throwing. *)
Fixpoint answered_ok (env : Env) (tr evs : list Event) : bool :=
  match evs with
  | [] => true
  | e :: evs' => ok_call env tr e && answered_ok env (tr ++ [e]) evs'
  end.

Definition error_of {A} (r : Exn A) : option Error :=
  match r with
  | Ok _ => None
  | Throw e => Some e
  end.

(** The error the host throws at the call [e], made after the trace [tr];
    none when it answers. *)
Definition thrown_by (env : Env) (tr : list Event) (e : Event) : option Error :=
  match e with
  | EGetPort preferred => error_of (env_getPort env tr preferred)
  | EDirSync => error_of (env_dirSync env tr)
  | EReaddir path => error_of (env_readdir env tr path)
  | ERun o => error_of (env_run env tr o)
  | EKill i => error_of (env_kill env tr i)
  | EConnect uri => error_of (env_connect env tr uri)
  | ECommand db doc => error_of (env_command env tr db doc)
  | EClose => error_of (env_close env tr)
  | EGenerateDbName _ | ERemoveCallback _ | EEmit _ | EWarn _ => None
  end.

(** ** What the notifications and [createAuth] come to *)

(** The promise cells once the listener of [p] has run. *)
Definition waiter_cells (state : MongoMemoryServerStateEnum)
    (info : option MongoInstanceData) (p : nat) (cells : list Cell) : list Cell :=
  settle_cell p (Fulfilled info)
    (if negb (state_eqb state running)
     then settle_cell p (Rejected (unexpected_state state)) cells
     else cells).

(** The promise cells once every listener of [ls] has run. *)
Fixpoint fire_cells (state : MongoMemoryServerStateEnum)
    (info : option MongoInstanceData) (ls : list nat) (cells : list Cell) : list Cell :=
  match ls with
  | [] => cells
  | p :: ls' => fire_cells state info ls' (waiter_cells state info p cells)
  end.

(** What a one-shot waiter is settled with by a notification. *)
Definition notified (state : MongoMemoryServerStateEnum)
    (info : option MongoInstanceData) : Settled :=
  if state_eqb state running then Fulfilled info
  else Rejected (unexpected_state state).

(** [extraUsers] once the loop of [createAuth] has reached the first [k]
    users of the sorted array. *)
Definition reached (k : nat) (sorted : list CreateUser) : list CreateUser :=
  (with_default_database <$> take k sorted) ++ drop k sorted.

(** The extra users for whom a run of [createAuth] that made the calls
    [evs] issued a command: every command but the root user's. *)
Definition reached_users (evs : list Event) : nat :=
  (length (commands evs) - 1)%nat.

(** The run of [createAuth] that made the calls [evs] has sorted the array:
    extra users are given and the run went on after the connect and the
    root user's command. *)
Definition sort_ran (a : AutomaticAuth) (evs : list Event) : bool :=
  Nat.ltb 0 (length (extraUsers a)) && Nat.ltb 2 (length evs).

(** The command issued for one extra user: in its database, ['admin'] when
    unset. *)
Definition user_event (user : CreateUser) : Event :=
  ECommand (default "admin" (database user))
           (user_command (with_default_database user)).

(** The extra users the loop of [createAuth] goes over: the sorted array
    when extra users are given. *)
Definition loop_users (env : Env) (a : AutomaticAuth) : list CreateUser :=
  if Nat.ltb 0 (length (extraUsers a))
  then env_sort env compare_users (extraUsers a)
  else [].

(** Every call of a run of [createAuth] in which nothing throws. *)
Definition bootstrap_calls (env : Env) (data : StartupInstanceData)
    (a : AutomaticAuth) : list Event :=
  EConnect (uriTemplate env (ip data) (port data) "admin")
  :: ECommand "admin" (root_command a)
  :: (user_event <$> loop_users env a) ++ [EClose].

(** The same launch options with another [auth]. *)
Definition with_auth (au : option bool) (o : MongodOpts) : MongodOpts :=
  let i := mo_instance o in
  mkMongodOpts
    (mkMongodInst (mi_dbPath i) (mi_ip i) (mi_port i) (mi_storageEngine i)
                  (mi_replSet i) (mi_args i) au)
    (mo_binary o) (mo_spawn o).

(** The storage engine keeps what was written when the process ends. *)
Definition persistent (engine : string) : bool :=
  negb (String.eqb engine "ephemeralForTest").

(** The user is in ['admin'] as the comparator sees it: the database is
    written out as ['admin']. *)
Definition literal_admin (user : CreateUser) : bool :=
  bool_decide (database user = Some "admin").

(** The order V8 gives the extra users with the comparator of [createAuth]:
    the users written as ['admin'] in the reverse of their given order, then
    all the others in their given order. *)
Definition sorted_by_v8 (l : list CreateUser) : list CreateUser :=
  rev (List.filter literal_admin l)
  ++ List.filter (fun u => negb (literal_admin u)) l.

(** ** Sample hosts *)

(** [files] is what [readdir] lists for a data directory. *)
Definition healthy_host (files : list string) : Env :=
  mkEnv (fun _ preferred => Ok (default 27017 preferred))
        (fun _ given => default "6f1d" given)
        (fun _ => Ok (mkDir "/tmp/mongo-mem-1"))
        (fun _ _ => Ok files)
        (fun tr _ => Ok (mkInstance (S (length (filter (fun e => is_run e = true) tr)))))
        (fun _ _ => Ok tt)
        (fun _ _ => Ok tt)
        (fun _ _ _ => Ok tt)
        (fun _ => Ok tt)
        array_sort
        false
        (fun host port_ db =>
           ("mongodb://" ++ host ++ ":" ++ pretty port_ ++ "/" ++ db)%string).

(** The same host, except that the command creating user [name] fails. *)
Definition rejecting_host (name : string) : Env :=
  let h := healthy_host [] in
  mkEnv (env_getPort h) (env_generateDbName h) (env_dirSync h) (env_readdir h)
        (env_run h) (env_kill h) (env_connect h)
        (fun _ _ doc =>
           if String.eqb (createUser doc) name
           then Throw (mkError "command createUser failed")
           else Ok tt)
        (env_close h) (env_sort h) (env_debug_enabled h) (uriTemplate h).

(** The healthy host, except that killing an instance fails. *)
Definition unkillable_host : Env :=
  let h := healthy_host [] in
  mkEnv (env_getPort h) (env_generateDbName h) (env_dirSync h) (env_readdir h)
        (env_run h)
        (fun _ _ => Throw (mkError "kill failed"))
        (env_connect h) (env_command h) (env_close h) (env_sort h)
        (env_debug_enabled h) (uriTemplate h).

Definition boom : Error := mkError "spawn mongod ENOENT".

(** ** Sample worlds and options *)

Definition sample_dir : DirResult := mkDir "/tmp/mongo-mem-1".

Definition sample_data (t : option DirResult) : StartupInstanceData :=
  mkData 27017 (Some "/tmp/mongo-mem-1") "6f1d" "127.0.0.1" "ephemeralForTest"
         None t.

(** An instance running on a temporary directory. *)
Definition sample_info : MongoInstanceData :=
  mkInfo (sample_data (Some sample_dir)) (mkInstance 1).

Definition running_world : World :=
  mkWorld (mkServer (Some sample_info) no_opts running None [])
          [EEmit starting; EEmit running] [].

(** A startup is under way and nobody waits yet. *)
Definition starting_world : World :=
  mkWorld (mkServer None no_opts starting None []) [EEmit starting] [].

(** A startup is under way and promise 0 waits for its notification. *)
Definition waiting_world : World :=
  mkWorld (mkServer None no_opts starting None [0%nat]) [EEmit starting] [None].

(** The state says [running] and the data is missing. *)
Definition inconsistent_world : World :=
  mkWorld (mkServer None no_opts running None []) [] [].

Definition plain_user (name : string) (db : option string) : CreateUser :=
  mkUser (mkDoc name "pw" None [RoleName "readWrite"] None None None) db.

Definition user_names (l : list CreateUser) : list string :=
  map (fun u => createUser (user_doc u)) l.

(** Authentication wanted, a persistent engine, and the caller's own data
    directory; no replica set, bootstrap not forced. *)
Definition own_directory_opts (a : AutomaticAuthOpts) : MongoMemoryServerOpts :=
  mkOpts (Some (mkInstOpts None None None (Some "wiredTiger") None
                           (Some "/data/db") None (Some true)))
         None None (Some a).

Definition default_auth_opts : AutomaticAuthOpts :=
  mkAuthOpts None None None None None.

(** What [readdir] lists for a directory that already holds a database. *)
Definition populated : list string := ["WiredTiger.wt"; "mongod.lock"].

(** An extra user with no database, then one in ['admin']. *)
Definition unset_then_admin : list CreateUser :=
  [plain_user "u" None; plain_user "a" (Some "admin")].

(** An extra user in ['test'], then one with no database. *)
Definition test_then_unset : list CreateUser :=
  [plain_user "x" (Some "test"); plain_user "u" None].

Definition extra_users_opts (users : list CreateUser) : AutomaticAuthOpts :=
  mkAuthOpts None (Some users) None None None.

Definition secret_password_opts : AutomaticAuthOpts :=
  mkAuthOpts None None None (Some "secret") None.

Definition auth_world (a : AutomaticAuthOpts) : World :=
  initial_world (Some (mkOpts None None None (Some a))).

(** ** [getUri] *)

(** The argument of [getUri] when given: a name, or a boolean that asks for
    a generated name. *)
Inductive OtherDbName : Type :=
| NameGiven (name : string)
| NameWanted (b : bool).

Definition instanceInfo_undefined : Error :=
  mkError (dq ++ "instanceInfo" ++ dq ++ " is undefined").

(** [assertionInstanceInfo(val)]. *)
Definition assertionInstanceInfo (val : option MongoInstanceData) : M unit :=
  assertion (defined val) instanceInfo_undefined.

(** [getUri(otherDbName)]; [generateDbName()] is a call to the host.  After
    the assertion the data is there. *)
Definition getUri (env : Env) (otherDbName : option OtherDbName) : M string :=
  s <- get_server ;;
  assertionInstanceInfo (_instanceInfo s) ;;
  match _instanceInfo s with
  | None => throw instanceInfo_undefined
  | Some info =>
      dbName_ <-
        (match otherDbName with
         | None => ret (dbName (info_data info))
         | Some (NameGiven name) => ret name
         | Some (NameWanted _) =>
             call (EGenerateDbName None)
                  (fun tr => Ok (env_generateDbName env tr None))
         end) ;;
      ret (uriTemplate env (ip (info_data info)) (port (info_data info)) dbName_)
  end.

(** ** [create] *)

(** [MongoMemoryServer.create(opts)]: a new object for [{ ...opts }],
    started; the object is returned when [start] returns. *)
Definition create (env : Env) (o : option MongoMemoryServerOpts)
  : Exn MongoMemoryServer * World :=
  let '(r, w) := start env (initial_world (Some (default no_opts o))) in
  (match r with
   | Ok _ => Ok (server w)
   | Throw e => Throw e
   end, w).

(** ** Methods called one after another *)

Inductive Method : Type :=
| DoStart
| DoStop
| DoEnsureInstance
| DoGetUri (otherDbName : option OtherDbName).

(** The world once the method has returned or thrown. *)
Definition perform (env : Env) (m : Method) (w : World) : World :=
  match m with
  | DoStart => after (start env) w
  | DoStop => after (stop env) w
  | DoEnsureInstance => after (ensureInstance env) w
  | DoGetUri o => after (getUri env o) w
  end.

Definition perform_all (env : Env) (ms : list Method) (w : World) : World :=
  foldl (fun w m => perform env m w) w ms.

(** ** More readings of a trace and of the object *)

(** The states notified by a trace, in order. *)
Fixpoint notifications (tr : list Event) : list MongoMemoryServerStateEnum :=
  match tr with
  | [] => []
  | EEmit s :: tr' => s :: notifications tr'
  | _ :: tr' => notifications tr'
  end.

(** The temporary directories removed by a trace, in order. *)
Fixpoint removed (tr : list Event) : list DirResult :=
  match tr with
  | [] => []
  | ERemoveCallback d :: tr' => d :: removed tr'
  | _ :: tr' => removed tr'
  end.

(** The options of the launches of a trace, in order. *)
Fixpoint launches (tr : list Event) : list MongodOpts :=
  match tr with
  | [] => []
  | ERun o :: tr' => o :: launches tr'
  | _ :: tr' => launches tr'
  end.

(** The instances a trace asks to kill, in order. *)
Fixpoint kills (tr : list Event) : list MongoInstance :=
  match tr with
  | [] => []
  | EKill i :: tr' => i :: kills tr'
  | _ :: tr' => kills tr'
  end.

(** The event is a call of the bootstrap: the connect, a command, or the
    close. *)
Definition is_bootstrap_call (e : Event) : bool :=
  is_connect e || is_command e || is_close e.

(** The event is a notification or the removal of a temporary directory. *)
Definition touches_lifecycle (e : Event) : bool :=
  match e with
  | EEmit _ | ERemoveCallback _ => true
  | _ => false
  end.

(** The RunningInstanceData is there exactly in state [running]. *)
Definition consistent (s : MongoMemoryServer) : Prop :=
  defined (_instanceInfo s) = state_eqb (_state s) running.

(** From [w] to [w'] the promises are untouched, of the object at most the
    array of extra users was written, and the trace grew by events that are
    neither notifications nor removals. *)
Definition framed (w w' : World) : Prop :=
  promises w' = promises w
  /\ (server w' = server w
      \/ exists users', server w' = set_extraUsers users' (server w))
  /\ exists evs,
       trace w' = trace w ++ evs
       /\ Forall (fun e => touches_lifecycle e = false) evs.

(** The calls [_startUpInstance] makes before it launches anything: the
    port, the database name, and the listing of the given data directory or
    a new temporary directory. *)
Definition preparation (instOpts : MongoMemoryInstanceProp) : list Event :=
  [EGetPort (io_port instOpts);
   EGenerateDbName (io_dbName instOpts);
   if truthy_string (io_dbPath instOpts)
   then EReaddir (default "" (io_dbPath instOpts))
   else EDirSync].

(** The options of the first launch of an attempt that goes on with [data]. *)
Definition first_launch (s : MongoMemoryServer) (data : StartupInstanceData)
  : MongodOpts :=
  let instOpts := default no_instance_opts (opt_instance (opts s)) in
  mkMongodOpts
    (mkMongodInst (dbPath data) (ip data) (port data) (storageEngine data)
                  (replSet data) (io_args instOpts)
                  (if createAuth_flag s true then Some false else io_auth instOpts))
    (opt_binary (opts s)) (opt_spawn (opts s)).

(** What an attempt does after the first launch returned [i1], when nothing
    throws. *)
Definition after_first_launch (env : Env) (s : MongoMemoryServer)
    (data : StartupInstanceData) (i1 : MongoInstance) : list Event :=
  let instOpts := default no_instance_opts (opt_instance (opts s)) in
  match auth s with
  | Some a =>
      if createAuth_flag s true
      then
        bootstrap_calls env data a
        ++ (if persistent (storageEngine data)
            then [EKill i1; ERun (with_auth (io_auth instOpts) (first_launch s data))]
            else [EWarn not_restarting_warning])
      else []
  | None => []
  end.

(** The program changes the world within [framed], whatever it returns or
    throws. *)
Definition frames {A} (m : M A) : Prop :=
  forall w r w', m w = (r, w') -> framed w w'.

(** The warning of [start] when the startup failed. *)
Definition start_failed_warning : Event :=
  EWarn "Starting the instance failed, enable debug for more infomation".

(** ** More sample hosts *)

(** The healthy host, except that no instance can be launched. *)
Definition failing_launch_host : Env :=
  let h := healthy_host [] in
  mkEnv (env_getPort h) (env_generateDbName h) (env_dirSync h) (env_readdir h)
        (fun _ _ => Throw boom)
        (env_kill h) (env_connect h) (env_command h) (env_close h) (env_sort h)
        (env_debug_enabled h) (uriTemplate h).

(** The healthy host, except that the preferred port is taken and another
    one is handed out. *)
Definition busy_port_host : Env :=
  let h := healthy_host [] in
  mkEnv (fun _ _ => Ok 40123)
        (env_generateDbName h) (env_dirSync h) (env_readdir h)
        (env_run h) (env_kill h) (env_connect h) (env_command h) (env_close h)
        (env_sort h) (env_debug_enabled h) (uriTemplate h).

(** Options that ask for port 27017 and nothing else. *)
Definition preferred_port_opts : MongoMemoryServerOpts :=
  mkOpts (Some (mkInstOpts (Some 27017) None None None None None None None))
         None None None.

(** * Properties *)

(** ** The monad *)

Lemma bind_Ok {A B} (m : M A) (k : A -> M B) w a w1 :
  m w = (Ok a, w1) -> bind m k w = k a w1.
Proof. intros H. unfold bind. now rewrite H. Qed.

Lemma bind_Throw {A B} (m : M A) (k : A -> M B) w e w1 :
  m w = (Throw e, w1) -> bind m k w = (Throw e, w1).
Proof. intros H. unfold bind. now rewrite H. Qed.

Lemma bind_inv {A B} (m : M A) (k : A -> M B) w r w' :
  bind m k w = (r, w') ->
  (exists a w1, m w = (Ok a, w1) /\ k a w1 = (r, w'))
  \/ (exists e, m w = (Throw e, w') /\ r = Throw e).
Proof.
  unfold bind. destruct (m w) as [[a | e] w1]; intros H.
  - left. now exists a, w1.
  - right. exists e. now inversion H.
Qed.

(** ** Notifications *)

Lemma fire_eq state ls w :
  fire state ls w
  = (Ok tt, mkWorld (server w) (trace w)
                    (fire_cells state (_instanceInfo (server w)) ls (promises w))).
Proof.
  revert w. induction ls as [| p ls IH]; intros [s tr cells]; [reflexivity |].
  cbn [fire fire_cells]. unfold bind, waiter, bind, get_server, settle, ret, waiter_cells.
  destruct (state_eqb state running); cbn; rewrite IH; reflexivity.
Qed.

Lemma stateChange_eq state w :
  stateChange state w
  = (Ok tt,
     mkWorld (set_listeners [] (set_state state (server w)))
             (trace w ++ [EEmit state])
             (fire_cells state (_instanceInfo (server w)) (listeners (server w))
                         (promises w))).
Proof.
  unfold stateChange, emit, bind, modify_server, get_server, emit_event.
  cbn. rewrite fire_eq. reflexivity.
Qed.

Lemma settle_cell_pending p x cells :
  cells !! p = Some None -> settle_cell p x cells !! p = Some (Some x).
Proof.
  intros H. unfold settle_cell. rewrite H.
  apply list_lookup_insert_eq. now apply lookup_lt_Some in H.
Qed.

Lemma settle_cell_settled p q x y cells :
  cells !! q = Some (Some y) -> settle_cell p x cells !! q = Some (Some y).
Proof.
  intros H. unfold settle_cell.
  destruct (cells !! p) as [[?|]|] eqn:E; auto.
  destruct (decide (p = q)) as [-> | Hne]; [congruence |].
  now rewrite list_lookup_insert_ne.
Qed.

Lemma settle_cell_other p q x cells :
  p <> q -> settle_cell p x cells !! q = cells !! q.
Proof.
  intros Hne. unfold settle_cell.
  destruct (cells !! p) as [[?|]|]; auto.
  now rewrite list_lookup_insert_ne.
Qed.

Lemma waiter_cells_pending state info p cells :
  cells !! p = Some None ->
  waiter_cells state info p cells !! p = Some (Some (notified state info)).
Proof.
  intros H. unfold waiter_cells, notified.
  destruct (state_eqb state running); cbn.
  - now apply settle_cell_pending.
  - apply settle_cell_settled. now apply settle_cell_pending.
Qed.

Lemma waiter_cells_settled state info p q y cells :
  cells !! q = Some (Some y) ->
  waiter_cells state info p cells !! q = Some (Some y).
Proof.
  intros H. unfold waiter_cells.
  destruct (negb (state_eqb state running));
    repeat apply settle_cell_settled; assumption.
Qed.

Lemma waiter_cells_other state info p q cells :
  p <> q -> waiter_cells state info p cells !! q = cells !! q.
Proof.
  intros Hne. unfold waiter_cells.
  destruct (negb (state_eqb state running));
    rewrite ?settle_cell_other by assumption; reflexivity.
Qed.

Lemma fire_cells_settled state info ls q y cells :
  cells !! q = Some (Some y) ->
  fire_cells state info ls cells !! q = Some (Some y).
Proof.
  revert cells. induction ls as [| p ls IH]; intros cells H; [exact H |].
  cbn. apply IH. now apply waiter_cells_settled.
Qed.

(** A registered waiter whose promise is pending is settled by the next
    notification, by what that notification reports. *)
Lemma fire_cells_pending state info ls p cells :
  In p ls -> cells !! p = Some None ->
  fire_cells state info ls cells !! p = Some (Some (notified state info)).
Proof.
  revert cells. induction ls as [| q ls IH]; intros cells Hin H; [inversion Hin |].
  cbn. destruct (decide (q = p)) as [-> | Hne].
  - apply fire_cells_settled. now apply waiter_cells_pending.
  - destruct Hin as [-> | Hin]; [congruence |].
    apply IH; [assumption |]. now rewrite waiter_cells_other.
Qed.

Lemma call_inv {A} e (answer : list Event -> Exn A) w r w' :
  call e answer w = (r, w') ->
  r = answer (trace w)
  /\ w' = mkWorld (server w) (trace w ++ [e]) (promises w).
Proof. unfold call. intros H. now inversion H. Qed.

(** [H : (x <- m ;; k) w = (r, _)] where [r] is a value or [m] cannot
    throw: name the value and the world that [m] returned, and go on with
    [k]. *)
Ltac bind_ok H x w1 Hm :=
  apply bind_inv in H as [(x & w1 & Hm & H) | (? & Hm & ?)];
  [| first [ discriminate
           | cbv [modify_server get_server ret emit_event] in Hm; discriminate ]].

(** [H : (x <- m ;; k) w = (r, _)]: either [m] returned, or it threw and so
    did the whole. *)
Ltac bind_cases H x w1 Hm e :=
  apply bind_inv in H as [(x & w1 & Hm & H) | (e & Hm & ->)].

Lemma answered_ok_app env tr evs1 evs2 :
  answered_ok env tr (evs1 ++ evs2)
  = answered_ok env tr evs1 && answered_ok env (tr ++ evs1) evs2.
Proof.
  revert tr. induction evs1 as [| e evs1 IH]; intros tr; cbn.
  - now rewrite app_nil_r.
  - rewrite IH, <- app_assoc, andb_assoc. reflexivity.
Qed.

(** ** [start] *)

Lemma start_begin_fresh w :
  _instanceInfo (server w) = None ->
  start_begin w = stateChange starting w.
Proof.
  intros H. unfold start_begin, bind, get_server. rewrite H. reflexivity.
Qed.

Lemma start_finish_Ok env info w :
  start_finish env (Ok info) w
  = (Ok true,
     mkWorld (set_listeners [] (set_state running (set_instanceInfo (Some info) (server w))))
             (trace w ++ [EEmit running])
             (fire_cells running (Some info) (listeners (server w)) (promises w))).
Proof.
  unfold start_finish, bind, modify_server. rewrite stateChange_eq. reflexivity.
Qed.

Lemma start_finish_Throw env e w :
  exists w', start_finish env (Throw e) w = (Throw e, w')
             /\ server w' = server w /\ promises w' = promises w.
Proof.
  unfold start_finish, bind, emit_event, throw, ret.
  destruct (env_debug_enabled env); eexists; split; reflexivity || (split; reflexivity).
Qed.

(** A successful [start] leaves the data of the started instance in place. *)
Lemma start_Ok_has_info env w b w' :
  start env w = (Ok b, w') -> exists info, _instanceInfo (server w') = Some info.
Proof.
  unfold start. intros H.
  apply bind_inv in H as [(? & w1 & _ & H) | (? & _ & ?)]; [| discriminate].
  apply bind_inv in H as [(r & w2 & _ & H) | (? & _ & ?)]; [| discriminate].
  destruct r as [info | e].
  - rewrite start_finish_Ok in H. inversion H. now exists info.
  - destruct (start_finish_Throw env e w2) as (w3 & E & _). congruence.
Qed.

(** C6: when RunningInstanceData is present, [start] fails at once with the
    double-start error and leaves the world as it was: the lifecycle state,
    the RunningInstanceData, the listeners and the promises are untouched and
    no notification is emitted. *)
Theorem start_rejects_double_start (env : Env) (w : World) (info : MongoInstanceData) :
  _instanceInfo (server w) = Some info ->
  start env w = (Throw already_running, w).
Proof.
  intros H. unfold start, start_begin, bind, get_server. rewrite H. reflexivity.
Qed.

Lemma start_rejects_double_start_witness :
  start (healthy_host []) running_world = (Throw already_running, running_world).
Proof.
  apply (start_rejects_double_start (healthy_host []) running_world sample_info).
  reflexivity.
Defined.

(** ** [stop] *)

Lemma count_released_app tr1 tr2 :
  count_released (tr1 ++ tr2) = (count_released tr1 + count_released tr2)%nat.
Proof. unfold count_released. now rewrite List.filter_app, length_app. Qed.

Lemma count_released_released info :
  count_released (released info) = length (released info).
Proof. unfold released. now destruct (tmpDir (info_data info)). Qed.

(** C5: [stop] without RunningInstanceData returns true and changes nothing.
    Otherwise it kills the instance first; a failed kill is thrown on and
    nothing else is done.  After the kill it releases the temporary
    directory if there is one, clears RunningInstanceData, and only then
    changes the state to [stopped] and notifies.  A second [stop] right
    after changes nothing, so over both calls the directory is released
    once. *)
Theorem stop_teardown (env : Env) (w : World) :
  (_instanceInfo (server w) = None -> stop env w = (Ok true, w))
  /\ (forall info, _instanceInfo (server w) = Some info ->
        (forall e, env_kill env (trace w) (instance info) = Throw e ->
           stop env w
           = (Throw e,
              mkWorld (server w) (trace w ++ [EKill (instance info)]) (promises w)))
        /\ (env_kill env (trace w) (instance info) = Ok tt ->
            let cleared :=
              mkWorld (set_instanceInfo None (server w))
                      (trace w ++ [EKill (instance info)] ++ released info)
                      (promises w) in
            let w' := after (stop env) w in
            stop env w = (Ok true, after (stateChange stopped) cleared)
            /\ trace w'
               = trace w ++ [EKill (instance info)] ++ released info ++ [EEmit stopped]
            /\ _instanceInfo (server w') = None
            /\ _state (server w') = stopped
            /\ stop env w' = (Ok true, w')
            /\ count_released (trace (after (stop env) w'))
               = (count_released (trace w) + length (released info))%nat)).
Proof.
  split.
  - intros H. unfold stop, bind, get_server. rewrite H. reflexivity.
  - intros info H. split.
    + intros e Hk. unfold stop, bind, get_server, try, call.
      rewrite H, Hk. reflexivity.
    + intros Hk cleared w'.
      assert (E : stop env w = (Ok true, after (stateChange stopped) cleared)).
      { unfold stop, bind, get_server, try, call. rewrite H, Hk.
        unfold stop_finish, bind, get_server.
        cbn -[stateChange]. rewrite H.
        unfold after, cleared, released, emit_event, ret, modify_server.
        destruct (tmpDir (info_data info)); cbn -[stateChange];
          rewrite !stateChange_eq; cbn; rewrite <- ?app_assoc; reflexivity. }
      assert (Ew : w' = after (stateChange stopped) cleared).
      { unfold w', after at 1. now rewrite E. }
      assert (Ei : _instanceInfo (server w') = None).
      { rewrite Ew. unfold after. rewrite stateChange_eq. reflexivity. }
      assert (E2 : stop env w' = (Ok true, w')).
      { unfold stop, bind, get_server. rewrite Ei. reflexivity. }
      assert (Et : trace w'
                   = trace w ++ [EKill (instance info)] ++ released info ++ [EEmit stopped]).
      { rewrite Ew. unfold after. rewrite stateChange_eq. cbn.
        now rewrite <- !app_assoc. }
      repeat split; try assumption.
      * rewrite Ew. unfold after. rewrite stateChange_eq. reflexivity.
      * unfold after at 1. rewrite E2. cbn. rewrite Et.
        rewrite !count_released_app, count_released_released. cbn. lia.
Qed.

Lemma stop_teardown_witness :
  stop (healthy_host []) (initial_world None) = (Ok true, initial_world None)
  /\ stop unkillable_host running_world
     = (Throw (mkError "kill failed"),
        mkWorld (server running_world)
                (trace running_world ++ [EKill (instance sample_info)])
                (promises running_world))
  /\ _state (server (after (stop (healthy_host [])) running_world)) = stopped
  /\ count_released
       (trace (after (stop (healthy_host []))
                     (after (stop (healthy_host [])) running_world)))
     = 1%nat.
Proof.
  pose proof (stop_teardown (healthy_host []) (initial_world None)) as [H0 _].
  pose proof (stop_teardown unkillable_host running_world) as [_ Hf].
  destruct (Hf sample_info eq_refl) as [Hf' _].
  pose proof (stop_teardown (healthy_host []) running_world) as [_ H1].
  destruct (H1 sample_info eq_refl) as [_ H2].
  destruct (H2 eq_refl) as (_ & _ & _ & Hs & _ & Hc).
  split; [exact (H0 eq_refl) |].
  split; [exact (Hf' (mkError "kill failed") eq_refl) |].
  split; [exact Hs | exact Hc].
Defined.

(** ** [ensureInstance] *)

Lemma ensure_after_start env w :
  _instanceInfo (server w) = None ->
  _state (server w) = new \/ _state (server w) = stopped ->
  ensureInstance env w
  = (start env ;; info <- ensure_finish ;; ret (Now info)) w.
Proof.
  intros H Hs. unfold ensureInstance at 1. unfold bind at 1, get_server at 1.
  rewrite H. now destruct Hs as [-> | ->].
Qed.

(** C3: [ensureInstance] returns the RunningInstanceData at once when it is
    present.  Without it: in state [running] it throws the consistency
    error; in state [new] or [stopped] it runs [start] and returns the data
    [start] stored, or throws what [start] threw; in state [starting] it
    launches nothing, registers a once-listener on a fresh pending promise,
    and the next notification settles that promise: fulfilled with the
    RunningInstanceData when it reports [running], rejected otherwise with
    an error whose message names, between quotes and at its end, the state
    that was reported. *)
Theorem ensureInstance_contract (env : Env) (w : World) :
  (forall info, _instanceInfo (server w) = Some info ->
     ensureInstance env w = (Ok (Now info), w))
  /\ (_instanceInfo (server w) = None ->
      (_state (server w) = running ->
         ensureInstance env w = (Throw running_without_info, w))
      /\ (_state (server w) = new \/ _state (server w) = stopped ->
          forall r w', start env w = (r, w') ->
            match r with
            | Ok _ =>
                exists info, _instanceInfo (server w') = Some info
                             /\ ensureInstance env w = (Ok (Now info), w')
            | Throw e => ensureInstance env w = (Throw e, w')
            end)
      /\ (_state (server w) = starting ->
          let p := length (promises w) in
          let waiting :=
            mkWorld (set_listeners (listeners (server w) ++ [p]) (server w))
                    (trace w) (promises w ++ [None]) in
          ensureInstance env w = (Ok (Later p), waiting)
          /\ (forall state w1,
                In p (listeners (server w1)) -> promises w1 !! p = Some None ->
                let w2 := after (stateChange state) w1 in
                promises w2 !! p
                = Some (Some (notified state (_instanceInfo (server w1))))
                /\ listeners (server w2) = [])
          /\ (forall info w1,
                In p (listeners (server w1)) -> promises w1 !! p = Some None ->
                promises (after (start_finish env (Ok info)) w1) !! p
                = Some (Some (Fulfilled (Some info))))
          /\ (forall state w1,
                In p (listeners (server w1)) -> promises w1 !! p = Some None ->
                state <> running ->
                exists err,
                  promises (after (stateChange state) w1) !! p
                  = Some (Some (Rejected err))
                  /\ message err
                     = (dq ++ "ensureInstance" ++ dq ++ " waited for " ++ dq
                        ++ "running" ++ dq ++ " but got an different state: "
                        ++ dq
                        ++ match state with
                           | new => "new"
                           | starting => "starting"
                           | running => "running"
                           | stopped => "stopped"
                           end
                        ++ dq)%string))).
Proof.
  split; [| intros Hnone; repeat split].
  - intros info H. unfold ensureInstance, bind, get_server. now rewrite H.
  - intros Hs. unfold ensureInstance, bind, get_server. now rewrite Hnone, Hs.
  - intros Hs r w' Hstart.
    rewrite (ensure_after_start env w Hnone Hs).
    destruct r as [b | e].
    + destruct (start_Ok_has_info env w b w' Hstart) as [info Hinfo].
      exists info. split; [assumption |].
      rewrite (bind_Ok _ _ _ _ _ Hstart).
      unfold ensure_finish, bind, get_server. now rewrite Hinfo.
    + now rewrite (bind_Throw _ _ _ _ _ Hstart).
  - unfold ensureInstance, bind, get_server. rewrite Hnone, H. reflexivity.
  - unfold after. rewrite stateChange_eq. cbn.
    now apply fire_cells_pending.
  - unfold after. now rewrite stateChange_eq.
  - intros info w1 Hin Hp. unfold after. rewrite start_finish_Ok. cbn.
    now rewrite (fire_cells_pending running (Some info) _ _ _ Hin Hp).
  - intros state w1 Hin Hp Hstate.
    exists (unexpected_state state). split.
    + unfold after. rewrite stateChange_eq. cbn [snd promises].
      rewrite (fire_cells_pending state _ _ _ _ Hin Hp).
      unfold notified. now destruct state.
    + now destruct state.
Qed.

Lemma ensureInstance_contract_witness :
  ensureInstance (healthy_host []) running_world
  = (Ok (Now sample_info), running_world)
  /\ ensureInstance (healthy_host []) inconsistent_world
     = (Throw running_without_info, inconsistent_world)
  /\ (exists info,
        _instanceInfo (server (after (start (healthy_host [])) (initial_world None)))
        = Some info
        /\ ensureInstance (healthy_host []) (initial_world None)
           = (Ok (Now info), after (start (healthy_host [])) (initial_world None)))
  /\ ensureInstance (healthy_host []) starting_world = (Ok (Later 0), waiting_world)
  /\ promises (after (stateChange stopped) waiting_world) !! 0%nat
     = Some (Some (Rejected (unexpected_state stopped)))
  /\ promises (after (start_finish (healthy_host []) (Ok sample_info)) waiting_world)
       !! 0%nat
     = Some (Some (Fulfilled (Some sample_info)))
  /\ (exists err,
        promises (after (stateChange stopped) waiting_world) !! 0%nat
        = Some (Some (Rejected err))
        /\ message err
           = String "034"
               ("ensureInstance"
                ++ String "034"
                     (" waited for "
                      ++ String "034"
                           ("running"
                            ++ String "034"
                                 (" but got an different state: "
                                  ++ String "034"
                                       ("stopped" ++ String "034" EmptyString)))))%string).
Proof.
  pose proof (ensureInstance_contract (healthy_host []) running_world) as [Ha _].
  pose proof (ensureInstance_contract (healthy_host []) inconsistent_world) as [_ Hb].
  destruct (Hb eq_refl) as (Hb1 & _ & _).
  pose proof (ensureInstance_contract (healthy_host []) (initial_world None)) as [_ Hc].
  destruct (Hc eq_refl) as (_ & Hc2 & _).
  pose proof (ensureInstance_contract (healthy_host []) starting_world) as [_ Hd].
  destruct (Hd eq_refl) as (_ & _ & Hd3).
  destruct (Hd3 eq_refl) as (Hd4 & Hd5 & Hd6 & Hd7).
  split; [exact (Ha sample_info eq_refl) |].
  split; [exact (Hb1 eq_refl) |].
  split; [exact (Hc2 (or_introl eq_refl) (Ok true) _ eq_refl) |].
  split; [exact Hd4 |].
  split; [exact (proj1 (Hd5 stopped waiting_world (or_introl eq_refl) eq_refl)) |].
  split; [exact (Hd6 sample_info waiting_world (or_introl eq_refl) eq_refl) |].
  exact (Hd7 stopped waiting_world (or_introl eq_refl) eq_refl
             ltac:(discriminate)).
Defined.

(** ** Concurrent callers *)

Lemma run_cons env a schedule c :
  run env (a :: schedule) c = run env schedule (step env a c).
Proof. reflexivity. Qed.

(** While a startup is under way, [n] calls of [ensureInstance] only add
    [n] waiters on [n] fresh promises. *)
Lemma run_ensure_while_starting env n w tasks kills :
  _instanceInfo (server w) = None -> _state (server w) = starting ->
  run env (repeat CallEnsure n) (mkConfig w tasks kills)
  = mkConfig
      (mkWorld (set_listeners (listeners (server w) ++ seq (length (promises w)) n)
                              (server w))
               (trace w)
               (promises w ++ repeat None n))
      tasks kills.
Proof.
  revert w. induction n as [| n IH]; intros [s tr cells] Hi Hs; cbn in Hi, Hs.
  - cbn. rewrite !app_nil_r. now destruct s.
  - cbn [repeat]. rewrite run_cons.
    cbn [step world in_flight stopping].
    unfold goes_through_start. cbn [server]. rewrite Hi, Hs.
    cbn [defined negb state_eqb orb andb].
    unfold after, ensureInstance, bind, get_server. cbn [server]. rewrite Hi, Hs.
    cbn -[run seq repeat].
    rewrite IH by (cbn; assumption). cbn -[seq repeat].
    rewrite length_app. cbn [length].
    rewrite <- !app_assoc. cbn [app].
    replace (length cells + 1)%nat with (S (length cells)) by lia.
    reflexivity.
Qed.

Lemma lookup_fresh_promise (cells : list Cell) n i :
  (i < n)%nat -> (cells ++ repeat None n) !! (length cells + i)%nat = Some None.
Proof.
  intros Hi. induction cells as [| c cells IH]; cbn; [| exact IH].
  revert i Hi. induction n as [| n IHn]; intros i Hi; [lia |].
  destruct i as [| i]; cbn; [reflexivity | apply IHn; lia].
Qed.

(** While the state is [starting], [n] calls of [ensureInstance] begin no
    execution of the startup protocol and call no collaborator; when an
    execution in flight then succeeds, each of the [n] waiters is fulfilled
    with its data. *)
Lemma waiters_fulfilled_together (env : Env) (w : World) (tasks : list Task)
    (kills n : nat) :
  _instanceInfo (server w) = None -> _state (server w) = starting ->
  let c := run env (repeat CallEnsure n) (mkConfig w tasks kills) in
  in_flight c = tasks
  /\ trace (world c) = trace w
  /\ _state (server (world c)) = starting
  /\ forall k t info, tasks !! k = Some t ->
       let c' := step env (Settles k (Ok info)) c in
       in_flight c' = delete k tasks
       /\ forall i, (i < n)%nat ->
            promises (world c') !! (length (promises w) + i)%nat
            = Some (Some (Fulfilled (Some info))).
Proof.
  intros Hi Hs c. unfold c.
  rewrite (run_ensure_while_starting env n w tasks kills Hi Hs).
  cbn [in_flight world trace server]. repeat split; try assumption.
  - cbn [step in_flight]. rewrite H. now destruct t.
  - intros i Hlt.
    assert (Hfired :
      fire_cells running (Some info)
        (listeners (server w) ++ seq (length (promises w)) n)
        (promises w ++ repeat None n) !! (length (promises w) + i)%nat
      = Some (Some (Fulfilled (Some info)))).
    { apply (fire_cells_pending running (Some info)).
      - apply in_or_app. right. apply in_seq. lia.
      - now apply lookup_fresh_promise. }
    cbn [step in_flight world]. rewrite H. destruct t as [| p].
    + unfold after. rewrite start_finish_Ok. cbn. exact Hfired.
    + unfold after, bind, try. rewrite start_finish_Ok.
      unfold ensure_finish, bind, get_server, settle. cbn.
      apply settle_cell_settled. exact Hfired.
Qed.

Lemma goes_through_start_inv s :
  goes_through_start s = true ->
  _instanceInfo s = None /\ (_state s = new \/ _state s = stopped).
Proof.
  unfold goes_through_start. intros H. apply andb_prop in H as [Hi Hs].
  split.
  - now destruct (_instanceInfo s).
  - destruct (_state s); cbn in Hs; auto; discriminate.
Qed.

(** A call of [ensureInstance] that does not go through [start] leaves the
    state and the RunningInstanceData as they are. *)
Lemma ensureInstance_keeps_state env w :
  goes_through_start (server w) = false ->
  _instanceInfo (server (after (ensureInstance env) w)) = _instanceInfo (server w)
  /\ _state (server (after (ensureInstance env) w)) = _state (server w).
Proof.
  intros G. unfold after, ensureInstance, bind, get_server.
  destruct (_instanceInfo (server w)) as [info |] eqn:Hi; [now split |].
  unfold goes_through_start in G. rewrite Hi in G. cbn in G.
  destruct (_state (server w)) eqn:Hs; cbn in G; try discriminate; cbn; auto.
Qed.

(** What [stop_finish] does when there is no RunningInstanceData: it throws
    or returns without touching the object. *)
Lemma stop_finish_without_info r w :
  _instanceInfo (server w) = None ->
  server (after (stop_finish r) w) = server w.
Proof.
  intros Hi. unfold after, stop_finish. destruct r as [x | e]; [| reflexivity].
  unfold bind, get_server. now rewrite Hi.
Qed.

Lemma step_start env c :
  _instanceInfo (server (world c)) = None ->
  step env CallStart c
  = mkConfig
      (mkWorld (set_listeners [] (set_state starting (server (world c))))
               (trace (world c) ++ [EEmit starting])
               (fire_cells starting None (listeners (server (world c)))
                           (promises (world c))))
      (in_flight c ++ [StartTask]) (stopping c).
Proof.
  intros H. cbn [step]. rewrite start_begin_fresh by exact H.
  now rewrite stateChange_eq, H.
Qed.

Lemma step_serialized env a c :
  (a = CallStart -> in_flight c = []) ->
  serialized c -> serialized (step env a c).
Proof.
  intros Ha [Hlen Hbusy]. destruct a as [| | | k r | r].
  - (* start, with nothing in flight *)
    specialize (Ha eq_refl).
    destruct (_instanceInfo (server (world c))) as [info |] eqn:Hi.
    + cbn [step]. unfold start_begin, bind, get_server. rewrite Hi. cbn.
      rewrite Ha. split; [cbn; lia | intros H; now destruct H].
    + rewrite (step_start env c Hi), Ha.
      split; [cbn; lia |]. intros _. cbn. now split.
  - (* ensureInstance *)
    cbn [step].
    destruct (goes_through_start (server (world c))) eqn:G.
    + destruct (goes_through_start_inv _ G) as [Hi Hs].
      assert (Hnone : in_flight c = []).
      { destruct (in_flight c) as [| t ts] eqn:Hf; [reflexivity |].
        destruct Hbusy as [_ Hst]; [discriminate |].
        rewrite Hst in Hs. now destruct Hs. }
      rewrite Hnone.
      unfold bind, new_promise, ret. cbn -[start_begin].
      rewrite start_begin_fresh by exact Hi. rewrite stateChange_eq.
      split; cbn; [lia |]. intros _. now split.
    + destruct (ensureInstance_keeps_state env _ G) as [Ei Es].
      split; [exact Hlen |]. cbn [world in_flight]. now rewrite Ei, Es.
  - (* stop: the kill is asked for *)
    cbn [step].
    destruct (_instanceInfo (server (world c))) as [info |] eqn:Hi;
      [| split; [exact Hlen | now rewrite Hi] ].
    split; [exact Hlen |]. cbn [world in_flight]. intros Hf.
    destruct (Hbusy Hf) as [Hnone _]. congruence.
  - (* a startup settles *)
    cbn [step].
    destruct (in_flight c !! k) as [t |] eqn:Hk; [| exact (conj Hlen Hbusy)].
    assert (Hdel : delete k (in_flight c) = []).
    { apply nil_length_inv. rewrite length_delete by eauto. lia. }
    destruct t; rewrite Hdel;
      (split; [cbn; lia | intros Hf; now destruct Hf]).
  - (* a kill settles *)
    cbn [step].
    destruct (stopping c) as [| n]; [exact (conj Hlen Hbusy) |].
    split; [exact Hlen |]. cbn [world in_flight]. intros Hf.
    destruct (Hbusy Hf) as [Hi Hs].
    rewrite (stop_finish_without_info r _ Hi). now split.
Qed.

Lemma starts_when_idle_cons env a schedule c :
  starts_when_idle env (a :: schedule) c = true ->
  (a = CallStart -> in_flight c = [])
  /\ starts_when_idle env schedule (step env a c) = true.
Proof.
  cbn [starts_when_idle]. intros H. split.
  - intros ->. now destruct (in_flight c).
  - destruct a; [destruct (in_flight c); [exact H | discriminate] | | | |];
      exact H.
Qed.

(** When every direct call of [start] is made while nothing is in flight,
    every interleaving keeps the startup protocol serialized. *)
Lemma run_serialized env schedule :
  forall c,
    starts_when_idle env schedule c = true -> serialized c ->
    serialized (run env schedule c).
Proof.
  induction schedule as [| a schedule IH]; intros c Hs Hc; [exact Hc |].
  apply starts_when_idle_cons in Hs as [Ha Hs].
  rewrite run_cons. apply IH; [exact Hs |]. now apply step_serialized.
Qed.

Lemma starts_when_idle_take env schedule :
  forall c n,
    starts_when_idle env schedule c = true ->
    starts_when_idle env (take n schedule) c = true.
Proof.
  induction schedule as [| a schedule IH]; intros c n H; [now destruct n |].
  destruct n as [| n]; [reflexivity |].
  pose proof (starts_when_idle_cons env a schedule c H) as [Ha Hs].
  cbn [take starts_when_idle].
  destruct a; [rewrite (Ha eq_refl) | | | |]; now apply IH.
Qed.

(** C2, on the code.  At most one execution of the startup protocol is in
    flight at any time in every interleaving of callers of [start], of
    [ensureInstance] and of [stop], with the startups and the kills settling
    in any order and with any outcome, in which each direct call of [start]
    is made while no execution is in flight.  While the state is
    [starting], [n] calls of [ensureInstance] begin no execution and call no
    collaborator: each only registers a one-shot waiter; and when an
    execution in flight then succeeds with some RunningInstanceData, every
    one of the [n] waiters is fulfilled with that same data.  The code
    misses the claim at two inputs.  Two calls of [start] made one after the
    other, before the first startup settles, both pass the guard, and two
    executions are in flight: the claim as stated fails for every host and
    options.  And when the startup run by a first caller of
    [ensureInstance] fails, that caller is rejected with the failure while a
    second caller, who became a waiter, stays registered and pending in
    state [starting]: nothing is notified for a failed startup. *)
Theorem ensureInstance_callers_share_one_startup (env : Env) :
  (forall o schedule,
     starts_when_idle env schedule (initial_config o) = true ->
     forall n,
       (length (in_flight (run env (take n schedule) (initial_config o))) <= 1)%nat)
  /\ (forall w tasks kills n,
        _instanceInfo (server w) = None -> _state (server w) = starting ->
        let c := run env (repeat CallEnsure n) (mkConfig w tasks kills) in
        in_flight c = tasks
        /\ trace (world c) = trace w
        /\ _state (server (world c)) = starting
        /\ forall k t info, tasks !! k = Some t ->
             let c' := step env (Settles k (Ok info)) c in
             in_flight c' = delete k tasks
             /\ forall i, (i < n)%nat ->
                  promises (world c') !! (length (promises w) + i)%nat
                  = Some (Some (Fulfilled (Some info))))
  /\ (forall o,
        in_flight (run env [CallStart; CallStart] (initial_config o))
        = [StartTask; StartTask]
        /\ ~ at_most_one_in_flight env (initial_config o))
  /\ (forall o e,
        let c := run env [CallEnsure; CallEnsure; Settles 0 (Throw e)]
                     (initial_config o) in
        in_flight c = []
        /\ promises (world c) !! 0%nat = Some (Some (Rejected e))
        /\ promises (world c) !! 1%nat = Some None
        /\ listeners (server (world c)) = [1%nat]
        /\ _state (server (world c)) = starting
        /\ notifications (trace (world c)) = [starting]).
Proof.
  assert (Htwo : forall o,
            in_flight (run env [CallStart; CallStart] (initial_config o))
            = [StartTask; StartTask]).
  { intros o. rewrite !run_cons. cbn [run foldl].
    rewrite (step_start env (initial_config o)) by reflexivity.
    rewrite (step_start env _) by reflexivity. reflexivity. }
  split; [| split; [| split]].
  - intros o schedule Hs n.
    apply (run_serialized env (take n schedule) (initial_config o)).
    + now apply starts_when_idle_take.
    + split; [cbn; lia | intros H; now destruct H].
  - intros w tasks kills n. apply waiters_fulfilled_together.
  - intros o. split; [apply Htwo |].
    intros H. specialize (H [CallStart; CallStart]). rewrite Htwo in H.
    cbn in H. lia.
  - intros o e. cbv zeta. rewrite !run_cons. cbn [run foldl].
    unfold initial_config, initial_world. cbn [step world server].
    cbn. unfold after. cbn.
    destruct (env_debug_enabled env); cbn; repeat split.
Qed.

Lemma ensureInstance_callers_share_one_startup_witness :
  let c := run (healthy_host []) (repeat CallEnsure 3)
               (mkConfig starting_world [StartTask] 0) in
  let c' := step (healthy_host []) (Settles 0 (Ok sample_info)) c in
  (length (in_flight (run (healthy_host [])
                          [CallStart; CallEnsure; Settles 0 (Ok sample_info);
                           CallStop; CallStop; KillSettles (Ok tt); CallEnsure;
                           KillSettles (Ok tt); Settles 0 (Throw boom);
                           CallStart; CallEnsure]
                          (initial_config None))) <= 1)%nat
  /\ in_flight c = [StartTask]
  /\ trace (world c) = [EEmit starting]
  /\ in_flight c' = []
  /\ promises (world c') !! 0%nat = Some (Some (Fulfilled (Some sample_info)))
  /\ promises (world c') !! 2%nat = Some (Some (Fulfilled (Some sample_info))).
Proof.
  destruct (ensureInstance_callers_share_one_startup (healthy_host []))
    as (Hone & Hn & _).
  destruct (Hn starting_world [StartTask] 0%nat 3%nat eq_refl eq_refl)
    as (H1 & H2 & _ & H4).
  destruct (H4 0%nat StartTask sample_info eq_refl) as [H5 H6].
  split.
  { exact (Hone None [CallStart; CallEnsure; Settles 0 (Ok sample_info);
                      CallStop; CallStop; KillSettles (Ok tt); CallEnsure;
                      KillSettles (Ok tt); Settles 0 (Throw boom);
                      CallStart; CallEnsure]
                eq_refl 11%nat). }
  split; [exact H1 |]. split; [exact H2 |]. split; [exact H5 |].
  split; [exact (H6 0%nat ltac:(lia)) | exact (H6 2%nat ltac:(lia))].
Defined.

(** ** The host's sort and the comparator of [createAuth] *)

Section ArraySortFacts.
Context {A : Type} (comparefn : A -> A -> Z).

Lemma binaryInsertionSort_Permutation (rest work : list A) :
  Permutation (binaryInsertionSort comparefn work rest) (work ++ rest).
Proof.
  revert work. induction rest as [| pivot rest IH]; intros work;
    cbn [binaryInsertionSort].
  - now rewrite app_nil_r.
  - rewrite IH. rewrite <- app_assoc. cbn [app].
    rewrite <- !Permutation_middle. now rewrite app_assoc, take_drop.
Qed.

Lemma countAndMakeRun_Permutation (l : list A) :
  Permutation (snd (countAndMakeRun comparefn l)) l.
Proof.
  destruct l as [| low [| high rest]]; cbn [countAndMakeRun snd]; try reflexivity.
  destruct (Z.ltb _ 0); [| reflexivity].
  rewrite <- Permutation_rev. now rewrite take_drop.
Qed.

(** Whatever the comparator answers, the sort only reorders the array. *)
Lemma array_sort_Permutation (l : list A) :
  Permutation (array_sort comparefn l) l.
Proof.
  unfold array_sort. destruct (Nat.ltb (length l) 2); [reflexivity |].
  pose proof (countAndMakeRun_Permutation l) as H.
  destruct (countAndMakeRun comparefn l) as [n l']. cbn [snd] in H.
  rewrite binaryInsertionSort_Permutation, take_drop. exact H.
Qed.

End ArraySortFacts.

Lemma compare_users_admin a b :
  literal_admin a = true -> compare_users a b = -1.
Proof. unfold literal_admin, compare_users. now intros ->. Qed.

Lemma compare_users_other a b :
  literal_admin a = false -> Z.ltb (compare_users a b) 0 = false.
Proof.
  unfold literal_admin, compare_users. intros ->.
  now destruct (bool_decide (database a = database b)).
Qed.

(** A user written as ['admin'] is inserted at the front. *)
Lemma find_insertion_front fuel pivot work right :
  literal_admin pivot = true ->
  (right <= length work)%nat -> (right < fuel)%nat ->
  find_insertion compare_users fuel pivot work 0 right = 0%nat.
Proof.
  intros Hp. revert right.
  induction fuel as [| fuel IH]; intros right Hr Hf; [lia |].
  cbn [find_insertion]. destruct (Nat.ltb_spec 0 right) as [Hlt | Hge]; [| reflexivity].
  cbn [Nat.add].
  assert (Hmid : (Nat.div2 (right - 0) < right)%nat).
  { rewrite Nat.sub_0_r. apply Nat.lt_div2. exact Hlt. }
  set (d := Nat.div2 (right - 0)) in *. clearbody d.
  destruct (lookup_lt_is_Some_2 work d) as [m ->]; [lia |].
  rewrite compare_users_admin by assumption. cbn.
  apply IH; lia.
Qed.

(** Any other user is inserted at the back. *)
Lemma find_insertion_back fuel pivot work :
  literal_admin pivot = false ->
  forall left right,
    (left <= right)%nat -> (right <= length work)%nat ->
    (right - left < fuel)%nat ->
    find_insertion compare_users fuel pivot work left right = right.
Proof.
  intros Hp. induction fuel as [| fuel IH]; intros left right Hl Hr Hf; [lia |].
  cbn [find_insertion]. destruct (Nat.ltb_spec left right) as [Hlt | Hge]; [| lia].
  assert (Hmid : (left + Nat.div2 (right - left) < right)%nat).
  { pose proof (Nat.lt_div2 (right - left)). lia. }
  set (d := Nat.div2 (right - left)) in *. clearbody d.
  destruct (lookup_lt_is_Some_2 work (left + d)) as [m ->]; [lia |].
  rewrite compare_users_other by assumption.
  apply IH; lia.
Qed.

Lemma binaryInsertionSort_users rest :
  forall work,
    binaryInsertionSort compare_users work rest
    = rev (List.filter literal_admin rest) ++ work
      ++ List.filter (fun u => negb (literal_admin u)) rest.
Proof.
  induction rest as [| pivot rest IH]; intros work; cbn [binaryInsertionSort].
  - cbn. now rewrite app_nil_r.
  - cbn [List.filter]. destruct (literal_admin pivot) eqn:Hp; cbn [negb].
    + rewrite find_insertion_front by (auto; lia).
      rewrite take_0, drop_0. cbn [app]. rewrite IH. cbn [rev].
      now rewrite <- !app_assoc.
    + rewrite find_insertion_back by (auto; lia).
      rewrite firstn_all, drop_all. rewrite IH.
      now rewrite <- !app_assoc.
Qed.

(** The elements that continue a run are all written as ['admin'] when the
    run descends, and none of them is when it ascends. *)
Lemma run_tail_users descending :
  forall l previous,
    let n := run_tail compare_users descending previous l in
    (n <= length l)%nat
    /\ Forall (fun u => literal_admin u = descending) (take n l).
Proof.
  induction l as [| current l IH]; intros previous; cbn.
  - split; [lia | constructor].
  - destruct (literal_admin current) eqn:Hc.
    + rewrite (compare_users_admin current previous Hc).
      destruct descending; cbn.
      * destruct (IH current) as [Hn Hall]. split; [lia |]. now constructor.
      * split; [lia | constructor].
    + pose proof (compare_users_other current previous Hc) as Hlt.
      destruct descending.
      * destruct (Z.leb_spec 0 (compare_users current previous)) as [_ | Hneg].
        -- cbn. split; [lia | constructor].
        -- apply Z.ltb_lt in Hneg. congruence.
      * rewrite Hlt. cbn.
        destruct (IH current) as [Hn Hall]. split; [lia |]. now constructor.
Qed.

Lemma filter_all (f : CreateUser -> bool) l :
  Forall (fun u => f u = true) l -> List.filter f l = l.
Proof.
  induction 1 as [| u l Hu _ IH]; cbn; [reflexivity |]. now rewrite Hu, IH.
Qed.

Lemma filter_none (f : CreateUser -> bool) l :
  Forall (fun u => f u = false) l -> List.filter f l = [].
Proof.
  induction 1 as [| u l Hu _ IH]; cbn; [reflexivity |]. now rewrite Hu, IH.
Qed.

(** V8's order for the comparator of [createAuth], on every array. *)
Lemma array_sort_users l :
  array_sort compare_users l = sorted_by_v8 l.
Proof.
  unfold sorted_by_v8.
  destruct l as [| low [| high rest]].
  - reflexivity.
  - cbn. now destruct (literal_admin low).
  - unfold array_sort. cbn [length Nat.ltb Nat.leb countAndMakeRun].
    set (descending := Z.ltb (compare_users high low) 0).
    assert (Hhigh : literal_admin high = descending).
    { unfold descending. destruct (literal_admin high) eqn:Hh.
      - now rewrite compare_users_admin.
      - now rewrite compare_users_other. }
    destruct (run_tail_users descending rest high) as [Hn Hall]. cbv zeta in Hn, Hall.
    set (t := run_tail compare_users descending high rest) in *.
    cbn [Nat.add take drop].
    set (run := low :: high :: take t rest).
    assert (Hrun :
      (if descending then rev run else run)
      = rev (List.filter literal_admin run)
        ++ List.filter (fun u => negb (literal_admin u)) run).
    { unfold run. cbn [List.filter]. rewrite Hhigh.
      destruct descending; cbn [negb].
      - rewrite (filter_all literal_admin (take t rest) Hall).
        rewrite (filter_none (fun u => negb (literal_admin u)) (take t rest)).
        + destruct (literal_admin low); cbn; now rewrite ?app_nil_r.
        + eapply Forall_impl; [exact Hall |]. cbn. now intros u ->.
      - rewrite (filter_none literal_admin (take t rest) Hall).
        rewrite (filter_all (fun u => negb (literal_admin u)) (take t rest)).
        + now destruct (literal_admin low).
        + eapply Forall_impl; [exact Hall |]. cbn. now intros u ->. }
    assert (Hsplit : low :: high :: rest = run ++ drop t rest).
    { unfold run. cbn. now rewrite take_drop. }
    assert (Hlen : length run = S (S t)).
    { unfold run. cbn. rewrite length_take. lia. }
    assert (Hwork :
      forall l', l' = (if descending then rev run else run) ++ drop t rest ->
                 take (S (S t)) l' = (if descending then rev run else run)
                 /\ drop (S (S t)) l' = drop t rest).
    { intros l' ->. split.
      - rewrite take_app_length'; [reflexivity |].
        destruct descending; rewrite ?length_rev; now symmetry.
      - rewrite drop_app_length'; [reflexivity |].
        destruct descending; rewrite ?length_rev; now symmetry. }
    destruct (Hwork (if descending
                     then rev run ++ drop t rest
                     else low :: high :: rest)) as [Htake Hdrop].
    { destruct descending; [reflexivity | exact Hsplit]. }
    rewrite Htake, Hdrop, binaryInsertionSort_users, Hrun, Hsplit.
    rewrite !List.filter_app, rev_app_distr. now rewrite <- !app_assoc.
Qed.

(** ** [createAuth] *)

Lemma set_extraUsers_twice l1 l2 s :
  set_extraUsers l2 (set_extraUsers l1 s) = set_extraUsers l2 s.
Proof.
  destruct s as [i [oi ob os [[d [u |] n p f] |]] st [a |] ls]; reflexivity.
Qed.

Lemma auth_set_extraUsers l s a :
  auth s = Some a ->
  exists a', auth (set_extraUsers l s) = Some a' /\ extraUsers a' = l
             /\ disable a' = disable a /\ force a' = force a
             /\ customRootName a' = customRootName a
             /\ customRootPwd a' = customRootPwd a.
Proof.
  intros H. destruct s as [i o st au ls]. cbn in H. subst au.
  eexists. cbn. repeat split.
Qed.

Lemma commands_app tr1 tr2 : commands (tr1 ++ tr2) = commands tr1 ++ commands tr2.
Proof.
  induction tr1 as [| e tr1 IH]; [reflexivity |].
  destruct e; cbn; rewrite ?IH; reflexivity.
Qed.

Lemma commands_user_event l :
  commands (user_event <$> l)
  = map (fun u => (default "admin" (database u),
                   user_command (with_default_database u))) l.
Proof. induction l as [| u l IH]; [reflexivity |]. cbn. now rewrite IH. Qed.

Lemma write_user_at_end done user rest s a :
  auth s = Some a -> extraUsers a = done ++ user :: rest ->
  write_user (length done) (with_default_database user) s
  = set_extraUsers (done ++ with_default_database user :: rest) s.
Proof.
  intros Ha Hl. unfold write_user. rewrite Ha, Hl. f_equal.
  replace (length done) with (length done + 0)%nat by lia.
  now rewrite insert_app_r.
Qed.

(** [db] always ends up naming the database of the user at hand. *)
Lemma target_database (name db : string) :
  (if bool_decide (name <> db) then name else db) = name.
Proof.
  case_bool_decide as H; [reflexivity |].
  destruct (decide (name = db)) as [E | E]; [now symmetry | contradiction].
Qed.

(** The loop over the extra users: it issues the command of each user in
    turn and stops at the first one that fails; the users it reached carry
    their defaulted database. *)
Lemma createUsers_spec env rest :
  forall db i w a done r w',
    auth (server w) = Some a -> extraUsers a = done ++ rest -> length done = i ->
    set_extraUsers (done ++ rest) (server w) = server w ->
    createUsers env db i rest w = (r, w') ->
    exists k,
      (k <= length rest)%nat
      /\ server w' = set_extraUsers (done ++ reached k rest) (server w)
      /\ promises w' = promises w
      /\ trace w' = trace w ++ (user_event <$> take k rest)
      /\ match r with
         | Ok _ =>
             k = length rest
             /\ answered_ok env (trace w) (user_event <$> rest) = true
         | Throw e =>
             exists k0 user,
               k = S k0 /\ rest !! k0 = Some user
               /\ answered_ok env (trace w) (user_event <$> take k0 rest) = true
               /\ ok_call env (trace w ++ (user_event <$> take k0 rest))
                          (user_event user) = false
               /\ thrown_by env (trace w ++ (user_event <$> take k0 rest))
                            (user_event user) = Some e
         end.
Proof.
  induction rest as [| user rest IH]; intros db i w a done r w' Ha Hl Hi Hsync H.
  - cbn in H. inversion H; subst. exists 0%nat. cbn.
    rewrite !app_nil_r in *. rewrite Hsync.
    repeat split; auto.
  - cbn [createUsers] in H. rewrite target_database in H.
    bind_ok H u1 w1 Hm.
    unfold modify_server in Hm. injection Hm as _ <-.
    subst i. rewrite (write_user_at_end done user rest _ a Ha Hl) in H.
    fold (user_event user) in H.
    destruct (auth_set_extraUsers (done ++ with_default_database user :: rest)
                (server w) a Ha) as (a1 & Ha1 & Hl1 & _).
    bind_cases H u2 w2 Hcall e;
      apply call_inv in Hcall as [Hr ->]; cbn [server trace promises] in *.
    + pose proof (fun A B C D =>
                    IH _ (S (length done)) _ a1
                       (done ++ [with_default_database user]) r w' A B C D H)
        as IH'.
      cbn [server trace promises] in IH'.
      destruct IH' as (k & Hk & Hs & Hp & Ht & Hres).
      * exact Ha1.
      * rewrite Hl1. now rewrite <- app_assoc.
      * rewrite length_app. cbn. lia.
      * rewrite <- app_assoc. cbn [app]. apply set_extraUsers_twice.
      * cbn [server trace promises] in Hs, Hp, Ht, Hres.
        rewrite set_extraUsers_twice in Hs.
        exists (S k). split; [cbn; lia |]. split.
        { rewrite Hs. unfold reached. cbn. now rewrite <- !app_assoc. }
        split; [exact Hp |]. split.
        { rewrite Ht. cbn. now rewrite <- app_assoc. }
        destruct r as [y | e].
        -- destruct Hres as [-> Hans]. split; [reflexivity |].
           rewrite fmap_cons. cbn [answered_ok]. rewrite Hans, andb_true_r.
           unfold user_event, ok_call. now rewrite <- Hr.
        -- destruct Hres as (k0 & user0 & -> & Hlook & Hans & Hfail & Herr).
           exists (S k0), user0. split; [reflexivity |]. split; [exact Hlook |].
           split.
           ++ cbn [take]. rewrite fmap_cons. cbn [answered_ok].
              rewrite Hans, andb_true_r.
              unfold user_event, ok_call. now rewrite <- Hr.
           ++ cbn [take]. rewrite fmap_cons. rewrite <- Hfail, <- Herr.
              split; f_equal; now rewrite <- app_assoc.
    + exists 1%nat. split; [cbn; lia |].
      split; [unfold reached; cbn; now rewrite drop_0 |].
      split; [reflexivity |]. split; [reflexivity |].
      exists 0%nat, user. split; [reflexivity |]. split; [reflexivity |].
      split; [reflexivity |].
      cbn [take fmap list_fmap]. rewrite app_nil_r.
      unfold user_event, ok_call, thrown_by. now rewrite <- Hr.
Qed.

Lemma reached_all sorted :
  reached (length sorted) sorted = with_default_database <$> sorted.
Proof.
  unfold reached. rewrite firstn_all, drop_all. apply app_nil_r.
Qed.

Lemma loop_users_given env a :
  (0 < length (extraUsers a))%nat ->
  loop_users env a = env_sort env compare_users (extraUsers a).
Proof.
  intros H. unfold loop_users.
  destruct (Nat.ltb_spec 0 (length (extraUsers a))); [reflexivity | lia].
Qed.

(** What one run of [createAuth] does to the object and to the trace: the
    calls it makes are the calls of a run without failure up to the first
    one that throws, and the array is written as far as the loop came. *)
Lemma createAuth_spec env data w a r w' :
  auth (server w) = Some a ->
  createAuth env data w = (r, w') ->
  let sorted := env_sort env compare_users (extraUsers a) in
  exists k evs,
    (k <= length sorted)%nat
    /\ server w'
       = (if sort_ran a evs
          then set_extraUsers (reached k sorted) (server w)
          else server w)
    /\ promises w' = promises w
    /\ trace w' = trace w ++ evs
    /\ reached_users evs = (if sort_ran a evs then k else 0%nat)
    /\ match r with
       | Ok _ =>
           evs = bootstrap_calls env data a
           /\ answered_ok env (trace w) evs = true
           /\ k = length (loop_users env a)
       | Throw e =>
           exists calls last later,
             evs = calls ++ [last]
             /\ bootstrap_calls env data a = calls ++ last :: later
             /\ answered_ok env (trace w) calls = true
             /\ ok_call env (trace w ++ calls) last = false
             /\ thrown_by env (trace w ++ calls) last = Some e
       end.
Proof.
  intros Ha H. cbv zeta. unfold createAuth in H.
  set (uri := uriTemplate env (ip data) (port data) "admin") in *.
  bind_ok H s w0 Hg. inversion Hg; subst s w0; clear Hg.
  rewrite Ha in H. cbn [defined assertion] in H.
  bind_ok H u0 w0 Hg. inversion Hg; subst w0; clear Hg.
  unfold bootstrap_calls. fold uri.
  (* connect *)
  bind_cases H u1 w1 Hc e; apply call_inv in Hc as [Hconn ->];
    cbn [server trace promises] in *.
  2: { exists 0%nat, [EConnect uri].
       unfold sort_ran. cbn [length Nat.ltb Nat.leb]. rewrite andb_false_r.
       split; [lia |].
       split; [reflexivity |]. split; [reflexivity |]. split; [reflexivity |].
       split; [reflexivity |].
       exists [], (EConnect uri), ((ECommand "admin" (root_command a)) :: (user_event <$> loop_users env a) ++ [EClose]).
       split; [reflexivity |]. split; [reflexivity |]. split; [reflexivity |].
       rewrite app_nil_r. cbn [ok_call thrown_by]. now rewrite <- Hconn. }
  (* the root user *)
  bind_cases H u2 w2 Hc e; apply call_inv in Hc as [Hroot ->];
    cbn [server trace promises] in *.
  2: { exists 0%nat, [EConnect uri; (ECommand "admin" (root_command a))].
       unfold sort_ran. cbn [length Nat.ltb Nat.leb]. rewrite andb_false_r.
       split; [lia |].
       split; [reflexivity |]. split; [reflexivity |].
       split; [now rewrite <- app_assoc |]. split; [reflexivity |].
       exists [EConnect uri], (ECommand "admin" (root_command a)), ((user_event <$> loop_users env a) ++ [EClose]).
       split; [reflexivity |]. split; [reflexivity |].
       split; [cbn; now rewrite <- Hconn |].
       cbn [ok_call thrown_by]. now rewrite <- Hroot. }
  assert (Hhead : answered_ok env (trace w) [EConnect uri; (ECommand "admin" (root_command a))] = true).
  { cbn. now rewrite <- Hconn, <- Hroot. }
  rewrite <- app_assoc in H. cbn [app] in H.
  bind_cases H u3 w3 Hloop e.
  - (* every command succeeded: close *)
    apply call_inv in H as [Hclose ->]. cbn [server trace promises].
    destruct (extraUsers a) as [| x xs] eqn:Hus.
    + cbn in Hloop. inversion Hloop; subst w3; clear Hloop.
      cbn [server trace promises] in *.
      assert (Hnone : loop_users env a = []) by (unfold loop_users; now rewrite Hus).
      rewrite Hnone. cbn [fmap list_fmap app].
      exists 0%nat, [EConnect uri; (ECommand "admin" (root_command a)); EClose].
      unfold sort_ran. rewrite Hus. cbn [length Nat.ltb Nat.leb andb].
      split; [lia |].
      split; [reflexivity |]. split; [reflexivity |].
      split; [now rewrite <- !app_assoc |]. split; [reflexivity |].
      destruct r as [y | e].
      * split; [reflexivity |]. split.
        -- change [EConnect uri; (ECommand "admin" (root_command a)); EClose] with ([EConnect uri; (ECommand "admin" (root_command a))] ++ [EClose]).
           rewrite answered_ok_app, Hhead. cbn. now rewrite <- Hclose.
        -- reflexivity.
      * exists [EConnect uri; (ECommand "admin" (root_command a))], EClose, [].
        split; [reflexivity |]. split; [reflexivity |].
        split; [exact Hhead |]. cbn [ok_call thrown_by]. now rewrite <- Hclose.
    + rewrite <- Hus in *.
      assert (Hpos : (0 < length (extraUsers a))%nat) by (rewrite Hus; cbn; lia).
      rewrite (loop_users_given env a Hpos).
      replace (Nat.ltb 0 (length (extraUsers a))) with true in Hloop
        by (rewrite Hus; reflexivity).
      set (sorted := env_sort env compare_users (extraUsers a)) in *.
      bind_ok Hloop u4 w4 Hm. unfold modify_server in Hm. injection Hm as _ <-.
      cbn [server trace promises] in Hloop.
      destruct (auth_set_extraUsers sorted (server w) a Ha) as (a1 & Ha1 & Hl1 & _).
      pose proof (set_extraUsers_twice sorted sorted (server w)) as Hsync.
      pose proof (fun A D => createUsers_spec env sorted "admin" 0%nat _ a1 [] _ _
                               A Hl1 eq_refl D Hloop)
        as Hspec.
      cbn [server trace promises app] in Hspec.
      destruct (Hspec Ha1 Hsync) as (k & Hk & Hs & Hp & Ht & -> & Hans). clear Hspec.
      rewrite set_extraUsers_twice in Hs.
      rewrite firstn_all in Ht. rewrite Ht in Hclose.
      rewrite <- app_assoc in Hclose, Ht. cbn [app] in Hclose, Ht.
      exists (length sorted),
             (EConnect uri :: (ECommand "admin" (root_command a)) :: (user_event <$> sorted) ++ [EClose]).
      assert (Hran : sort_ran a (EConnect uri :: (ECommand "admin" (root_command a))
                                 :: (user_event <$> sorted) ++ [EClose]) = true).
      { unfold sort_ran. apply andb_true_intro. split; apply Nat.ltb_lt; [exact Hpos |].
        cbn [length]. rewrite length_app. cbn. lia. }
      rewrite Hran.
      split; [lia |].
      split; [exact Hs |]. split; [exact Hp |].
      split; [rewrite Ht; now rewrite <- !app_assoc |].
      split.
      { unfold reached_users. cbn [commands].
        rewrite commands_app, commands_user_event. cbn [commands length].
        rewrite length_app, length_map. cbn. lia. }
      assert (Hbody : answered_ok env (trace w)
                        ([EConnect uri; (ECommand "admin" (root_command a))] ++ (user_event <$> sorted)) = true).
      { now rewrite answered_ok_app, Hhead. }
      destruct r as [y | e].
      * split; [reflexivity |]. split; [| reflexivity].
        change (EConnect uri :: (ECommand "admin" (root_command a)) :: (user_event <$> sorted) ++ [EClose])
          with (([EConnect uri; (ECommand "admin" (root_command a))] ++ (user_event <$> sorted)) ++ [EClose]).
        rewrite answered_ok_app, Hbody. cbn. now rewrite <- Hclose.
      * exists (EConnect uri :: (ECommand "admin" (root_command a)) :: (user_event <$> sorted)), EClose, [].
        split; [reflexivity |]. split; [reflexivity |].
        split; [exact Hbody |]. cbn [ok_call thrown_by]. now rewrite <- Hclose.
  - (* a command of an extra user failed *)
    destruct (extraUsers a) as [| x xs] eqn:Hus; [discriminate |].
    rewrite <- Hus in *.
    assert (Hpos : (0 < length (extraUsers a))%nat) by (rewrite Hus; cbn; lia).
    rewrite (loop_users_given env a Hpos).
    replace (Nat.ltb 0 (length (extraUsers a))) with true in Hloop
      by (rewrite Hus; reflexivity).
    set (sorted := env_sort env compare_users (extraUsers a)) in *.
    bind_ok Hloop u4 w4 Hm. unfold modify_server in Hm. injection Hm as _ <-.
    cbn [server trace promises] in Hloop.
    destruct (auth_set_extraUsers sorted (server w) a Ha) as (a1 & Ha1 & Hl1 & _).
    pose proof (set_extraUsers_twice sorted sorted (server w)) as Hsync.
    pose proof (fun A D => createUsers_spec env sorted "admin" 0%nat _ a1 [] _ _
                             A Hl1 eq_refl D Hloop)
      as Hspec.
    cbn [server trace promises app] in Hspec.
    destruct (Hspec Ha1 Hsync)
      as (k & Hk & Hs & Hp & Ht & k0 & user & -> & Hlook & Hans & Hfail & Herr).
    clear Hspec.
    rewrite set_extraUsers_twice in Hs.
    rewrite (take_S_r _ _ _ Hlook), fmap_app in Ht. cbn [fmap list_fmap] in Ht.
    rewrite <- app_assoc in Ht, Hfail, Herr. cbn [app] in Ht, Hfail, Herr.
    exists (S k0),
           (EConnect uri :: (ECommand "admin" (root_command a)) :: (user_event <$> take k0 sorted) ++ [user_event user]).
    assert (Hran : sort_ran a (EConnect uri :: (ECommand "admin" (root_command a))
                               :: (user_event <$> take k0 sorted) ++ [user_event user])
                   = true).
    { unfold sort_ran. apply andb_true_intro. split; apply Nat.ltb_lt; [exact Hpos |].
      cbn [length]. rewrite length_app. cbn. lia. }
    rewrite Hran.
    split; [exact Hk |].
    split; [exact Hs |]. split; [exact Hp |].
    split; [exact Ht |].
    split.
    { unfold reached_users. cbn [commands].
      rewrite commands_app, commands_user_event. cbn [commands length].
      rewrite length_app, length_map, length_take. cbn.
      apply lookup_lt_Some in Hlook. lia. }
    exists (EConnect uri :: (ECommand "admin" (root_command a)) :: (user_event <$> take k0 sorted)),
           (user_event user),
           ((user_event <$> drop (S k0) sorted) ++ [EClose]).
    split; [reflexivity |]. split.
    { rewrite <- (take_drop_middle sorted k0 user Hlook) at 1.
      rewrite fmap_app. cbn. now rewrite <- !app_assoc. }
    split; [| now split].
    change (EConnect uri :: (ECommand "admin" (root_command a)) :: (user_event <$> take k0 sorted))
      with ([EConnect uri; (ECommand "admin" (root_command a))] ++ (user_event <$> take k0 sorted)).
    now rewrite answered_ok_app, Hhead.
Qed.

Lemma user_events_not_close l :
  Forall (fun e => is_close e = false) (user_event <$> l).
Proof. induction l; constructor; auto. Qed.

Lemma prefix_Forall {A} (P : A -> Prop) (body calls later : list A) (x last : A) :
  body ++ [x] = calls ++ last :: later -> Forall P body -> Forall P calls.
Proof.
  revert body. induction calls as [| c calls IH]; intros body E Hb; [constructor |].
  destruct body as [| b body]; cbn in E.
  - injection E as _ E. now destruct calls.
  - injection E as -> E. inversion Hb; subst. constructor; eauto.
Qed.

(** In a run of [createAuth] without failure, the close is the last call
    and the only close. *)
Lemma bootstrap_calls_close env data a :
  exists body,
    bootstrap_calls env data a = body ++ [EClose]
    /\ Forall (fun e => is_close e = false) body.
Proof.
  exists (EConnect (uriTemplate env (ip data) (port data) "admin")
          :: ECommand "admin" (root_command a) :: (user_event <$> loop_users env a)).
  split; [reflexivity |].
  repeat (constructor; [reflexivity |]). apply user_events_not_close.
Qed.

(** C9, as stated, fails: when the command creating an extra user fails,
    [createAuth] throws that error on and the connection it opened is never
    closed. *)
Lemma failed_command_leaves_connection_open :
  let w := auth_world (extra_users_opts unset_then_admin) in
  let m := createAuth (rejecting_host "u") (sample_data None) in
  outcome m w = Throw (mkError "command createUser failed")
  /\ trace (after m w)
     = [EConnect "mongodb://127.0.0.1:27017/admin";
        ECommand "admin" (root_command (authDefault (extra_users_opts unset_then_admin)));
        ECommand "admin" (user_command (plain_user "a" (Some "admin")));
        ECommand "admin" (user_command (plain_user "u" (Some "admin")))]
  /\ ~ In EClose (trace (after m w)).
Proof.
  cbv zeta. split; [reflexivity |]. split; [reflexivity |].
  vm_compute. intros H. repeat (destruct H as [H | H]; [discriminate |]). exact H.
Qed.

(** C9, as amended: when [createAuth] returns, every call it made was
    answered and the close of the connection is the last of them.  When it
    throws, either nothing was called (no AuthConfig), or the call made last
    is the one that threw and the error [createAuth] throws is the error of
    that call; every call before it was answered, and none of the calls
    before it is a close: after a failed connect or a failed [createUser]
    command nothing more is called and the connection is not closed. *)
Theorem createAuth_closes_after_success (env : Env) (data : StartupInstanceData)
    (w : World) :
  exists evs,
    trace (after (createAuth env data) w) = trace w ++ evs
    /\ match outcome (createAuth env data) w with
       | Ok _ =>
           exists calls,
             evs = calls ++ [EClose]
             /\ Forall (fun e => is_close e = false) calls
             /\ answered_ok env (trace w) evs = true
       | Throw e =>
           (evs = [] /\ auth (server w) = None)
           \/ exists calls last,
                evs = calls ++ [last]
                /\ Forall (fun e => is_close e = false) calls
                /\ answered_ok env (trace w) calls = true
                /\ ok_call env (trace w ++ calls) last = false
                /\ thrown_by env (trace w ++ calls) last = Some e
       end.
Proof.
  unfold after, outcome.
  destruct (createAuth env data w) as [r w'] eqn:E. cbn [fst snd].
  destruct (auth (server w)) as [a |] eqn:Ha.
  - destruct (createAuth_spec env data w a r w' Ha E)
      as (k & evs & _ & _ & _ & Ht & _ & Hr).
    exists evs. split; [exact Ht |].
    destruct (bootstrap_calls_close env data a) as (body & Hbody & Hnc).
    destruct r as [x | e].
    + destruct Hr as (-> & Hans & _). exists body. now rewrite <- Hbody.
    + destruct Hr as (calls & last & later & -> & Hpre & Hans & Hfail & Herr).
      right. exists calls, last. split; [reflexivity |].
      split; [| now repeat split].
      rewrite Hbody in Hpre. exact (prefix_Forall _ _ _ _ _ _ Hpre Hnc).
  - unfold createAuth, bind, get_server in E. rewrite Ha in E. cbn in E.
    inversion E; subst. exists []. rewrite app_nil_r. split; [reflexivity |].
    left. now split.
Qed.

(** ** The AuthConfig across [createAuth] *)

(** C10, as stated, fails: [createAuth] leaves [extraUsers] reordered and
    the unset database of a user written as ['admin']. *)
Lemma createAuth_rewrites_extraUsers :
  let w := auth_world (extra_users_opts unset_then_admin) in
  let w' := after (createAuth (healthy_host []) (sample_data None)) w in
  (extraUsers <$> auth (server w))
  = Some [plain_user "u" None; plain_user "a" (Some "admin")]
  /\ (extraUsers <$> auth (server w'))
     = Some [plain_user "a" (Some "admin"); plain_user "u" (Some "admin")]
  /\ auth (server w') <> auth (server w).
Proof.
  cbv zeta. split; [reflexivity |]. split; [reflexivity |].
  vm_compute. discriminate.
Qed.

Lemma user_doc_reached k sorted :
  user_doc <$> reached k sorted = user_doc <$> sorted.
Proof.
  unfold reached. rewrite fmap_app, <- list_fmap_compose.
  rewrite <- (take_drop k sorted) at 3. now rewrite fmap_app.
Qed.

(** C10, as amended: of the AuthConfig, [createAuth] changes [extraUsers]
    and nothing else, in every run, returning or throwing.  As long as no
    command of an extra user has been issued (none is given, or the connect
    or the root user's command threw) the object is as it was.  Otherwise
    the array has been sorted in place by the comparator, and exactly the
    users whose command was issued, the first ones of the sorted array,
    carry their defaulted database, the one whose command threw included;
    after a run that returns, every user does.  The array being the
    caller's, the same is read through the options.  The command documents
    of the users are those given, up to the order of the sort; [disable],
    [force], [customRootName] and [customRootPwd] are as before, and so is
    the rest of the object. *)
Theorem createAuth_changes_only_extraUsers (env : Env) (data : StartupInstanceData)
    (w : World) (a : AutomaticAuth) :
  auth (server w) = Some a ->
  let w' := after (createAuth env data) w in
  let sorted := env_sort env compare_users (extraUsers a) in
  exists evs,
    trace w' = trace w ++ evs
    /\ (if sort_ran a evs
        then
          let users' := reached (reached_users evs) sorted in
          server w' = set_extraUsers users' (server w)
          /\ auth (server w')
             = Some (mkAuth (disable a) users' (customRootName a)
                            (customRootPwd a) (force a))
          /\ opts (server w') = share_extraUsers users' (opts (server w))
          /\ (reached_users evs <= length sorted)%nat
          /\ user_doc <$> users' = user_doc <$> sorted
        else server w' = server w)
    /\ (forall x, outcome (createAuth env data) w = Ok x ->
          (0 < length (extraUsers a))%nat ->
          sort_ran a evs = true
          /\ reached (reached_users evs) sorted = with_default_database <$> sorted).
Proof.
  intros Ha. cbv zeta. unfold after, outcome.
  destruct (createAuth env data w) as [r w'] eqn:E. cbn [fst snd].
  destruct (createAuth_spec env data w a r w' Ha E)
    as (k & evs & Hk & Hs & _ & Ht & Hn & Hr).
  exists evs. split; [exact Ht |]. split.
  - destruct (sort_ran a evs); [| exact Hs].
    rewrite Hn. split; [exact Hs |]. split.
    { rewrite Hs. unfold set_extraUsers. now rewrite Ha. }
    split.
    { rewrite Hs. unfold set_extraUsers. now rewrite Ha. }
    split; [exact Hk | apply user_doc_reached].
  - intros x -> Hpos. destruct Hr as (-> & _ & ->).
    assert (Hran : sort_ran a (bootstrap_calls env data a) = true).
    { unfold sort_ran. apply andb_true_intro. split; apply Nat.ltb_lt; [exact Hpos |].
      unfold bootstrap_calls. cbn [length]. rewrite length_app. cbn. lia. }
    rewrite Hran in Hn. split; [exact Hran |].
    rewrite Hn, (loop_users_given env a Hpos). apply reached_all.
Qed.

Lemma createAuth_changes_only_extraUsers_witness :
  let w := auth_world (extra_users_opts unset_then_admin) in
  let w' := after (createAuth (healthy_host []) (sample_data None)) w in
  extraUsers <$> auth (server w')
  = Some (with_default_database <$> array_sort compare_users unset_then_admin)
  /\ (opt_auth (opts (server w')) ≫= o_extraUsers)
     = Some (with_default_database <$> array_sort compare_users unset_then_admin).
Proof.
  cbv zeta.
  destruct (createAuth_changes_only_extraUsers (healthy_host []) (sample_data None)
              (auth_world (extra_users_opts unset_then_admin))
              (authDefault (extra_users_opts unset_then_admin)) eq_refl)
    as (evs & _ & Hs & Hall).
  destruct (Hall tt eq_refl ltac:(cbn; lia)) as [Hran Hreached].
  rewrite Hran in Hs. cbv zeta in Hs. rewrite Hreached in Hs.
  destruct Hs as (_ & Hauth & Hopts & _).
  rewrite Hauth, Hopts. split; reflexivity.
Defined.

(** ** The order of the extra users *)

Lemma healthy_host_answers files tr e :
  ok_call (healthy_host files) tr e = true.
Proof. now destruct e. Qed.

(** On the healthy host, [createAuth] makes every call of a run without
    failure, and the loop goes over the extra users in V8's order for the
    comparator. *)
Lemma createAuth_on_healthy_host users data :
  let a := authDefault (extra_users_opts users) in
  trace (after (createAuth (healthy_host []) data)
               (auth_world (extra_users_opts users)))
  = bootstrap_calls (healthy_host []) data a
  /\ loop_users (healthy_host []) a = sorted_by_v8 users.
Proof.
  cbv zeta. split.
  - unfold after.
    destruct (createAuth (healthy_host []) data (auth_world (extra_users_opts users)))
      as [r w'] eqn:E. cbn [snd].
    destruct (createAuth_spec (healthy_host []) data
                (auth_world (extra_users_opts users))
                (authDefault (extra_users_opts users)) r w' eq_refl E)
      as (k & evs & _ & _ & _ & Ht & _ & Hr).
    cbn [trace auth_world initial_world app] in Ht. rewrite Ht.
    destruct r as [x | e]; [now destruct Hr as [-> _] |].
    destruct Hr as (calls & last & later & _ & _ & _ & Hfail & _).
    now rewrite healthy_host_answers in Hfail.
  - unfold loop_users. cbn [authDefault extra_users_opts o_extraUsers extraUsers default].
    destruct users as [| u users]; [reflexivity |].
    cbn [length Nat.ltb Nat.leb healthy_host env_sort].
    apply array_sort_users.
Qed.

(** C7, at failing inputs.  On a host where nothing fails and the sort is
    V8's, the commands of the extra users are issued with the users written
    as ['admin'] first, in the reverse of their given order, and then all
    the others, those with no database among them, in their given order.
    With an extra user whose database is unset followed by one in ['admin'],
    the command of the second one is issued first, both in ['admin'], where
    the stable order keeps them as given.  With a user in ['test'] followed
    by one whose database is unset, the order is kept, so the user of
    ['test'] is created before a user of ['admin']. *)
Theorem extra_users_order_differs :
  let data := sample_data None in
  let issued users :=
    commands (trace (after (createAuth (healthy_host []) data)
                           (auth_world (extra_users_opts users)))) in
  (forall users,
     issued users
     = commands (bootstrap_calls (healthy_host []) data
                                 (authDefault (extra_users_opts users)))
     /\ loop_users (healthy_host []) (authDefault (extra_users_opts users))
        = sorted_by_v8 users)
  /\ map (fun c => (fst c, createUser (snd c))) (issued unset_then_admin)
     = [("admin", "mongodb-memory-server-root"); ("admin", "a"); ("admin", "u")]
  /\ user_names (admin_first unset_then_admin) = ["u"; "a"]
  /\ map (fun c => (fst c, createUser (snd c))) (issued test_then_unset)
     = [("admin", "mongodb-memory-server-root"); ("test", "x"); ("admin", "u")]
  /\ user_names (admin_first test_then_unset) = ["u"; "x"].
Proof.
  cbv zeta. split.
  - intros users.
    destruct (createAuth_on_healthy_host users (sample_data None)) as [Ht Hl].
    split; [now rewrite Ht | exact Hl].
  - repeat split; reflexivity.
Qed.

(** ** The root user *)

(** Whatever the host answers, the first command that [createAuth] issues,
    if it issues any, is the one of the root user. *)
Lemma root_command_first env data w a :
  auth (server w) = Some a ->
  exists evs,
    trace (after (createAuth env data) w) = trace w ++ evs
    /\ (commands evs = []
        \/ head (commands evs) = Some ("admin", root_command a)).
Proof.
  intros Ha. unfold after.
  destruct (createAuth env data w) as [r w'] eqn:E. cbn [snd].
  destruct (createAuth_spec env data w a r w' Ha E)
    as (k & evs & _ & _ & _ & Ht & _ & Hr).
  exists evs. split; [exact Ht |].
  destruct r as [x | e].
  - destruct Hr as [-> _]. now right.
  - destruct Hr as (calls & last & later & -> & Hpre & _).
    unfold bootstrap_calls in Hpre.
    destruct calls as [| c1 [| c2 calls]]; cbn in Hpre.
    + injection Hpre as <- _. now left.
    + injection Hpre as <- <- _. now right.
    + injection Hpre as <- <- _. now right.
Qed.

(** C8, at a failing input.  Whatever the host and the AuthConfig, the
    first command [createAuth] issues is the one of the root user, in
    ['admin'], with the configured name, the role [root], SCRAM-SHA-256,
    and the password ["rootuser"]: [customRootPwd] is not read.  So when the
    caller sets [customRootPwd] to ["secret"], the resolved AuthConfig holds
    it and the root user is still created with the password ["rootuser"]. *)
Theorem root_password_is_fixed :
  (forall env data w a,
     auth (server w) = Some a ->
     exists evs,
       trace (after (createAuth env data) w) = trace w ++ evs
       /\ (commands evs = []
           \/ exists doc,
                head (commands evs) = Some ("admin", doc)
                /\ createUser doc = customRootName a
                /\ roles doc = [RoleName "root"]
                /\ mechanisms doc = Some ["SCRAM-SHA-256"]
                /\ pwd doc = "rootuser"))
  /\ (let w := auth_world secret_password_opts in
      let tr := trace (after (createAuth (healthy_host []) (sample_data None)) w) in
      (customRootPwd <$> auth (server w)) = Some "secret"
      /\ exists doc,
           head (commands tr) = Some ("admin", doc)
           /\ createUser doc = "mongodb-memory-server-root"
           /\ pwd doc = "rootuser").
Proof.
  split.
  - intros env data w a Ha.
    destruct (root_command_first env data w a Ha) as (evs & Ht & [Hc | Hc]).
    + exists evs. split; [exact Ht | now left].
    + exists evs. split; [exact Ht |]. right.
      exists (root_command a). split; [exact Hc |]. repeat split.
  - cbv zeta. split; [reflexivity |].
    eexists. split; [reflexivity |]. split; reflexivity.
Qed.

Lemma root_password_is_fixed_witness :
  let w := auth_world secret_password_opts in
  exists evs,
    trace (after (createAuth (healthy_host []) (sample_data None)) w) = trace w ++ evs
    /\ exists doc,
         head (commands evs) = Some ("admin", doc) /\ pwd doc = "rootuser".
Proof.
  cbv zeta.
  destruct root_password_is_fixed as [H _].
  destruct (H (healthy_host []) (sample_data None) (auth_world secret_password_opts)
              (authDefault secret_password_opts) eq_refl)
    as (evs & Ht & [Hc | (doc & Hd & _ & _ & _ & Hp)]).
  - exfalso.
    assert (Hl : length (commands
                           (trace (after (createAuth (healthy_host []) (sample_data None))
                                         (auth_world secret_password_opts)))) = 1%nat)
      by reflexivity.
    rewrite Ht in Hl. cbn [auth_world initial_world trace app] in Hl.
    rewrite Hc in Hl. discriminate Hl.
  - exists evs. split; [exact Ht |]. exists doc. split; [exact Hd | exact Hp].
Defined.

(** ** The launches of [_startUpInstance] *)

Lemma truthy_bool_true o : truthy_bool o = true -> o = Some true.
Proof. destruct o as [[|]|]; cbn; congruence. Qed.

Lemma createAuth_flag_true s isNew :
  createAuth_flag s isNew = true ->
  io_auth (default no_instance_opts (opt_instance (opts s))) = Some true
  /\ exists a, auth s = Some a.
Proof.
  unfold createAuth_flag. intros H.
  apply andb_prop in H as [H _]. apply andb_prop in H as [H _].
  apply andb_prop in H as [H1 H2]. split; [now apply truthy_bool_true |].
  destruct (auth s) as [a |]; [now exists a | discriminate].
Qed.

(** A startup attempt that succeeds, call by call: the preparation, the
    first launch, and then, when the bootstrap is decided, the calls of
    [createAuth] followed by the kill and the second launch, or by the
    warning. *)
Lemma startUp_spec (env : Env) (w : World) (info : MongoInstanceData)
    (w' : World) :
  _startUpInstance env w = (Ok info, w') ->
  let instOpts := default no_instance_opts (opt_instance (opts (server w))) in
  let bootstrap := createAuth_flag (server w) true in
  exists pre first i1,
    Forall (fun e => is_preparation e = true) pre
    /\ env_run env (trace w ++ pre) first = Ok i1
    /\ mi_auth (mo_instance first)
       = (if bootstrap then Some false else io_auth instOpts)
    /\ mi_port (mo_instance first) = port (info_data info)
    /\ mi_dbPath (mo_instance first) = dbPath (info_data info)
    /\ mi_storageEngine (mo_instance first) = storageEngine (info_data info)
    /\ if bootstrap
       then
         exists a,
           auth (server w) = Some a
           /\ let boot := bootstrap_calls env (info_data info) a in
              if persistent (storageEngine (info_data info))
              then
                io_auth instOpts = Some true
                /\ trace w'
                   = trace w ++ pre ++ [ERun first] ++ boot
                     ++ [EKill i1; ERun (with_auth (Some true) first)]
                /\ env_run env
                     (trace w ++ pre ++ [ERun first] ++ boot ++ [EKill i1])
                     (with_auth (Some true) first)
                   = Ok (instance info)
              else
                trace w'
                = trace w ++ pre ++ [ERun first] ++ boot
                  ++ [EWarn not_restarting_warning]
                /\ instance info = i1
       else trace w' = trace w ++ pre ++ [ERun first] /\ instance info = i1.
Proof.
  intros H. cbv zeta. unfold _startUpInstance in H.
  bind_ok H s w0 Hg.
  inversion Hg; subst s w0; clear Hg.
  set (instOpts := default no_instance_opts (opt_instance (opts (server w)))) in *.
  set (flag := createAuth_flag (server w) true) in *.
  bind_ok H port_ w1 Hport.
  apply call_inv in Hport as [_ ->].
  bind_ok H dbName_ w2 Hname.
  apply call_inv in Hname as [_ ->]. cbn [server trace promises] in H.
  apply bind_inv in H as [([data isNew] & w3 & Hdir & H) | (? & _ & ?)];
    [| discriminate].
  (* the data directory: one more call, and the object is untouched *)
  assert (Hpre : exists e3,
             is_preparation e3 = true
             /\ w3 = mkWorld (server w)
                             (trace w ++ [EGetPort (io_port instOpts);
                                          EGenerateDbName (io_dbName instOpts); e3])
                             (promises w)
             /\ port data = port_
             /\ storageEngine data
                = default "ephemeralForTest" (io_storageEngine instOpts)).
  { cbn [dbPath] in Hdir. destruct (negb (truthy_string (io_dbPath instOpts))).
    - bind_ok Hdir t w2' Hc.
      apply call_inv in Hc as [_ ->]. inversion Hdir; subst.
      exists EDirSync. cbn. rewrite <- !app_assoc. repeat split.
    - bind_ok Hdir files w2' Hc.
      apply call_inv in Hc as [_ ->]. inversion Hdir; subst.
      eexists (EReaddir _). cbn. rewrite <- !app_assoc. repeat split. }
  destruct Hpre as (e3 & He3 & -> & Hp & He).
  set (pre := [EGetPort (io_port instOpts); EGenerateDbName (io_dbName instOpts); e3]) in *.
  set (first := mkMongodOpts _ _ _) in H.
  bind_ok H i1 w4 Hrun.
  apply call_inv in Hrun as [Hrun ->]. cbn [server trace promises] in Hrun, H.
  bind_ok H s' w0 Hg.
  inversion Hg; subst s' w0; clear Hg. cbn [server] in H.
  bind_ok H i2 w5 Hboot.
  inversion H; subst info w'; clear H. cbn [info_data instance].
  exists pre, first, i1.
  split; [repeat constructor; exact He3 |].
  split; [now symmetry |].
  split; [reflexivity |]. split; [reflexivity |]. split; [reflexivity |].
  split; [reflexivity |].
  destruct flag eqn:Hflag.
  - destruct (createAuth_flag_true _ _ Hflag) as (Hauth & a & Ha).
    fold instOpts in Hauth. rewrite Ha in Hboot. cbn [defined andb] in Hboot.
    bind_ok Hboot u1 w6 Hc.
    destruct (createAuth_spec env data
                (mkWorld (server w) ((trace w ++ pre) ++ [ERun first]) (promises w))
                a _ _ Ha Hc)
      as (k & evs & _ & _ & _ & Ht & _ & -> & _).
    cbn [trace] in Ht.
    exists a. split; [exact Ha |]. cbv zeta.
    unfold persistent. destruct (negb (String.eqb (storageEngine data) _)).
    + bind_ok Hboot u2 w7 Hk.
      apply call_inv in Hk as [_ ->]. apply call_inv in Hboot as [Hrun2 ->].
      cbn [server trace promises mo_instance mo_binary mo_spawn] in *.
      rewrite Hauth in *. rewrite Ht in *.
      split; [reflexivity |]. split.
      * rewrite <- !app_assoc. reflexivity.
      * rewrite Hrun2. f_equal. rewrite <- !app_assoc. reflexivity.
    + bind_ok Hboot u3 w7 Hk.
      unfold emit_event in Hk. inversion Hk; subst w7. inversion Hboot; subst.
      cbn [trace]. rewrite Ht. split; [| reflexivity].
      rewrite <- !app_assoc. reflexivity.
  - replace (defined (auth (server w)) && false) with false in Hboot
      by now rewrite andb_false_r.
    inversion Hboot; subst. cbn [trace]. split; [| reflexivity].
    now rewrite <- !app_assoc.
Qed.


(** C4: in a startup attempt that succeeds, the first launch has [auth]
    false when the bootstrap will run, whatever the caller's setting, and
    the caller's setting otherwise.  When the bootstrap ran and the storage
    engine is not ['ephemeralForTest'], the instance launched first is
    killed after the bootstrap and a second launch follows with the same
    options (same port, same data directory) except [auth], now true; the
    returned instance is the second one.  When the engine is
    ['ephemeralForTest'] nothing is killed or launched again: a warning
    follows the bootstrap and the first instance is returned. *)
Theorem startup_launches (env : Env) (w : World) (info : MongoInstanceData)
    (w' : World) :
  _startUpInstance env w = (Ok info, w') ->
  let instOpts := default no_instance_opts (opt_instance (opts (server w))) in
  let bootstrap := createAuth_flag (server w) true in
  exists pre first i1,
    Forall (fun e => is_run e = false) pre
    /\ env_run env (trace w ++ pre) first = Ok i1
    /\ mi_auth (mo_instance first)
       = (if bootstrap then Some false else io_auth instOpts)
    /\ mi_port (mo_instance first) = port (info_data info)
    /\ mi_dbPath (mo_instance first) = dbPath (info_data info)
    /\ mi_storageEngine (mo_instance first) = storageEngine (info_data info)
    /\ if bootstrap
       then
         exists a,
           auth (server w) = Some a
           /\ let boot := bootstrap_calls env (info_data info) a in
              if persistent (storageEngine (info_data info))
              then
                io_auth instOpts = Some true
                /\ trace w'
                   = trace w ++ pre ++ [ERun first] ++ boot
                     ++ [EKill i1; ERun (with_auth (Some true) first)]
                /\ env_run env
                     (trace w ++ pre ++ [ERun first] ++ boot ++ [EKill i1])
                     (with_auth (Some true) first)
                   = Ok (instance info)
              else
                trace w'
                = trace w ++ pre ++ [ERun first] ++ boot
                  ++ [EWarn not_restarting_warning]
                /\ instance info = i1
       else trace w' = trace w ++ pre ++ [ERun first] /\ instance info = i1.
Proof.
  intros H. cbv zeta.
  destruct (startUp_spec env w info w' H)
    as (pre & first & i1 & Hpre & Hrun & Hauth & Hport & Hpath & Hengine & Hrest).
  exists pre, first, i1.
  split.
  { eapply Forall_impl; [exact Hpre |]. intros [] He; cbn in *; congruence. }
  repeat (split; [assumption |]). exact Hrest.
Qed.

Lemma startup_launches_witness :
  let w := initial_world (Some (own_directory_opts default_auth_opts)) in
  let w' := after (_startUpInstance (healthy_host [])) w in
  exists pre first i1 boot,
    mi_auth (mo_instance first) = Some false
    /\ trace w'
       = trace w ++ pre ++ [ERun first] ++ boot
         ++ [EKill i1; ERun (with_auth (Some true) first)].
Proof.
  cbv zeta.
  eassert (E : _startUpInstance (healthy_host [])
                 (initial_world (Some (own_directory_opts default_auth_opts)))
               = (Ok _, after (_startUpInstance (healthy_host []))
                              (initial_world (Some (own_directory_opts default_auth_opts))))).
  { unfold after. vm_compute. reflexivity. }
  destruct (startup_launches _ _ _ _ E)
    as (pre & first & i1 & _ & _ & Hauth & _ & _ & _ & Hb).
  assert (Hf : createAuth_flag
                 (server (initial_world (Some (own_directory_opts default_auth_opts))))
                 true = true) by reflexivity.
  rewrite Hf in Hauth, Hb. destruct Hb as (a & _ & Hb). cbv zeta in Hb.
  match type of Hb with
  | context [persistent ?e] =>
      replace (persistent e) with true in Hb by reflexivity
  end.
  destruct Hb as (_ & Ht & _).
  eexists pre, first, i1, _. split; [exact Hauth | exact Ht].
Defined.

(** ** The decision to bootstrap *)

Lemma bootstrapped_app tr1 tr2 :
  bootstrapped (tr1 ++ tr2) = bootstrapped tr1 || bootstrapped tr2.
Proof. apply existsb_app. Qed.

Lemma preparation_not_bootstrapped pre :
  Forall (fun e => is_preparation e = true) pre -> bootstrapped pre = false.
Proof.
  induction 1 as [| e pre He _ IH]; [reflexivity |].
  change (bootstrapped (e :: pre)) with (is_connect e || bootstrapped pre).
  rewrite IH. now destruct e.
Qed.

(** In a startup attempt that succeeds, the bootstrap ran exactly when the
    constant [createAuth] was true, and that constant is computed with
    [isNew] true. *)
Lemma bootstrap_follows_flag env w info w' :
  _startUpInstance env w = (Ok info, w') ->
  exists evs,
    trace w' = trace w ++ evs
    /\ bootstrapped evs = createAuth_flag (server w) true.
Proof.
  intros H.
  destruct (startUp_spec env w info w' H)
    as (pre & first & i1 & Hpre & _ & _ & _ & _ & _ & Hrest).
  cbv zeta in Hrest.
  pose proof (preparation_not_bootstrapped pre Hpre) as Hno.
  destruct (createAuth_flag (server w) true).
  - destruct Hrest as (a & _ & Hrest). cbv zeta in Hrest.
    destruct (persistent _).
    + destruct Hrest as (_ & -> & _). eexists. split; [reflexivity |].
      rewrite !bootstrapped_app. cbn. now rewrite !orb_true_r.
    + destruct Hrest as [-> _]. eexists. split; [reflexivity |].
      rewrite !bootstrapped_app. cbn. now rewrite !orb_true_r.
  - destruct Hrest as [-> _]. eexists. split; [reflexivity |].
    rewrite !bootstrapped_app, Hno. reflexivity.
Qed.

(** C1, at a failing input.  In every startup attempt that succeeds, the
    bootstrap runs exactly when authentication is wanted, the AuthConfig is
    present and not disabled and no replica set is named: the decision is
    taken with [isNew] true, before the data directory is looked at.  So
    with a data directory of the caller that already holds files, and the
    bootstrap not forced, the directory is listed and is not fresh, the
    decision the claim words is no, and still the bootstrap runs: the root
    user is created in the populated directory, whatever the listing. *)
Theorem bootstrap_runs_on_populated_directory :
  (forall env w info w',
     _startUpInstance env w = (Ok info, w') ->
     exists evs,
       trace w' = trace w ++ evs
       /\ bootstrapped evs = createAuth_flag (server w) true)
  /\ (let w := initial_world (Some (own_directory_opts default_auth_opts)) in
      let tr := trace (after (_startUpInstance (healthy_host populated)) w) in
      (force <$> auth (server w)) = Some false
      /\ In (EReaddir "/data/db") tr
      /\ fresh_directory (Some "/data/db") populated = false
      /\ createAuth_flag (server w) (fresh_directory (Some "/data/db") populated)
         = false
      /\ bootstrapped tr = true
      /\ created tr = ["mongodb-memory-server-root"]
      /\ forall files,
           bootstrapped (trace (after (_startUpInstance (healthy_host files)) w))
           = true).
Proof.
  split; [exact bootstrap_follows_flag |].
  cbv zeta. split; [reflexivity |]. split; [vm_compute; tauto |].
  split; [reflexivity |]. split; [reflexivity |]. split; [reflexivity |].
  split; [reflexivity |]. intros files. reflexivity.
Qed.

Lemma bootstrap_runs_on_populated_directory_witness :
  let w := initial_world (Some (own_directory_opts default_auth_opts)) in
  exists evs,
    trace (after (_startUpInstance (healthy_host populated)) w) = trace w ++ evs
    /\ bootstrapped evs = true.
Proof.
  cbv zeta.
  destruct bootstrap_runs_on_populated_directory as [H _].
  eassert (E : _startUpInstance (healthy_host populated)
                 (initial_world (Some (own_directory_opts default_auth_opts)))
               = (Ok _, after (_startUpInstance (healthy_host populated))
                              (initial_world (Some (own_directory_opts default_auth_opts))))).
  { unfold after. vm_compute. reflexivity. }
  destruct (H _ _ _ _ E) as (evs & Ht & Hb).
  exists evs. split; [exact Ht | exact Hb].
Defined.

(** * Further properties *)

(** ** What the startup protocol leaves alone *)

Lemma framed_refl w : framed w w.
Proof.
  split; [reflexivity |]. split; [now left |].
  exists []. split; [now rewrite app_nil_r | constructor].
Qed.

Lemma framed_trans w1 w2 w3 : framed w1 w2 -> framed w2 w3 -> framed w1 w3.
Proof.
  intros (P1 & S1 & evs1 & T1 & F1) (P2 & S2 & evs2 & T2 & F2).
  split; [congruence |]. split.
  - destruct S2 as [S2 | (l2 & S2)]; rewrite S2; [exact S1 |].
    right. exists l2. destruct S1 as [-> | (l1 & ->)]; [reflexivity |].
    apply set_extraUsers_twice.
  - exists (evs1 ++ evs2). split.
    + rewrite T2, T1. now rewrite app_assoc.
    + now apply Forall_app.
Qed.

Lemma frames_ret {A} (a : A) : frames (ret a).
Proof. intros w r w' H. inversion H. apply framed_refl. Qed.

Lemma frames_throw {A} e : frames (@throw A e).
Proof. intros w r w' H. inversion H. apply framed_refl. Qed.

Lemma frames_get_server : frames get_server.
Proof. intros w r w' H. inversion H. apply framed_refl. Qed.

Lemma frames_bind {A B} (m : M A) (k : A -> M B) :
  frames m -> (forall a, frames (k a)) -> frames (bind m k).
Proof.
  intros Hm Hk w r w' H.
  apply bind_inv in H as [(a & w1 & E & H) | (e & E & _)].
  - eapply framed_trans; [eapply Hm | eapply Hk]; eassumption.
  - eapply Hm; eassumption.
Qed.

Lemma frames_call {A} e (answer : list Event -> Exn A) :
  touches_lifecycle e = false -> frames (call e answer).
Proof.
  intros He w r w' H. apply call_inv in H as [_ ->].
  split; [reflexivity |]. split; [now left |].
  exists [e]. split; [reflexivity |]. now constructor.
Qed.

Lemma frames_emit_event e :
  touches_lifecycle e = false -> frames (emit_event e).
Proof.
  intros He w r w' H. inversion H.
  split; [reflexivity |]. split; [now left |].
  exists [e]. split; [reflexivity |]. now constructor.
Qed.

Lemma frames_modify f :
  (forall s, f s = s \/ exists l, f s = set_extraUsers l s) ->
  frames (modify_server f).
Proof.
  intros Hf w r w' H. inversion H.
  split; [reflexivity |]. split; [apply Hf |].
  exists []. split; [cbn; now rewrite app_nil_r | constructor].
Qed.

Lemma frames_assertion cond e : frames (assertion cond e).
Proof. destruct cond; [apply frames_ret | apply frames_throw]. Qed.

Lemma frames_createUsers env rest : forall db i, frames (createUsers env db i rest).
Proof.
  induction rest as [| user rest IH]; intros db i; cbn [createUsers].
  - apply frames_ret.
  - apply frames_bind.
    + apply frames_modify. intros s. unfold write_user.
      destruct (auth s); [right; eauto | now left].
    + intros _. apply frames_bind; [now apply frames_call |].
      intros _. apply IH.
Qed.

Lemma frames_createAuth env data : frames (createAuth env data).
Proof.
  unfold createAuth. apply frames_bind; [apply frames_get_server |]. intros s.
  apply frames_bind; [apply frames_assertion |]. intros _.
  destruct (auth s) as [a |]; [| apply frames_ret].
  apply frames_bind; [now apply frames_call |]. intros _.
  apply frames_bind; [now apply frames_call |]. intros _.
  apply frames_bind; [| intros _; now apply frames_call].
  destruct (Nat.ltb 0 (length (extraUsers a))); [| apply frames_ret].
  apply frames_bind; [apply frames_modify; right; eauto |]. intros _.
  apply frames_createUsers.
Qed.

Lemma frames_startUpInstance env : frames (_startUpInstance env).
Proof.
  unfold _startUpInstance. apply frames_bind; [apply frames_get_server |].
  intros s. cbv zeta.
  apply frames_bind; [now apply frames_call |]. intros port_.
  apply frames_bind; [now apply frames_call |]. intros dbName_.
  apply frames_bind.
  { match goal with |- frames (if ?c then _ else _) => destruct c end;
      (apply frames_bind; [now apply frames_call | intros ?; apply frames_ret]). }
  intros [data isNew].
  apply frames_bind; [now apply frames_call |]. intros i1.
  apply frames_bind; [apply frames_get_server |]. intros s'.
  apply frames_bind; [| intros ?; apply frames_ret].
  match goal with |- frames (if ?c then _ else _) => destruct c end;
    [| apply frames_ret].
  apply frames_bind; [apply frames_createAuth |]. intros _.
  match goal with |- frames (if ?c then _ else _) => destruct c end.
  - apply frames_bind; [now apply frames_call | intros _; now apply frames_call].
  - apply frames_bind; [now apply frames_emit_event | intros _; apply frames_ret].
Qed.

Lemma notifications_app tr1 tr2 :
  notifications (tr1 ++ tr2) = notifications tr1 ++ notifications tr2.
Proof.
  induction tr1 as [| e tr1 IH]; [reflexivity |].
  destruct e; cbn; rewrite ?IH; reflexivity.
Qed.

Lemma removed_app tr1 tr2 : removed (tr1 ++ tr2) = removed tr1 ++ removed tr2.
Proof.
  induction tr1 as [| e tr1 IH]; [reflexivity |].
  destruct e; cbn; rewrite ?IH; reflexivity.
Qed.

Lemma launches_app tr1 tr2 : launches (tr1 ++ tr2) = launches tr1 ++ launches tr2.
Proof.
  induction tr1 as [| e tr1 IH]; [reflexivity |].
  destruct e; cbn; rewrite ?IH; reflexivity.
Qed.

Lemma quiet_events evs :
  Forall (fun e => touches_lifecycle e = false) evs ->
  notifications evs = [] /\ removed evs = [].
Proof.
  induction 1 as [| e evs He _ [IH1 IH2]]; [now split |].
  destruct e; cbn in *; try discriminate; now split.
Qed.

Lemma set_extraUsers_fields l s :
  _instanceInfo (set_extraUsers l s) = _instanceInfo s
  /\ _state (set_extraUsers l s) = _state s
  /\ listeners (set_extraUsers l s) = listeners s
  /\ opt_instance (opts (set_extraUsers l s)) = opt_instance (opts s)
  /\ opt_binary (opts (set_extraUsers l s)) = opt_binary (opts s)
  /\ opt_spawn (opts (set_extraUsers l s)) = opt_spawn (opts s)
  /\ defined (auth (set_extraUsers l s)) = defined (auth s).
Proof. destruct s as [i o st [a |] ls]; repeat split. Qed.

(** What [framed] leaves of the object. *)
Lemma framed_fields w w' :
  framed w w' ->
  _instanceInfo (server w') = _instanceInfo (server w)
  /\ _state (server w') = _state (server w)
  /\ listeners (server w') = listeners (server w)
  /\ opt_instance (opts (server w')) = opt_instance (opts (server w))
  /\ opt_binary (opts (server w')) = opt_binary (opts (server w))
  /\ opt_spawn (opts (server w')) = opt_spawn (opts (server w))
  /\ defined (auth (server w')) = defined (auth (server w)).
Proof.
  intros (_ & [-> | (l & ->)] & _); [repeat split |].
  apply set_extraUsers_fields.
Qed.

(** X3: whatever [_startUpInstance] returns or throws, it leaves the
    lifecycle state, the RunningInstanceData, the listeners and every
    promise as they were, and of the options those of the instance, of the
    binary and of the spawn.  Of the object it writes at most the array of
    extra users, which is read through the resolved AuthConfig and, being
    the caller's array, through the options' [auth]; and it emits no
    notification and removes no temporary directory. *)
Theorem startUp_touches_only_extraUsers (env : Env) (w : World) :
  let w' := after (_startUpInstance env) w in
  _state (server w') = _state (server w)
  /\ _instanceInfo (server w') = _instanceInfo (server w)
  /\ listeners (server w') = listeners (server w)
  /\ opt_instance (opts (server w')) = opt_instance (opts (server w))
  /\ opt_binary (opts (server w')) = opt_binary (opts (server w))
  /\ opt_spawn (opts (server w')) = opt_spawn (opts (server w))
  /\ promises w' = promises w
  /\ (server w' = server w
      \/ exists users', server w' = set_extraUsers users' (server w))
  /\ exists evs,
       trace w' = trace w ++ evs
       /\ notifications evs = [] /\ removed evs = [].
Proof.
  cbv zeta. unfold after.
  destruct (_startUpInstance env w) as [r w'] eqn:H. cbn [snd].
  pose proof (frames_startUpInstance env w r w' H) as F.
  destruct (framed_fields w w' F) as (F1 & F2 & F3 & F4 & F5 & F6 & _).
  destruct F as (P & S & evs & T & Q).
  repeat split; try assumption.
  exists evs. split; [exact T |]. now apply quiet_events.
Qed.

(** ** [start] from its guard to its end *)

Lemma start_unfold env w :
  _instanceInfo (server w) = None ->
  start env w
  = start_finish env
      (outcome (_startUpInstance env) (after (stateChange starting) w))
      (after (_startUpInstance env) (after (stateChange starting) w)).
Proof.
  intros Hi. unfold start. unfold bind at 1.
  rewrite start_begin_fresh by assumption.
  unfold after, outcome. rewrite stateChange_eq. cbn [snd].
  unfold bind, try. now destruct (_startUpInstance env _) as [r w2].
Qed.

Lemma start_finish_Throw_eq env e w :
  start_finish env (Throw e) w
  = (Throw e,
     mkWorld (server w)
             (trace w ++ if env_debug_enabled env then [] else [start_failed_warning])
             (promises w)).
Proof.
  unfold start_finish, bind, emit_event, throw, ret.
  destruct (env_debug_enabled env); [| reflexivity].
  rewrite app_nil_r. now destruct w.
Qed.

(** The world in which [_startUpInstance] begins, and what it makes of it. *)
Lemma start_stages env w :
  _instanceInfo (server w) = None ->
  exists w1 r w2,
    w1 = mkWorld (set_listeners [] (set_state starting (server w)))
                 (trace w ++ [EEmit starting])
                 (fire_cells starting None (listeners (server w)) (promises w))
    /\ _startUpInstance env w1 = (r, w2)
    /\ framed w1 w2
    /\ start env w = start_finish env r w2.
Proof.
  intros Hi. rewrite start_unfold by assumption.
  unfold after, outcome. rewrite stateChange_eq, Hi. cbn [snd].
  destruct (_startUpInstance env _) as [r w2] eqn:H.
  eexists _, r, w2. split; [reflexivity |]. split; [exact H |].
  split; [| reflexivity]. eapply frames_startUpInstance. exact H.
Qed.

Lemma start_Throw env w e w' :
  _instanceInfo (server w) = None ->
  start env w = (Throw e, w') ->
  outcome (_startUpInstance env) (after (stateChange starting) w) = Throw e
  /\ _state (server w') = starting
  /\ _instanceInfo (server w') = None
  /\ listeners (server w') = []
  /\ opt_instance (opts (server w')) = opt_instance (opts (server w))
  /\ exists evs,
       trace w'
       = trace w ++ [EEmit starting] ++ evs
         ++ (if env_debug_enabled env then [] else [start_failed_warning])
       /\ Forall (fun e => touches_lifecycle e = false) evs.
Proof.
  intros Hi H.
  destruct (start_stages env w Hi) as (w1 & r & w2 & E1 & E2 & F & E).
  assert (Ho : outcome (_startUpInstance env) (after (stateChange starting) w) = r).
  { unfold outcome, after. rewrite stateChange_eq, Hi. cbn [snd].
    rewrite <- E1, E2. reflexivity. }
  rewrite E in H. destruct r as [info | e'].
  { rewrite start_finish_Ok in H. discriminate. }
  rewrite start_finish_Throw_eq in H. inversion H; subst e' w'; clear H.
  destruct (framed_fields w1 w2 F) as (F1 & F2 & F3 & F4 & _).
  destruct F as (_ & _ & evs & T & Q).
  cbn [server trace]. rewrite F1, F2, F3, F4, E1. cbn [server].
  repeat split; try reflexivity; try assumption.
  exists evs. split; [| exact Q].
  rewrite T, E1. cbn [trace]. now rewrite <- !app_assoc.
Qed.

Lemma start_Ok env w b w' :
  _instanceInfo (server w) = None ->
  start env w = (Ok b, w') ->
  exists info w1 w2,
    w1 = after (stateChange starting) w
    /\ _startUpInstance env w1 = (Ok info, w2)
    /\ b = true
    /\ _state (server w') = running
    /\ _instanceInfo (server w') = Some info
    /\ listeners (server w') = []
    /\ (framed w1 w2 /\ opts (server w') = opts (server w2))
    /\ trace w1 = trace w ++ [EEmit starting]
    /\ opts (server w1) = opts (server w)
    /\ defined (auth (server w1)) = defined (auth (server w))
    /\ trace w' = trace w2 ++ [EEmit running]
    /\ exists evs,
         trace w2 = trace w1 ++ evs
         /\ Forall (fun e => touches_lifecycle e = false) evs.
Proof.
  intros Hi H.
  destruct (start_stages env w Hi) as (w1 & r & w2 & E1 & E2 & F & E).
  rewrite E in H. destruct r as [info | e'].
  2: { rewrite start_finish_Throw_eq in H. discriminate. }
  rewrite start_finish_Ok in H. inversion H; subst b w'; clear H.
  exists info, w1, w2.
  pose proof F as (_ & _ & evs & T & Q).
  split. { unfold after. rewrite stateChange_eq, Hi. exact E1. }
  split; [exact E2 |]. cbn [server trace].
  split; [reflexivity |]. split; [reflexivity |]. split; [reflexivity |].
  split; [reflexivity |]. split; [now split |].
  split; [now rewrite E1 |]. split; [now rewrite E1 |].
  split; [rewrite E1; cbn; now destruct (auth (server w)) |].
  split; [reflexivity |]. exists evs. now split.
Qed.

(** ** The lifecycle seen by a caller *)

Lemma stop_with_info env w info :
  _instanceInfo (server w) = Some info ->
  stop env w
  = match env_kill env (trace w) (instance info) with
    | Throw e =>
        (Throw e,
         mkWorld (server w) (trace w ++ [EKill (instance info)]) (promises w))
    | Ok _ =>
        (Ok true,
         mkWorld (set_listeners [] (set_state stopped (set_instanceInfo None (server w))))
                 (trace w ++ [EKill (instance info)] ++ released info
                  ++ [EEmit stopped])
                 (fire_cells stopped None (listeners (server w)) (promises w)))
    end.
Proof.
  intros H. unfold stop, bind, get_server, try, call. rewrite H.
  destruct (env_kill env (trace w) (instance info)) as [[] | e]; [| reflexivity].
  unfold stop_finish, bind, get_server. cbn -[stateChange]. rewrite H.
  unfold released, emit_event, ret, modify_server.
  destruct (tmpDir (info_data info)); cbn -[stateChange];
    rewrite !stateChange_eq; cbn; rewrite <- ?app_assoc; reflexivity.
Qed.

Lemma ensureInstance_while_starting env w :
  _instanceInfo (server w) = None -> _state (server w) = starting ->
  ensureInstance env w
  = (Ok (Later (length (promises w))),
     mkWorld (set_listeners (listeners (server w) ++ [length (promises w)]) (server w))
             (trace w) (promises w ++ [None])).
Proof.
  intros Hi Hs. unfold ensureInstance, bind, get_server. rewrite Hi, Hs.
  reflexivity.
Qed.

(** X4: when the startup protocol fails with [e], [start] throws [e] on and
    leaves the state [starting] without RunningInstanceData: the only
    notification is the one of [starting], no temporary directory is
    removed, and the warning is printed last unless debugging is enabled.
    An [ensureInstance] called after that does not start anything: it calls
    no collaborator and hands out a promise that is pending, with its
    one-shot waiter as the only listener. *)
Theorem failed_start_stays_starting (env : Env) (w : World) (e : Error) (w' : World) :
  _instanceInfo (server w) = None ->
  start env w = (Throw e, w') ->
  outcome (_startUpInstance env) (after (stateChange starting) w) = Throw e
  /\ _state (server w') = starting
  /\ _instanceInfo (server w') = None
  /\ (exists evs,
        trace w'
        = trace w ++ [EEmit starting] ++ evs
          ++ (if env_debug_enabled env then [] else [start_failed_warning])
        /\ notifications evs = [] /\ removed evs = [])
  /\ let w'' := after (ensureInstance env) w' in
     outcome (ensureInstance env) w' = Ok (Later (length (promises w')))
     /\ trace w'' = trace w'
     /\ promises w'' = promises w' ++ [None]
     /\ listeners (server w'') = [length (promises w')].
Proof.
  intros Hi H.
  destruct (start_Throw env w e w' Hi H) as (Ho & Hs & Hn & Hl & _ & evs & Ht & Q).
  split; [exact Ho |]. split; [exact Hs |]. split; [exact Hn |].
  split. { exists evs. split; [exact Ht |]. now apply quiet_events. }
  cbv zeta. unfold outcome, after.
  rewrite ensureInstance_while_starting by assumption. cbn. now rewrite Hl.
Qed.

Lemma failed_start_stays_starting_witness :
  let w' := after (start failing_launch_host) (initial_world None) in
  _state (server w') = starting
  /\ _instanceInfo (server w') = None
  /\ outcome (ensureInstance failing_launch_host) w' = Ok (Later 0).
Proof.
  cbv zeta.
  eassert (E : start failing_launch_host (initial_world None)
               = (Throw boom, after (start failing_launch_host) (initial_world None))).
  { unfold after. vm_compute. reflexivity. }
  destruct (failed_start_stays_starting failing_launch_host (initial_world None)
              boom _ eq_refl E)
    as (_ & Hs & Hn & _ & Hl & _).
  split; [exact Hs |]. split; [exact Hn |]. exact Hl.
Defined.

(** X5: a call of [start] that gets past its guard rejects every one-shot
    waiter whose promise is pending, with the error that names the state
    [starting]; the promise stays rejected whether the startup then succeeds
    or fails. *)
Theorem start_rejects_pending_waiters (env : Env) (w : World) (p : nat) :
  _instanceInfo (server w) = None ->
  In p (listeners (server w)) ->
  promises w !! p = Some None ->
  promises (after (start env) w) !! p
  = Some (Some (Rejected (unexpected_state starting))).
Proof.
  intros Hi Hin Hp.
  destruct (start_stages env w Hi) as (w1 & r & w2 & E1 & E2 & F & E).
  assert (H1 : promises w2 !! p
               = Some (Some (Rejected (unexpected_state starting)))).
  { destruct F as (-> & _). rewrite E1. cbn [promises].
    now rewrite (fire_cells_pending starting None _ _ _ Hin Hp). }
  unfold after. rewrite E. destruct r as [info | e].
  - rewrite start_finish_Ok. cbn [snd promises]. now apply fire_cells_settled.
  - rewrite start_finish_Throw_eq. exact H1.
Qed.

Lemma start_rejects_pending_waiters_witness :
  promises (after (start (healthy_host [])) waiting_world) !! 0%nat
  = Some (Some (Rejected (unexpected_state starting))).
Proof.
  apply (start_rejects_pending_waiters (healthy_host []) waiting_world 0).
  - reflexivity.
  - cbn. now left.
  - reflexivity.
Defined.

Lemma start_Ok_trace env w b w' :
  _instanceInfo (server w) = None ->
  start env w = (Ok b, w') ->
  b = true
  /\ _state (server w') = running
  /\ (exists info, _instanceInfo (server w') = Some info)
  /\ notifications (trace w') = notifications (trace w) ++ [starting; running]
  /\ removed (trace w') = removed (trace w).
Proof.
  intros Hi H.
  destruct (start_Ok env w b w' Hi H)
    as (info & w1 & w2 & _ & _ & Hb & Hs & Hn & _ & _ & T1 & _ & _ & T3 & evs & T2 & Q).
  apply quiet_events in Q as [Q1 Q2].
  split; [exact Hb |]. split; [exact Hs |]. split; [now exists info |].
  rewrite T3, T2, T1.
  rewrite !notifications_app, !removed_app, Q1, Q2. cbn.
  rewrite !app_nil_r. rewrite <- app_assoc. now split.
Qed.

(** X6: over a [start], a [stop] and a second [start] that all return, the
    notifications are [starting], [running], [stopped], [starting],
    [running], in this order, and the state is [running], [stopped] and
    [running] again, with RunningInstanceData present, absent and present.
    The temporary directory of the first instance, if it had one, is the
    only one removed. *)
Theorem lifecycle_notifications (env : Env) (w w1 w2 w3 : World) (b1 c b2 : bool) :
  _instanceInfo (server w) = None ->
  start env w = (Ok b1, w1) ->
  stop env w1 = (Ok c, w2) ->
  start env w2 = (Ok b2, w3) ->
  notifications (trace w3)
  = notifications (trace w) ++ [starting; running; stopped; starting; running]
  /\ (_state (server w1) = running /\ _state (server w2) = stopped
      /\ _state (server w3) = running)
  /\ _instanceInfo (server w2) = None
  /\ exists info1 info3,
       _instanceInfo (server w1) = Some info1
       /\ _instanceInfo (server w3) = Some info3
       /\ removed (trace w3)
          = removed (trace w)
            ++ match tmpDir (info_data info1) with
               | Some d => [d]
               | None => []
               end.
Proof.
  intros Hi H1 H2 H3.
  destruct (start_Ok_trace env w b1 w1 Hi H1) as (_ & S1 & (info1 & I1) & N1 & R1).
  rewrite (stop_with_info env w1 info1 I1) in H2.
  destruct (env_kill env (trace w1) (instance info1)) as [[] | e]; [| discriminate].
  inversion H2; subst c w2; clear H2.
  pose proof (fun A => start_Ok_trace env _ b2 w3 A H3) as X.
  destruct (X eq_refl) as (_ & S3 & (info3 & I3) & N3 & R3). clear X.
  cbn [trace] in N3, R3.
  rewrite !notifications_app in N3. rewrite !removed_app in R3.
  split.
  { rewrite N3, N1. unfold released. destruct (tmpDir (info_data info1)); cbn;
      rewrite <- !app_assoc; reflexivity. }
  split; [repeat split; assumption |]. split; [reflexivity |].
  exists info1, info3. split; [exact I1 |]. split; [exact I3 |].
  rewrite R3, R1. unfold released. destruct (tmpDir (info_data info1)); cbn;
    rewrite ?app_nil_r; reflexivity.
Qed.

Lemma lifecycle_notifications_witness :
  let h := healthy_host [] in
  notifications
    (trace (after (start h) (after (stop h) (after (start h) (initial_world None)))))
  = [starting; running; stopped; starting; running].
Proof.
  cbv zeta.
  set (h := healthy_host []).
  set (w1 := after (start h) (initial_world None)).
  set (w2 := after (stop h) w1).
  assert (E1 : start h (initial_world None) = (Ok true, w1))
    by (vm_compute; reflexivity).
  assert (E2 : stop h w1 = (Ok true, w2)) by (vm_compute; reflexivity).
  assert (E3 : start h w2 = (Ok true, after (start h) w2))
    by (vm_compute; reflexivity).
  exact (proj1 (lifecycle_notifications h (initial_world None) w1 w2 _
                  true true true eq_refl E1 E2 E3)).
Defined.

(** ** RunningInstanceData and the state [running] go together *)

Lemma consistent_iff s :
  consistent s <->
  ((exists info, _instanceInfo s = Some info) <-> _state s = running).
Proof.
  unfold consistent.
  destruct (_instanceInfo s) as [info |], (_state s); cbn; split;
    try discriminate; try reflexivity; intros H.
  all: try (split; [intros _; reflexivity || discriminate | intros _; eauto]).
  all: try (split; [intros [? ?]; discriminate | discriminate]).
  all: try (destruct H as [H1 H2]; first
              [ now specialize (H1 (ex_intro _ info eq_refl))
              | now destruct (H2 eq_refl) ]).
Qed.

Lemma consistent_framed w w' :
  framed w w' -> consistent (server w) -> consistent (server w').
Proof.
  intros F H. unfold consistent in *.
  destruct (framed_fields w w' F) as (F1 & F2 & _).
  now rewrite F1, F2.
Qed.

Lemma start_begin_consistent w :
  consistent (server w) -> consistent (server (after start_begin w)).
Proof.
  intros H. unfold after.
  destruct (_instanceInfo (server w)) as [info |] eqn:Hi.
  - unfold start_begin, bind, get_server. now rewrite Hi.
  - rewrite start_begin_fresh, stateChange_eq by assumption.
    unfold consistent. cbn. now rewrite Hi.
Qed.

Lemma start_finish_consistent env r w :
  consistent (server w) -> consistent (server (after (start_finish env r) w)).
Proof.
  intros H. unfold after. destruct r as [info | e].
  - now rewrite start_finish_Ok.
  - now rewrite start_finish_Throw_eq.
Qed.

Lemma stop_finish_consistent r w :
  consistent (server w) -> consistent (server (after (stop_finish r) w)).
Proof.
  intros H. destruct (_instanceInfo (server w)) as [info |] eqn:Hi.
  - unfold after, stop_finish. destruct r as [[] | e]; [| exact H].
    unfold bind, get_server. rewrite Hi.
    destruct (tmpDir (info_data info)); cbn -[stateChange];
      rewrite stateChange_eq; reflexivity.
  - now rewrite stop_finish_without_info.
Qed.

Lemma start_consistent env w :
  consistent (server w) -> consistent (server (after (start env) w)).
Proof.
  intros H. destruct (_instanceInfo (server w)) as [info |] eqn:Hi.
  - unfold after, start, start_begin, bind, get_server. now rewrite Hi.
  - destruct (start_stages env w Hi) as (w1 & r & w2 & E1 & _ & F & E).
    unfold after. rewrite E. apply start_finish_consistent.
    apply (consistent_framed w1 w2 F). rewrite E1. unfold consistent. cbn.
    now rewrite Hi.
Qed.

Lemma stop_consistent env w :
  consistent (server w) -> consistent (server (after (stop env) w)).
Proof.
  intros H. unfold after. destruct (_instanceInfo (server w)) as [info |] eqn:Hi.
  - rewrite (stop_with_info env w info Hi).
    now destruct (env_kill env (trace w) (instance info)) as [[] | e].
  - unfold stop, bind, get_server. now rewrite Hi.
Qed.

Lemma ensureInstance_consistent env w :
  consistent (server w) -> consistent (server (after (ensureInstance env) w)).
Proof.
  intros H. destruct (goes_through_start (server w)) eqn:G.
  - destruct (goes_through_start_inv _ G) as [Hi Hs].
    pose proof (start_consistent env w H) as Hc.
    unfold after in *. rewrite ensure_after_start by assumption.
    unfold bind. destruct (start env w) as [[b | e] w1]; [| exact Hc].
    unfold ensure_finish, bind, get_server. cbn [snd] in Hc.
    now destruct (_instanceInfo (server w1)).
  - destruct (ensureInstance_keeps_state env w G) as [Ei Es].
    unfold consistent in *. now rewrite Ei, Es.
Qed.

Lemma getUri_keeps_object env o w :
  server (after (getUri env o) w) = server w
  /\ promises (after (getUri env o) w) = promises w.
Proof.
  unfold after, getUri, bind, get_server, assertionInstanceInfo.
  destruct (_instanceInfo (server w)) as [info |]; [| now split].
  destruct o as [[name | b] |]; now split.
Qed.

Lemma perform_consistent env m w :
  consistent (server w) -> consistent (server (perform env m w)).
Proof.
  intros H. destruct m as [| | | o]; cbn [perform].
  - now apply start_consistent.
  - now apply stop_consistent.
  - now apply ensureInstance_consistent.
  - now rewrite (proj1 (getUri_keeps_object env o w)).
Qed.

Lemma step_consistent env a c :
  consistent (server (world c)) -> consistent (server (world (step env a c))).
Proof.
  intros H. destruct a as [| | | k r | r]; cbn [step].
  - pose proof (start_begin_consistent _ H) as Hc. unfold after in Hc.
    now destruct (start_begin (world c)) as [[u | e] w'].
  - destruct (goes_through_start (server (world c))) eqn:G.
    + destruct (goes_through_start_inv _ G) as [Hi _].
      unfold bind, new_promise, ret. cbn -[start_begin].
      rewrite start_begin_fresh by exact Hi. rewrite stateChange_eq.
      unfold consistent. cbn. now rewrite Hi.
    + now apply ensureInstance_consistent.
  - now destruct (_instanceInfo (server (world c))).
  - destruct (in_flight c !! k) as [[| p] |]; [| | exact H]; cbn [world].
    + now apply start_finish_consistent.
    + pose proof (start_finish_consistent env r _ H) as Hc.
      unfold after in *. unfold bind at 1, try, bind at 1.
      destruct (start_finish env r (world c)) as [[b | e] w1]; [| exact Hc].
      unfold ensure_finish, bind, get_server. cbn [snd] in Hc.
      now destruct (_instanceInfo (server w1)).
  - destruct (stopping c) as [| n]; [exact H |].
    now apply stop_finish_consistent.
Qed.

(** X1: after any sequence of calls of [start], [stop], [ensureInstance]
    and [getUri] made one after another on a new object, with any host and
    whatever each call returned or threw, RunningInstanceData is present
    exactly when the state is [running].  So the consistency error of
    [ensureInstance] is not met this way. *)
Theorem sequential_calls_keep_data_with_running (env : Env) (o : option MongoMemoryServerOpts)
    (ms : list Method) :
  let s := server (perform_all env ms (initial_world o)) in
  (exists info, _instanceInfo s = Some info) <-> _state s = running.
Proof.
  cbv zeta. apply consistent_iff.
  assert (G : forall w, consistent (server w) ->
                        consistent (server (perform_all env ms w))).
  { induction ms as [| m ms IH]; intros w H; [exact H |].
    cbn. apply IH. now apply perform_consistent. }
  apply G. reflexivity.
Qed.

(** X2: when callers interleave at the awaits, after any schedule of calls
    of [start], [ensureInstance] and [stop] on a new object, with the
    startups and the kills settling in any order and with any outcome,
    RunningInstanceData is present exactly when the state is [running]. *)
Theorem interleavings_keep_data_with_running (env : Env)
    (o : option MongoMemoryServerOpts) (schedule : list Action) :
  let s := server (world (run env schedule (initial_config o))) in
  (exists info, _instanceInfo s = Some info) <-> _state s = running.
Proof.
  cbv zeta. apply consistent_iff.
  assert (G : forall c, consistent (server (world c)) ->
                        consistent (server (world (run env schedule c)))).
  { induction schedule as [| a schedule IH]; intros c H; [exact H |].
    rewrite run_cons. apply IH. now apply step_consistent. }
  apply G. reflexivity.
Qed.

(** ** The data of a started instance *)

(** A startup attempt that succeeds, call by call. *)
Lemma startUp_full (env : Env) (w : World) (info : MongoInstanceData)
    (w' : World) :
  _startUpInstance env w = (Ok info, w') ->
  let s := server w in
  let instOpts := default no_instance_opts (opt_instance (opts s)) in
  let d := info_data info in
  let tr1 := trace w ++ [EGetPort (io_port instOpts)] in
  let tr2 := tr1 ++ [EGenerateDbName (io_dbName instOpts)] in
  env_getPort env (trace w) (io_port instOpts) = Ok (port d)
  /\ dbName d = env_generateDbName env tr1 (io_dbName instOpts)
  /\ ip d = default "127.0.0.1" (io_ip instOpts)
  /\ storageEngine d = default "ephemeralForTest" (io_storageEngine instOpts)
  /\ replSet d = io_replSet instOpts
  /\ (if truthy_string (io_dbPath instOpts)
      then
        dbPath d = io_dbPath instOpts /\ tmpDir d = None
        /\ is_ok (env_readdir env tr2 (default "" (io_dbPath instOpts))) = true
      else
        exists t,
          env_dirSync env tr2 = Ok t
          /\ dbPath d = Some (dir_name t) /\ tmpDir d = Some t)
  /\ exists i1,
       env_run env (trace w ++ preparation instOpts) (first_launch s d) = Ok i1
       /\ trace w'
          = trace w ++ preparation instOpts ++ [ERun (first_launch s d)]
            ++ after_first_launch env s d i1.
Proof.
  intros H. cbv zeta. unfold _startUpInstance in H.
  bind_ok H s w0 Hg.
  inversion Hg; subst s w0; clear Hg.
  set (instOpts := default no_instance_opts (opt_instance (opts (server w)))) in *.
  set (flag := createAuth_flag (server w) true) in *.
  bind_ok H port_ w1 Hport.
  apply call_inv in Hport as [Hport ->].
  bind_ok H dbName_ w2 Hname.
  apply call_inv in Hname as [Hname ->]. cbn [server trace promises] in H, Hname.
  injection Hname as Hname.
  apply bind_inv in H as [([data isNew] & w3 & Hdir & H) | (? & _ & ?)];
    [| discriminate].
  assert (Hpre :
    w3 = mkWorld (server w) (trace w ++ preparation instOpts) (promises w)
    /\ port data = port_ /\ dbName data = dbName_
    /\ ip data = default "127.0.0.1" (io_ip instOpts)
    /\ storageEngine data = default "ephemeralForTest" (io_storageEngine instOpts)
    /\ replSet data = io_replSet instOpts
    /\ (if truthy_string (io_dbPath instOpts)
        then
          dbPath data = io_dbPath instOpts /\ tmpDir data = None
          /\ is_ok (env_readdir env
                      ((trace w ++ [EGetPort (io_port instOpts)])
                       ++ [EGenerateDbName (io_dbName instOpts)])
                      (default "" (io_dbPath instOpts))) = true
        else
          exists t,
            env_dirSync env
              ((trace w ++ [EGetPort (io_port instOpts)])
               ++ [EGenerateDbName (io_dbName instOpts)]) = Ok t
            /\ dbPath data = Some (dir_name t) /\ tmpDir data = Some t)).
  { cbn [dbPath] in Hdir. unfold preparation.
    destruct (truthy_string (io_dbPath instOpts)); cbn [negb] in Hdir.
    - bind_ok Hdir files w2' Hc.
      apply call_inv in Hc as [Hc ->]. inversion Hdir; subst.
      cbn [trace] in Hc. rewrite <- Hc.
      cbn. rewrite <- !app_assoc. repeat split.
    - bind_ok Hdir t w2' Hc.
      apply call_inv in Hc as [Hc ->]. inversion Hdir; subst.
      cbn [trace] in Hc.
      cbn. rewrite <- !app_assoc. repeat split.
      exists t. rewrite <- !app_assoc in Hc. cbn in Hc. now split. }
  clear Hdir. destruct Hpre as (-> & Hp & Hn & Hip & He & Hr & Hd).
  bind_ok H i1 w4 Hrun.
  apply call_inv in Hrun as [Hrun ->]. cbn [server trace promises] in Hrun, H.
  bind_ok H s' w0 Hg.
  inversion Hg; subst s' w0; clear Hg. cbn [server] in H.
  bind_ok H i2 w5 Hboot.
  inversion H; subst info w'; clear H. cbn [info_data instance].
  split; [rewrite Hp; now symmetry |]. split; [now rewrite Hn, Hname |].
  split; [exact Hip |]. split; [exact He |]. split; [exact Hr |].
  split; [exact Hd |].
  exists i1. unfold first_launch. fold instOpts. fold flag.
  split; [now symmetry |].
  unfold after_first_launch. fold instOpts. fold flag.
  destruct flag eqn:Hflag.
  - destruct (createAuth_flag_true _ _ Hflag) as (Hauth & a & Ha).
    rewrite Ha in Hboot |- *. cbn [defined andb] in Hboot.
    bind_ok Hboot u1 w6 Hc.
    match type of Hc with
    | createAuth _ _ ?w0 = _ =>
        destruct (createAuth_spec env data w0 a _ _ Ha Hc)
          as (k & evs & _ & _ & _ & Ht & _ & -> & _)
    end.
    cbn [trace] in Ht.
    unfold persistent. destruct (negb (String.eqb (storageEngine data) _)).
    + bind_ok Hboot u2 w7 Hk.
      apply call_inv in Hk as [_ ->]. apply call_inv in Hboot as [_ ->].
      cbn [server trace promises mo_instance mo_binary mo_spawn] in *.
      rewrite Ht. unfold with_auth, first_launch.
      change (createAuth_flag (server w) true) with flag. rewrite Hflag.
      rewrite <- !app_assoc. reflexivity.
    + bind_ok Hboot u3 w7 Hk.
      unfold emit_event in Hk. inversion Hk; subst w7. inversion Hboot; subst.
      cbn [trace]. rewrite Ht. rewrite <- !app_assoc. reflexivity.
  - replace (defined (auth (server w)) && false) with false in Hboot
      by now rewrite andb_false_r.
    inversion Hboot; subst. cbn [trace].
    destruct (auth (server w)); now rewrite <- !app_assoc.
Qed.

Lemma after_first_launch_not_preparation env s d i1 :
  Forall (fun e => is_preparation e = false) (after_first_launch env s d i1).
Proof.
  unfold after_first_launch. destruct (auth s) as [a |]; [| constructor].
  destruct (createAuth_flag s true); [| constructor].
  apply Forall_app. split.
  - unfold bootstrap_calls. repeat constructor.
    apply Forall_app. split; [| repeat constructor].
    apply Forall_fmap. apply Forall_true. intros u. reflexivity.
  - destruct (persistent (storageEngine d)); repeat constructor.
Qed.

(** X7: in a startup attempt that succeeds, the returned data carry the
    port the host handed out for the preferred one, the database name it
    generated from the given one, the ip of the options or ['127.0.0.1'] and
    the storage engine of the options or ['ephemeralForTest'].  With a
    non-empty [dbPath] given, the data keep that directory and have no
    temporary directory; with none, or the empty string, the host creates a
    temporary directory, which becomes both [tmpDir] and, by its name,
    [dbPath].  The directory is settled by the third call: nothing after it
    asks for a port, a name or a directory, and the first launch that
    follows is made on the returned data. *)
Theorem startup_data (env : Env) (w : World) (info : MongoInstanceData)
    (w' : World) :
  _startUpInstance env w = (Ok info, w') ->
  let instOpts := default no_instance_opts (opt_instance (opts (server w))) in
  let d := info_data info in
  let named :=
    trace w ++ [EGetPort (io_port instOpts); EGenerateDbName (io_dbName instOpts)] in
  env_getPort env (trace w) (io_port instOpts) = Ok (port d)
  /\ dbName d
     = env_generateDbName env (trace w ++ [EGetPort (io_port instOpts)])
                          (io_dbName instOpts)
  /\ ip d = default "127.0.0.1" (io_ip instOpts)
  /\ storageEngine d = default "ephemeralForTest" (io_storageEngine instOpts)
  /\ (if truthy_string (io_dbPath instOpts)
      then dbPath d = io_dbPath instOpts /\ tmpDir d = None
      else exists t,
             env_dirSync env named = Ok t
             /\ dbPath d = Some (dir_name t) /\ tmpDir d = Some t)
  /\ exists rest,
       trace w'
       = named
         ++ [if truthy_string (io_dbPath instOpts)
             then EReaddir (default "" (io_dbPath instOpts))
             else EDirSync]
         ++ ERun (first_launch (server w) d) :: rest
       /\ Forall (fun e => is_preparation e = false) rest.
Proof.
  intros H. cbv zeta.
  destruct (startUp_full env w info w' H)
    as (Hp & Hn & Hip & He & _ & Hd & i1 & _ & Ht). cbv zeta in *.
  split; [exact Hp |]. split; [exact Hn |]. split; [exact Hip |].
  split; [exact He |]. split.
  - destruct (truthy_string (io_dbPath _)).
    + destruct Hd as (Hd1 & Hd2 & _). now split.
    + destruct Hd as (t & Hd1 & Hd2 & Hd3). exists t.
      rewrite <- app_assoc in Hd1. now split.
  - exists (after_first_launch env (server w) (info_data info) i1).
    split; [| apply after_first_launch_not_preparation].
    rewrite Ht. unfold preparation. rewrite <- !app_assoc. reflexivity.
Qed.

Lemma startup_data_witness :
  let h := healthy_host [] in
  let d := info_data sample_info in
  tmpDir d = Some sample_dir /\ dbPath d = Some (dir_name sample_dir)
  /\ ip d = "127.0.0.1" /\ storageEngine d = "ephemeralForTest".
Proof.
  cbv zeta.
  assert (E : _startUpInstance (healthy_host []) (initial_world None)
              = (Ok sample_info,
                 after (_startUpInstance (healthy_host [])) (initial_world None)))
    by (vm_compute; reflexivity).
  destruct (startup_data (healthy_host []) (initial_world None) sample_info _ E)
    as (_ & _ & Hip & He & Hd & _).
  cbv zeta in Hd.
  replace (truthy_string _) with false in Hd by reflexivity.
  destruct Hd as (t & Ht & Hd1 & Hd2).
  injection Ht as <-.
  split; [exact Hd2 |]. split; [exact Hd1 |]. split; [exact Hip | exact He].
Defined.

(** ** [getUri] and [create] *)

Lemma getUri_no_argument env w info :
  _instanceInfo (server w) = Some info ->
  getUri env None w
  = (Ok (uriTemplate env (ip (info_data info)) (port (info_data info))
                     (dbName (info_data info))), w).
Proof.
  intros H. unfold getUri, bind, get_server, assertionInstanceInfo.
  now rewrite H.
Qed.

(** X8: without RunningInstanceData [getUri] throws, whatever its argument,
    and leaves everything as it was.  With it, the connection string is the
    host's template of the instance's ip and port and of a database name:
    the instance's when no argument is given; the given string when one is,
    the empty string included; a newly generated name when a boolean is
    given, [false] as well as [true].  Only the last case calls a
    collaborator, and none changes the object. *)
Theorem getUri_contract (env : Env) (w : World) :
  (_instanceInfo (server w) = None ->
   forall o, getUri env o w = (Throw instanceInfo_undefined, w))
  /\ (forall info, _instanceInfo (server w) = Some info ->
        let d := info_data info in
        getUri env None w = (Ok (uriTemplate env (ip d) (port d) (dbName d)), w)
        /\ (forall name,
              getUri env (Some (NameGiven name)) w
              = (Ok (uriTemplate env (ip d) (port d) name), w))
        /\ (forall b,
              getUri env (Some (NameWanted b)) w
              = (Ok (uriTemplate env (ip d) (port d)
                                 (env_generateDbName env (trace w) None)),
                 mkWorld (server w) (trace w ++ [EGenerateDbName None])
                         (promises w)))).
Proof.
  split.
  - intros H o. unfold getUri, bind, get_server, assertionInstanceInfo.
    now rewrite H.
  - intros info H. cbv zeta.
    unfold getUri, bind, get_server, assertionInstanceInfo. rewrite H.
    repeat split.
Qed.

Lemma getUri_contract_witness :
  getUri (healthy_host []) (Some (NameWanted false)) (initial_world None)
  = (Throw instanceInfo_undefined, initial_world None)
  /\ getUri (healthy_host []) None running_world
     = (Ok "mongodb://127.0.0.1:27017/6f1d", running_world)
  /\ getUri (healthy_host []) (Some (NameGiven "")) running_world
     = (Ok "mongodb://127.0.0.1:27017/", running_world).
Proof.
  pose proof (getUri_contract (healthy_host []) (initial_world None)) as [Ha _].
  pose proof (getUri_contract (healthy_host []) running_world) as [_ Hb].
  destruct (Hb sample_info eq_refl) as (Hb1 & Hb2 & _).
  split; [exact (Ha eq_refl (Some (NameWanted false))) |].
  split; [exact Hb1 | exact (Hb2 "")].
Defined.

(** X9: once [start] has returned, [getUri] without argument gives the
    connection string of the port the host handed out, which need not be the
    preferred one, of the ip of the options or ['127.0.0.1'], and of the
    database name the host generated from the given one; [getUri] changes
    nothing. *)
Theorem getUri_after_start (env : Env) (w : World) (b : bool) (w' : World) :
  _instanceInfo (server w) = None ->
  start env w = (Ok b, w') ->
  let instOpts := default no_instance_opts (opt_instance (opts (server w))) in
  exists port_,
    env_getPort env (trace w ++ [EEmit starting]) (io_port instOpts) = Ok port_
    /\ getUri env None w'
       = (Ok (uriTemplate env
                (default "127.0.0.1" (io_ip instOpts))
                port_
                (env_generateDbName env
                   (trace w ++ [EEmit starting; EGetPort (io_port instOpts)])
                   (io_dbName instOpts))),
          w').
Proof.
  intros Hi H. cbv zeta.
  destruct (start_Ok env w b w' Hi H)
    as (info & w1 & w2 & _ & Hs & _ & _ & Hn & _ & _ & T1 & O1 & _).
  destruct (startUp_full env w1 info w2 Hs) as (Hp & Hd & Hip & _). cbv zeta in *.
  rewrite O1, T1 in *. rewrite <- app_assoc in Hd. cbn [app] in Hd.
  exists (port (info_data info)). split; [exact Hp |].
  now rewrite (getUri_no_argument env w' info Hn), Hip, Hd.
Qed.

Lemma getUri_after_start_witness :
  let w' := after (start busy_port_host) (initial_world (Some preferred_port_opts)) in
  getUri busy_port_host None w' = (Ok "mongodb://127.0.0.1:40123/6f1d", w').
Proof.
  cbv zeta.
  set (w' := after (start busy_port_host) (initial_world (Some preferred_port_opts))).
  assert (E : start busy_port_host (initial_world (Some preferred_port_opts))
              = (Ok true, w')) by (vm_compute; reflexivity).
  destruct (getUri_after_start busy_port_host
              (initial_world (Some preferred_port_opts)) true w' eq_refl E)
    as (port_ & Hp & Hu).
  injection Hp as <-. exact Hu.
Defined.

(** X10: over a [start] and a [stop] that both return, a data directory
    given by the caller is never removed; when none was given, the temporary
    directory that the host created during the startup is removed, once, and
    nothing else is. *)
Theorem stop_removes_only_its_temporary_directory (env : Env) (w w1 w2 : World)
    (b c : bool) :
  _instanceInfo (server w) = None ->
  start env w = (Ok b, w1) ->
  stop env w1 = (Ok c, w2) ->
  let instOpts := default no_instance_opts (opt_instance (opts (server w))) in
  if truthy_string (io_dbPath instOpts)
  then removed (trace w2) = removed (trace w)
  else
    exists t,
      env_dirSync env
        (trace w ++ [EEmit starting; EGetPort (io_port instOpts);
                     EGenerateDbName (io_dbName instOpts)])
      = Ok t
      /\ removed (trace w2) = removed (trace w) ++ [t].
Proof.
  intros Hi H1 H2. cbv zeta.
  destruct (start_Ok env w b w1 Hi H1)
    as (info & w0 & w0' & _ & Hs & _ & _ & Hn & _ & _ & T1 & O1 & _).
  destruct (start_Ok_trace env w b w1 Hi H1) as (_ & _ & _ & _ & R1).
  destruct (startUp_full env w0 info w0' Hs) as (_ & _ & _ & _ & _ & Hd & _).
  cbv zeta in Hd. rewrite O1, T1 in Hd.
  rewrite (stop_with_info env w1 info Hn) in H2.
  destruct (env_kill env (trace w1) (instance info)) as [[] | e]; [| discriminate].
  inversion H2; subst c w2; clear H2. cbn [trace].
  rewrite !removed_app, R1. unfold released.
  destruct (truthy_string (io_dbPath _)).
  - destruct Hd as (_ & -> & _). cbn. now rewrite app_nil_r.
  - destruct Hd as (t & Hd1 & _ & ->). exists t.
    rewrite <- !app_assoc in Hd1. split; [exact Hd1 | reflexivity].
Qed.

Lemma stop_removes_only_its_temporary_directory_witness :
  let h := healthy_host populated in
  removed
    (trace (after (stop h)
              (after (start h)
                 (initial_world (Some (own_directory_opts default_auth_opts))))))
  = [].
Proof.
  cbv zeta.
  set (h := healthy_host populated).
  set (w := initial_world (Some (own_directory_opts default_auth_opts))).
  set (w1 := after (start h) w).
  assert (E1 : start h w = (Ok true, w1)) by (vm_compute; reflexivity).
  assert (E2 : stop h w1 = (Ok true, after (stop h) w1))
    by (vm_compute; reflexivity).
  pose proof (stop_removes_only_its_temporary_directory h w w1 _ true true
                eq_refl E1 E2) as H.
  cbv zeta in H. replace (truthy_string _) with true in H by reflexivity.
  exact H.
Defined.

(** X11: [create] hands out an object only in state [running], with
    RunningInstanceData that [ensureInstance] then returns at once, and after
    the notifications of [starting] and [running] and no other.  The object
    holds the options given, except that the caller's array of extra users
    may have been written by the bootstrap.  When the startup fails,
    [create] throws its error and hands out nothing; the object it made is
    left in state [starting] without data. *)
Theorem create_returns_running (env : Env) (o : option MongoMemoryServerOpts) :
  match create env o with
  | (Ok s, w) =>
      s = server w
      /\ _state s = running
      /\ (opts s = default no_opts o
          \/ exists users', opts s = share_extraUsers users' (default no_opts o))
      /\ notifications (trace w) = [starting; running]
      /\ exists info,
           _instanceInfo s = Some info
           /\ ensureInstance env w = (Ok (Now info), w)
  | (Throw e, w) =>
      outcome (_startUpInstance env)
              (after (stateChange starting) (initial_world (Some (default no_opts o))))
      = Throw e
      /\ _state (server w) = starting
      /\ _instanceInfo (server w) = None
      /\ notifications (trace w) = [starting]
  end.
Proof.
  unfold create.
  set (w0 := initial_world (Some (default no_opts o))).
  assert (H0 : _instanceInfo (server w0) = None) by reflexivity.
  destruct (start env w0) as [[b | e] w] eqn:H.
  - destruct (start_Ok env w0 b w H0 H)
      as (info & w1 & w2 & _ & _ & _ & Hs & Hn & _ & [F Ho] & _ & O1 & _).
    destruct (start_Ok_trace env w0 b w H0 H) as (_ & _ & _ & N & _).
    split; [reflexivity |]. split; [exact Hs |]. split.
    { rewrite Ho. destruct F as (_ & [-> | (l & ->)] & _).
      - left. exact O1.
      - unfold set_extraUsers. destruct (auth (server w1));
          [right; exists l; cbn; now rewrite O1 | left; exact O1]. }
    split; [exact N |]. exists info. split; [exact Hn |].
    unfold ensureInstance, bind, get_server. now rewrite Hn.
  - destruct (start_Throw env w0 e w H0 H)
      as (Ho & Hs & Hn & _ & _ & evs & Ht & Q).
    split; [exact Ho |]. split; [exact Hs |]. split; [exact Hn |].
    apply quiet_events in Q as [Q _].
    rewrite Ht, !notifications_app, Q. cbn.
    now destruct (env_debug_enabled env).
Qed.

(** ** The extra users, whatever the order *)

Lemma commands_user_events l :
  commands ((user_event <$> l) ++ [EClose])
  = map (fun u => (default "admin" (database u),
                   user_command (with_default_database u))) l.
Proof.
  induction l as [| u l IH]; [reflexivity |]. cbn. now rewrite IH.
Qed.

(** X12: when the host's sort only reorders the array and [createAuth]
    returns, the root user is created first, in ['admin'], and then every
    extra user exactly once, each in its own database, ['admin'] when it
    names none; no other command is issued.  [extraUsers] then holds the
    same users in the order of their creation, each with its database
    written out.  With no extra users the sort is not consulted and the root
    user's command is the only one. *)
Theorem every_extra_user_created_once (env : Env) (data : StartupInstanceData)
    (w : World) (a : AutomaticAuth) (u : unit) (w' : World) :
  auth (server w) = Some a ->
  (forall l, Permutation (env_sort env compare_users l) l) ->
  createAuth env data w = (Ok u, w') ->
  exists evs users,
    trace w' = trace w ++ evs
    /\ Permutation users (extraUsers a)
    /\ commands evs
       = ("admin", root_command a)
         :: map (fun u => (default "admin" (database u),
                           user_command (with_default_database u))) users
    /\ (exists a', auth (server w') = Some a'
                   /\ extraUsers a' = with_default_database <$> users)
    /\ (extraUsers a = [] -> commands evs = [("admin", root_command a)]).
Proof.
  intros Ha Hsort H.
  destruct (createAuth_spec env data w a (Ok u) w' Ha H)
    as (k & evs & _ & Hs & _ & Ht & _ & -> & _ & Hl).
  exists (bootstrap_calls env data a), (loop_users env a).
  assert (Hc : commands (bootstrap_calls env data a)
               = ("admin", root_command a)
                 :: map (fun u => (default "admin" (database u),
                                   user_command (with_default_database u)))
                        (loop_users env a)).
  { unfold bootstrap_calls. cbn [commands]. now rewrite commands_user_events. }
  split; [exact Ht |]. split.
  { unfold loop_users. destruct (Nat.ltb 0 (length (extraUsers a))) eqn:E;
      [apply Hsort |].
    apply Nat.ltb_ge in E. destruct (extraUsers a); [constructor | cbn in E; lia]. }
  split; [exact Hc |]. split.
  - unfold sort_ran in Hs. unfold loop_users in Hl |- *.
    replace (Nat.ltb 2 (length (bootstrap_calls env data a))) with true in Hs.
    2: { symmetry. apply Nat.ltb_lt. unfold bootstrap_calls. cbn [length].
         rewrite length_app. cbn. lia. }
    destruct (Nat.ltb 0 (length (extraUsers a))) eqn:E; cbn [andb] in Hs.
    + destruct (auth_set_extraUsers
                  (reached k (env_sort env compare_users (extraUsers a)))
                  _ _ Ha) as (a' & Ha' & Hx & _).
      exists a'. rewrite Hs. split; [exact Ha' |].
      rewrite Hx, Hl. apply reached_all.
    + apply Nat.ltb_ge in E.
      assert (En : extraUsers a = []).
      { destruct (extraUsers a); [reflexivity | cbn in E; lia]. }
      exists a. rewrite Hs. split; [exact Ha |]. now rewrite En.
  - intros En. rewrite Hc. unfold loop_users. now rewrite En.
Qed.

Lemma every_extra_user_created_once_witness :
  let w := auth_world (extra_users_opts test_then_unset) in
  let w' := after (createAuth (healthy_host []) (sample_data None)) w in
  exists evs users,
    trace w' = trace w ++ evs
    /\ Permutation users test_then_unset
    /\ map fst (commands evs) = "admin" :: map (fun u => default "admin" (database u)) users.
Proof.
  cbv zeta.
  set (w := auth_world (extra_users_opts test_then_unset)).
  assert (E : createAuth (healthy_host []) (sample_data None) w
              = (Ok tt, after (createAuth (healthy_host []) (sample_data None)) w))
    by (vm_compute; reflexivity).
  destruct (every_extra_user_created_once (healthy_host []) (sample_data None) w
              (authDefault (extra_users_opts test_then_unset)) tt _
              eq_refl (array_sort_Permutation compare_users) E)
    as (evs & users & Ht & Hp & Hc & _).
  exists evs, users. split; [exact Ht |]. split; [exact Hp |].
  rewrite Hc. cbn [map fst]. f_equal. now rewrite map_map.
Defined.

(** ** [stop] among other callers *)

Lemma step_stop env c info :
  _instanceInfo (server (world c)) = Some info ->
  step env CallStop c
  = mkConfig (mkWorld (server (world c))
                      (trace (world c) ++ [EKill (instance info)])
                      (promises (world c)))
             (in_flight c) (S (stopping c)).
Proof. intros H. cbn [step]. now rewrite H. Qed.

(** X13: two calls of [stop] that overlap, the second made before the kill
    of the first has settled, both ask the same instance to be killed.  When
    the first kill settles, the temporary directory is removed, the data are
    cleared and [stopped] is notified; when the second settles, [stop] finds
    no RunningInstanceData to read [tmpDir] from and throws instead of
    returning true.  It removes nothing again and notifies nothing. *)
Theorem overlapping_stops_release_once (env : Env) (c : Config)
    (info : MongoInstanceData) :
  _instanceInfo (server (world c)) = Some info ->
  let c2 := run env [CallStop; CallStop; KillSettles (Ok tt)] c in
  trace (world c2)
  = trace (world c) ++ [EKill (instance info); EKill (instance info)]
    ++ released info ++ [EEmit stopped]
  /\ _instanceInfo (server (world c2)) = None
  /\ _state (server (world c2)) = stopped
  /\ stopping c2 = S (stopping c)
  /\ stop_finish (Ok tt) (world c2) = (Throw tmpDir_of_undefined, world c2)
  /\ world (step env (KillSettles (Ok tt)) c2) = world c2.
Proof.
  intros H. cbv zeta. rewrite !run_cons. cbn [run foldl].
  rewrite (step_stop env c info H).
  rewrite (step_stop env _ info) by exact H.
  cbn [step stopping world in_flight server trace promises].
  set (w2 := mkWorld _ _ _).
  assert (E : stop_finish (Ok tt) w2
              = (Ok true,
                 mkWorld (set_listeners [] (set_state stopped
                            (set_instanceInfo None (server (world c)))))
                         (trace (world c)
                          ++ [EKill (instance info); EKill (instance info)]
                          ++ released info ++ [EEmit stopped])
                         (fire_cells stopped None (listeners (server (world c)))
                                     (promises (world c))))).
  { unfold stop_finish, bind, get_server. unfold w2. cbn [server]. rewrite H.
    unfold released, emit_event, ret, modify_server.
    destruct (tmpDir (info_data info)); cbn -[stateChange];
      rewrite !stateChange_eq; cbn; rewrite <- ?app_assoc; reflexivity. }
  unfold after. rewrite E. cbn [snd world server trace stopping].
  repeat split.
Qed.

Lemma overlapping_stops_release_once_witness :
  let c2 :=
    run (healthy_host []) [CallStop; CallStop; KillSettles (Ok tt)]
        (mkConfig running_world [] 0) in
  removed (trace (world (step (healthy_host []) (KillSettles (Ok tt)) c2)))
  = [sample_dir]
  /\ outcome (stop_finish (Ok tt)) (world c2) = Throw tmpDir_of_undefined.
Proof.
  cbv zeta.
  destruct (overlapping_stops_release_once (healthy_host [])
              (mkConfig running_world [] 0) sample_info eq_refl)
    as (Ht & _ & _ & _ & Hf & Hw).
  cbv zeta in *. rewrite Hw, Ht. split; [reflexivity |].
  unfold outcome. now rewrite Hf.
Defined.

(** X14: a call of [stop] made while a startup is in flight returns at once
    and asks nothing to be killed; when the startup then succeeds, the
    instance is stored and the state becomes [running] all the same. *)
Theorem stop_during_startup_is_ignored (env : Env) (c : Config) (k : nat)
    (info : MongoInstanceData) :
  _instanceInfo (server (world c)) = None ->
  in_flight c !! k = Some StartTask ->
  let c' := run env [CallStop; Settles k (Ok info)] c in
  step env CallStop c = c
  /\ trace (world c') = trace (world c) ++ [EEmit running]
  /\ _state (server (world c')) = running
  /\ _instanceInfo (server (world c')) = Some info
  /\ stopping c' = stopping c.
Proof.
  intros Hi Hk. cbv zeta. rewrite !run_cons. cbn [run foldl].
  assert (E : step env CallStop c = c) by (cbn [step]; now rewrite Hi).
  rewrite E. cbn [step]. rewrite Hk. unfold after. rewrite start_finish_Ok.
  cbn. repeat split.
Qed.

Lemma stop_during_startup_is_ignored_witness :
  let c' :=
    run (healthy_host []) [CallStop; Settles 0 (Ok sample_info)]
        (mkConfig starting_world [StartTask] 0) in
  kills (trace (world c')) = []
  /\ _state (server (world c')) = running.
Proof.
  cbv zeta.
  destruct (stop_during_startup_is_ignored (healthy_host [])
              (mkConfig starting_world [StartTask] 0) 0 sample_info
              eq_refl eq_refl)
    as (_ & Ht & Hs & _).
  cbv zeta in *. rewrite Ht. split; [reflexivity | exact Hs].
Defined.

(** ** Where a startup attempt can fail *)

Lemma kills_app tr1 tr2 : kills (tr1 ++ tr2) = kills tr1 ++ kills tr2.
Proof.
  induction tr1 as [| e tr1 IH]; [reflexivity |].
  destruct e; cbn; rewrite ?IH; reflexivity.
Qed.

Lemma preparation_launches io :
  launches (preparation io) = [] /\ kills (preparation io) = [].
Proof. unfold preparation. now destruct (truthy_string (io_dbPath io)). Qed.

Lemma bootstrap_calls_kind env data a :
  Forall (fun e => is_bootstrap_call e = true) (bootstrap_calls env data a).
Proof.
  unfold bootstrap_calls. repeat constructor.
  apply Forall_app. split; [| repeat constructor].
  apply Forall_fmap. apply Forall_true. intros u. reflexivity.
Qed.

Lemma bootstrap_calls_launches l :
  Forall (fun e => is_bootstrap_call e = true) l ->
  launches l = [] /\ kills l = [].
Proof.
  induction 1 as [| e l He _ [IH1 IH2]]; [now split |].
  destruct e; cbn in *; try discriminate; now split.
Qed.

Ltac norm_trace H := cbn [trace] in H; rewrite <- ?app_assoc in H; cbn [app] in H.
Ltac solve_trace := cbn [trace]; rewrite <- ?app_assoc; cbn [app]; reflexivity.

(** X15: when a startup attempt fails, the call that failed is the last one
    it made.  If that was the request for a port or for the data directory,
    nothing was launched.  If it was a launch, it was the first one, with
    nothing launched or killed before it, or the second one, after the first
    instance was killed.  If it was a call of the bootstrap or the kill, one
    instance was launched before it and none was asked to be killed: in the
    bootstrap case the attempt ends without a kill. *)
Theorem startup_failure_cases (env : Env) (w : World) (e : Error) (w' : World) :
  _startUpInstance env w = (Throw e, w') ->
  exists calls last,
    trace w' = trace w ++ calls ++ [last]
    /\ ok_call env (trace w ++ calls) last = false
    /\ match last with
       | EGetPort _ | EDirSync | EReaddir _ =>
           launches calls = [] /\ kills calls = []
       | ERun _ =>
           (launches calls = [] /\ kills calls = [])
           \/ (exists first i1, launches calls = [first] /\ kills calls = [i1])
       | EConnect _ | ECommand _ _ | EClose | EKill _ =>
           exists first, launches calls = [first] /\ kills calls = []
       | _ => False
       end.
Proof.
  intros H. unfold _startUpInstance in H.
  bind_ok H s w0 Hg.
  inversion Hg; subst s w0; clear Hg.
  set (instOpts := default no_instance_opts (opt_instance (opts (server w)))) in *.
  set (flag := createAuth_flag (server w) true) in *.
  (* the port *)
  apply bind_inv in H as [(port_ & w1 & Hport & H) | (e0 & Hport & _)];
    apply call_inv in Hport as [Hport ->].
  2: { exists [], (EGetPort (io_port instOpts)). cbn [app ok_call].
       rewrite app_nil_r, <- Hport. repeat split. }
  (* the name *)
  apply bind_inv in H as [(dbName_ & w2 & Hname & H) | (e0 & Hname & _)];
    apply call_inv in Hname as [Hname ->]; [| discriminate].
  cbn [server trace promises] in H.
  (* the data directory *)
  apply bind_inv in H as [([data isNew] & w3 & Hdir & H) | (e0 & Hdir & _)].
  2: { cbn [dbPath] in Hdir.
       destruct (truthy_string (io_dbPath instOpts)); cbn [negb] in Hdir.
       - apply bind_inv in Hdir as [(? & ? & _ & Hr) | (e1 & Hc & _)];
           [discriminate |].
         apply call_inv in Hc as [Hc ->]. norm_trace Hc.
         exists [EGetPort (io_port instOpts); EGenerateDbName (io_dbName instOpts)],
                (EReaddir (default "" (io_dbPath instOpts))).
         split; [solve_trace |]. cbn [ok_call]. rewrite <- Hc. now split.
       - apply bind_inv in Hdir as [(? & ? & _ & Hr) | (e1 & Hc & _)];
           [discriminate |].
         apply call_inv in Hc as [Hc ->]. norm_trace Hc.
         exists [EGetPort (io_port instOpts); EGenerateDbName (io_dbName instOpts)],
                EDirSync.
         split; [solve_trace |]. cbn [ok_call]. rewrite <- Hc. now split. }
  assert (Hpre :
    w3 = mkWorld (server w) (trace w ++ preparation instOpts) (promises w)).
  { cbn [dbPath] in Hdir. unfold preparation.
    destruct (truthy_string (io_dbPath instOpts)); cbn [negb] in Hdir.
    - bind_ok Hdir files w2' Hc.
      apply call_inv in Hc as [_ ->]. inversion Hdir; subst.
      cbn. now rewrite <- !app_assoc.
    - bind_ok Hdir t w2' Hc.
      apply call_inv in Hc as [_ ->]. inversion Hdir; subst.
      cbn. now rewrite <- !app_assoc. }
  clear Hdir. subst w3.
  destruct (preparation_launches instOpts) as [Lp Kp].
  (* the first launch *)
  set (first := mkMongodOpts _ _ _) in H.
  apply bind_inv in H as [(i1 & w4 & Hrun & H) | (e0 & Hrun & _)];
    apply call_inv in Hrun as [Hrun ->]; cbn [server trace promises] in *.
  2: { exists (preparation instOpts), (ERun first).
       split; [solve_trace |]. cbn [ok_call]. rewrite <- Hrun.
       split; [reflexivity |]. left. now split. }
  bind_ok H s' w0 Hg.
  inversion Hg; subst s' w0; clear Hg. cbn [server] in H.
  apply bind_inv in H as [(i2 & w5 & Hboot & H) | (e0 & Hboot & _)];
    [discriminate |].
  destruct flag eqn:Hflag.
  2: { replace (defined (auth (server w)) && false) with false in Hboot
         by now rewrite andb_false_r.
       discriminate. }
  destruct (createAuth_flag_true _ _ Hflag) as (Hauth & a & Ha).
  rewrite Ha in Hboot. cbn [defined andb] in Hboot.
  apply bind_inv in Hboot as [(u1 & w6 & Hc & Hboot) | (e1 & Hc & _)].
  - (* the bootstrap went through *)
    match type of Hc with
    | createAuth _ _ ?w0 = _ =>
        destruct (createAuth_spec env data w0 a _ _ Ha Hc)
          as (k & evs & _ & Hs & Hp & Ht & _ & -> & _)
    end.
    cbn [trace server promises] in Ht.
    destruct (bootstrap_calls_launches _ (bootstrap_calls_kind env data a))
      as [Lb Kb].
    destruct (negb (String.eqb (storageEngine data) _)).
    + apply bind_inv in Hboot as [(u2 & w7 & Hk & Hboot) | (e2 & Hk & _)];
        apply call_inv in Hk as [Hk ->]; cbn [server trace promises] in *.
      * (* the second launch *)
        apply call_inv in Hboot as [Hrun2 ->]. cbn [trace] in *.
        match type of Hrun2 with
        | _ = env_run _ _ ?o =>
            exists (preparation instOpts ++ [ERun first]
                    ++ bootstrap_calls env data a ++ [EKill i1]), (ERun o)
        end.
        rewrite Ht in Hrun2 |- *. norm_trace Hrun2.
        split; [solve_trace |].
        split; [cbn [ok_call]; rewrite <- ?app_assoc; cbn [app];
                now rewrite <- Hrun2 |].
        right. exists first, i1.
        rewrite !launches_app, !kills_app, Lp, Kp.
        cbn [launches kills app]. rewrite ?launches_app, ?kills_app, Lb, Kb.
        now split.
      * (* the kill *)
        exists (preparation instOpts ++ [ERun first]
                ++ bootstrap_calls env data a), (EKill i1).
        rewrite Ht in Hk |- *. norm_trace Hk.
        split; [solve_trace |].
        split; [cbn [ok_call]; rewrite <- ?app_assoc; cbn [app];
                now rewrite <- Hk |].
        exists first.
        rewrite !launches_app, !kills_app, Lp, Kp.
        cbn [launches kills app]. rewrite Lb, Kb. now split.
    + apply bind_inv in Hboot as [(u2 & w7 & Hk & Hboot) | (e2 & Hk & _)];
        discriminate.
  - (* the bootstrap failed *)
    match type of Hc with
    | createAuth _ _ ?w0 = _ =>
        destruct (createAuth_spec env data w0 a _ _ Ha Hc)
          as (k & evs & _ & Hs & Hp & Ht & _ & calls & last & later
              & -> & Hb & _ & Hlast & _)
    end.
    cbn [trace server promises] in Ht, Hlast.
    pose proof (bootstrap_calls_kind env data a) as Hkind.
    rewrite Hb in Hkind. apply Forall_app in Hkind as [Hcalls Hrest].
    apply Forall_cons in Hrest as [Hl _].
    destruct (bootstrap_calls_launches _ Hcalls) as [Lc Kc].
    exists (preparation instOpts ++ [ERun first] ++ calls), last.
    rewrite Ht. norm_trace Hlast.
    split; [solve_trace |].
    split; [rewrite <- ?app_assoc; cbn [app]; exact Hlast |].
    assert (G : exists first0,
                  launches (preparation instOpts ++ [ERun first] ++ calls) = [first0]
                  /\ kills (preparation instOpts ++ [ERun first] ++ calls) = []).
    { exists first. rewrite !launches_app, !kills_app, Lp, Kp.
      cbn [launches kills app]. rewrite Lc, Kc. now split. }
    destruct last; cbn in Hl; try discriminate; exact G.
Qed.

Lemma startup_failure_cases_witness :
  let w := initial_world (Some (own_directory_opts (extra_users_opts test_then_unset))) in
  let w' := after (_startUpInstance (rejecting_host "x")) w in
  exists calls last,
    trace w' = trace w ++ calls ++ [last]
    /\ ok_call (rejecting_host "x") (trace w ++ calls) last = false.
Proof.
  cbv zeta.
  set (w := initial_world (Some (own_directory_opts (extra_users_opts test_then_unset)))).
  assert (E : _startUpInstance (rejecting_host "x") w
              = (Throw (mkError "command createUser failed"),
                 after (_startUpInstance (rejecting_host "x")) w))
    by (vm_compute; reflexivity).
  destruct (startup_failure_cases (rejecting_host "x") w _ _ E)
    as (calls & last & Ht & Hl & _).
  now exists calls, last.
Defined.

(** ** Startups that overlap or fail, among other callers *)

(** X16: two calls of [start] that overlap, the second made before the
    startup of the first has settled, both pass the guard.  When both
    startups succeed, [starting] and [running] have each been notified
    twice, and the RunningInstanceData is the one of the startup that
    settled last: a [stop] that follows asks only that instance to be
    killed. *)
Theorem overlapping_starts_last_wins (env : Env) (c : Config)
    (i1 i2 : MongoInstanceData) :
  _instanceInfo (server (world c)) = None ->
  in_flight c = [] ->
  let c' := run env [CallStart; CallStart; Settles 0 (Ok i1); Settles 0 (Ok i2)] c in
  _instanceInfo (server (world c')) = Some i2
  /\ _state (server (world c')) = running
  /\ in_flight c' = []
  /\ trace (world c')
     = trace (world c) ++ [EEmit starting; EEmit starting; EEmit running; EEmit running]
  /\ trace (world (step env CallStop c')) = trace (world c') ++ [EKill (instance i2)].
Proof.
  intros Hi Hf. cbv zeta. rewrite !run_cons. cbn [run foldl].
  rewrite (step_start env c Hi), Hf.
  rewrite (step_start env _) by (cbn; exact Hi).
  cbn [world in_flight stopping server trace promises app].
  cbn [step in_flight lookup list_lookup world delete list_delete stopping].
  unfold after. rewrite start_finish_Ok.
  cbn [snd step in_flight lookup list_lookup world delete list_delete stopping].
  rewrite start_finish_Ok.
  cbn [snd world server trace _instanceInfo _state set_listeners set_state
       set_instanceInfo in_flight emit_event].
  rewrite <- !app_assoc. repeat split.
Qed.

Lemma overlapping_starts_last_wins_witness :
  let other := mkInfo (sample_data None) (mkInstance 2) in
  let c' :=
    run (healthy_host [])
        [CallStart; CallStart; Settles 0 (Ok sample_info); Settles 0 (Ok other)]
        (initial_config None) in
  _instanceInfo (server (world c')) = Some other
  /\ kills (trace (world (step (healthy_host []) CallStop c'))) = [mkInstance 2].
Proof.
  cbv zeta.
  destruct (overlapping_starts_last_wins (healthy_host []) (initial_config None)
              sample_info (mkInfo (sample_data None) (mkInstance 2))
              eq_refl eq_refl)
    as (Hi & _ & _ & Ht & Hk).
  cbv zeta in *. split; [exact Hi |]. rewrite Hk, Ht. reflexivity.
Defined.

(** X17: when a startup in flight fails, nothing is notified: the state
    and the one-shot waiters registered by [ensureInstance] stay as they
    are, and the promise of every such waiter stays pending, except the
    promise of the caller that ran the startup, which is rejected. *)
Theorem failed_startup_leaves_waiters_pending (env : Env) (c : Config) (k : nat)
    (t : Task) (e : Error) (p : nat) :
  in_flight c !! k = Some t ->
  t <> EnsureTask p ->
  promises (world c) !! p = Some None ->
  let c' := step env (Settles k (Throw e)) c in
  promises (world c') !! p = Some None
  /\ listeners (server (world c')) = listeners (server (world c))
  /\ _state (server (world c')) = _state (server (world c))
  /\ notifications (trace (world c')) = notifications (trace (world c))
  /\ match t with
     | StartTask => True
     | EnsureTask q =>
         promises (world c) !! q = Some None ->
         promises (world c') !! q = Some (Some (Rejected e))
     end.
Proof.
  intros Hk Hne Hp. cbv zeta. cbn [step]. rewrite Hk.
  assert (Hn : notifications
                 (trace (world c)
                  ++ (if env_debug_enabled env then [] else [start_failed_warning]))
               = notifications (trace (world c))).
  { rewrite notifications_app. destruct (env_debug_enabled env); cbn;
      now rewrite app_nil_r. }
  destruct t as [| q]; cbn [world].
  - unfold after. rewrite start_finish_Throw_eq. cbn [snd server promises trace].
    now rewrite Hn.
  - assert (E : (r' <- try (start_finish env (Throw e) ;; ensure_finish) ;;
                 settle q (as_settled r')) (world c)
                = (Ok tt,
                   mkWorld (server (world c))
                           (trace (world c)
                            ++ (if env_debug_enabled env then []
                                else [start_failed_warning]))
                           (settle_cell q (Rejected e) (promises (world c))))).
    { unfold bind, try. cbv beta. rewrite start_finish_Throw_eq. reflexivity. }
    unfold after. rewrite E. cbn [snd server promises trace].
    rewrite Hn. repeat split.
    + rewrite settle_cell_other; [exact Hp | congruence].
    + intros Hq. now apply settle_cell_pending.
Qed.

Lemma failed_startup_leaves_waiters_pending_witness :
  let c := mkConfig waiting_world [StartTask] 0 in
  promises (world (step (healthy_host []) (Settles 0 (Throw boom)) c)) !! 0%nat
  = Some None.
Proof.
  cbv zeta.
  exact (proj1 (failed_startup_leaves_waiters_pending (healthy_host [])
                  (mkConfig waiting_world [StartTask] 0) 0 StartTask boom 0
                  eq_refl ltac:(discriminate) eq_refl)).
Defined.
